(** * mq_client.py: the MQ listener, its sanitizer and its document writer

    A shallow embedding of [src/mq_client.py].  Python [str] values are lists
    of Unicode code points, [bytes] values are lists of octets, both carried
    by [Z].  The calls the listener makes to the outside (pymqi, the
    filesystem, the clock, the tray thread's flag) are answered by a [World]
    of scripted outcomes, and the listener itself is a transition function
    over its loop heads. *)

From Stdlib Require Import String Ascii ZArith Bool Lia List.
Import ListNotations.
Open Scope Z_scope.

(** ** Python strings *)

Module Py.

Abbreviation pystr := (list Z).
Abbreviation pybytes := (list Z).

(** A literal written in the ASCII range. *)
Definition str (s : string) : pystr :=
  map (fun a => Z.of_N (N_of_ascii a)) (list_ascii_of_string s).

Arguments str s%_string.

Definition str_eqb (a b : pystr) : bool :=
  if list_eq_dec Z.eq_dec a b then true else false.

(** [s.startswith(p)] *)
Fixpoint startswith (p s : pystr) : bool :=
  match p, s with
  | [], _ => true
  | _ :: _, [] => false
  | a :: p', b :: s' => (a =? b) && startswith p' s'
  end.

(** [s.find(sub)]: the lowest index where [sub] occurs, [-1] when none. *)
Fixpoint find (sub s : pystr) : Z :=
  if startswith sub s then 0
  else match s with
       | [] => -1
       | _ :: s' => let i := find sub s' in if i =? -1 then -1 else i + 1
       end.

(** [s[i:]] for an index [0 <= i]. *)
Definition slice_from (i : Z) (s : pystr) : pystr := skipn (Z.to_nat i) s.

(** [c in s] *)
Definition contains (c : Z) (s : pystr) : bool := existsb (Z.eqb c) s.

(** [s.replace(old, new)] for a one-character [old]. *)
Definition replace1 (old : Z) (new : pystr) (s : pystr) : pystr :=
  flat_map (fun c => if c =? old then new else [c]) s.

End Py.
Import Py.

(** ** clean_message (lines 67-77) *)

Module Sanitizer.

(** The character class of the pattern
    [[\x00-\x08\x0b-\x0c\x0e-\x1f]]. *)
Definition in_ctrl_class (c : Z) : bool :=
  ((0x00 <=? c) && (c <=? 0x08))
  || ((0x0b <=? c) && (c <=? 0x0c))
  || ((0x0e <=? c) && (c <=? 0x1f)).

(** [re.sub(pattern, '', msg)] for a pattern that is one character class. *)
Definition re_sub_class (cls : Z -> bool) (msg : pystr) : pystr :=
  filter (fun c => negb (cls c)) msg.

Definition RFH : pystr := str "RFH".
Definition XML_PROLOG : pystr := str "<?xml".

Definition clean_message (msg : pystr) : pystr :=
  let msg := re_sub_class in_ctrl_class msg in
  if startswith RFH msg then
    let idx := find XML_PROLOG msg in
    if negb (idx =? -1) then slice_from idx msg else msg
  else msg.

End Sanitizer.

(** ** html.unescape (the standard library's [html] module)

    [save_message] passes the cleaned text through [html.unescape].  The
    function is transcribed from [html/__init__.py].  Two things of the
    interpreter are parameters: the table of named character references,
    [html.entities.html5], and [sys.int_max_str_digits], the longest
    decimal string [int] converts before it raises [ValueError] (4300 by
    default where the limit exists, [0] where it is off or absent). *)

Module Html.

Section Unescape.

Variable html5 : pystr -> option pystr.
Variable int_max_str_digits : nat.

Definition AMP : Z := 38.
Definition HASH : Z := 35.
Definition SEMI : Z := 59.

Definition invalid_charrefs : list (Z * pystr) :=
  [ (0x00, [0xfffd]); (0x0d, [0x0d]); (0x80, [0x20ac]); (0x81, [0x81]);
    (0x82, [0x201a]); (0x83, [0x0192]); (0x84, [0x201e]); (0x85, [0x2026]);
    (0x86, [0x2020]); (0x87, [0x2021]); (0x88, [0x02c6]); (0x89, [0x2030]);
    (0x8a, [0x0160]); (0x8b, [0x2039]); (0x8c, [0x0152]); (0x8d, [0x8d]);
    (0x8e, [0x017d]); (0x8f, [0x8f]); (0x90, [0x90]); (0x91, [0x2018]);
    (0x92, [0x2019]); (0x93, [0x201c]); (0x94, [0x201d]); (0x95, [0x2022]);
    (0x96, [0x2013]); (0x97, [0x2014]); (0x98, [0x02dc]); (0x99, [0x2122]);
    (0x9a, [0x0161]); (0x9b, [0x203a]); (0x9c, [0x0153]); (0x9d, [0x9d]);
    (0x9e, [0x017e]); (0x9f, [0x0178]) ].

Fixpoint assoc (k : Z) (t : list (Z * pystr)) : option pystr :=
  match t with
  | [] => None
  | (k', v) :: t' => if k =? k' then Some v else assoc k t'
  end.

Definition between (lo hi c : Z) : bool := (lo <=? c) && (c <=? hi).

Definition invalid_codepoint (n : Z) : bool :=
  between 0x1 0x8 n || between 0xe 0x1f n || between 0x7f 0x9f n
  || between 0xfdd0 0xfdef n || (n =? 0xb)
  || (between 0xfffe 0x10ffff n
      && ((n mod 0x10000 =? 0xfffe) || (n mod 0x10000 =? 0xffff))).

Definition is_digit (c : Z) : bool := between 48 57 c.
Definition is_hexdigit (c : Z) : bool :=
  is_digit c || between 97 102 c || between 65 70 c.
Definition is_x (c : Z) : bool := (c =? 120) || (c =? 88).

(** The class [[^\t\n\f <&#;]]. *)
Definition is_name_char (c : Z) : bool :=
  negb (existsb (Z.eqb c) [9; 10; 12; 32; 60; 38; 35; 59]).

Definition digit_value (c : Z) : Z :=
  if is_digit c then c - 48
  else if between 97 102 c then c - 87
  else c - 55.

(** The number a string of digits of that base denotes. *)
Definition int_of (base : Z) (s : pystr) : Z :=
  fold_left (fun acc c => acc * base + digit_value c) s 0.

(** [int(s)] on a string of decimal digits: [None] stands for the
    [ValueError] of a string longer than the limit.  The interpreter
    consults the limit only for strings of more than 640 digits. *)
Definition int10 (s : pystr) : option Z :=
  if (640 <? length s)%nat
     && negb (Nat.eqb int_max_str_digits 0)
     && (int_max_str_digits <? length s)%nat
  then None
  else Some (int_of 10 s).

(** [int(s, 16)] on a string of hexadecimal digits, which has no limit. *)
Definition int16 (s : pystr) : option Z := Some (int_of 16 s).

(** The longest prefix of at most [n] characters in the class [p], and what
    follows it: a greedy [[p]{0,n}]. *)
Fixpoint span_upto (n : nat) (p : Z -> bool) (s : pystr) : pystr * pystr :=
  match n, s with
  | S n', c :: s' =>
      if p c then let '(a, b) := span_upto n' p s' in (c :: a, b)
      else ([], s)
  | _, _ => ([], s)
  end.

(** A greedy [[p]*]. *)
Definition span (p : Z -> bool) (s : pystr) : pystr * pystr :=
  span_upto (length s) p s.

(** [;?] *)
Definition opt_semi (s : pystr) : pystr * pystr :=
  match s with
  | c :: s' => if c =? SEMI then ([SEMI], s') else ([], s)
  | [] => ([], s)
  end.

(** A match of [_charref] right after an ampersand: group 1 and the text
    after the match.  The three alternatives are tried in the pattern's
    order. *)
Definition match_charref (s : pystr) : option (pystr * pystr) :=
  match s with
  | [] => None
  | c :: t =>
      if c =? HASH then
        let '(ds, r) := span is_digit t in
        match ds with
        | _ :: _ => let '(semi, r') := opt_semi r in Some (c :: ds ++ semi, r')
        | [] =>
            match t with
            | x :: t' =>
                if is_x x then
                  let '(hs, r) := span is_hexdigit t' in
                  match hs with
                  | _ :: _ =>
                      let '(semi, r') := opt_semi r in
                      Some (c :: x :: hs ++ semi, r')
                  | [] => None
                  end
                else None
            | [] => None
            end
        end
      else
        let '(nm, r) := span_upto 32 is_name_char s in
        match nm with
        | _ :: _ => let '(semi, r') := opt_semi r in Some (nm ++ semi, r')
        | [] => None
        end
  end.

(** [s.rstrip(';')] *)
Definition rstrip_semi (s : pystr) : pystr :=
  rev (snd (span (Z.eqb SEMI) (rev s))).

(** The [for x in range(len(s)-1, 1, -1)] loop of the named branch, [x]
    running down from [x0]. *)
Fixpoint longest_name (x0 : nat) (s : pystr) : option pystr :=
  match x0 with
  | S (S _ as x') =>
      match html5 (firstn x0 s) with
      | Some v => Some (v ++ skipn x0 s)
      | None => longest_name x' s
      end
  | _ => None
  end.

(** The character a numeric reference with value [num] stands for. *)
Definition numeric_charref (num : Z) : pystr :=
  match assoc num invalid_charrefs with
  | Some r => r
  | None =>
      if between 0xD800 0xDFFF num || (0x10FFFF <? num) then [0xFFFD]
      else if invalid_codepoint num then []
      else [num]
  end.

(** [_replace_charref] on group 1 of a match; [None] when it raises. *)
Definition replace_charref (s : pystr) : option pystr :=
  match s with
  | [] => Some []
  | c :: t =>
      if c =? HASH then
        let num :=
          match t with
          | x :: h => if is_x x then int16 (rstrip_semi h)
                      else int10 (rstrip_semi t)
          | [] => Some 0
          end in
        option_map numeric_charref num
      else
        match html5 s with
        | Some v => Some v
        | None =>
            match longest_name (length s - 1) s with
            | Some v => Some v
            | None => Some (AMP :: s)
            end
        end
  end.

(** [_charref.sub(_replace_charref, s)]: a left-to-right scan, each match
    replaced and the scan resumed after it; an exception of the
    replacement ends it.  The fuel bounds the number of characters still
    to scan. *)
Fixpoint charref_sub (fuel : nat) (s : pystr) : option pystr :=
  match fuel, s with
  | S fuel', c :: t =>
      if c =? AMP then
        match match_charref t with
        | Some (g, r) =>
            match replace_charref g with
            | Some v => option_map (app v) (charref_sub fuel' r)
            | None => None
            end
        | None => option_map (cons c) (charref_sub fuel' t)
        end
      else option_map (cons c) (charref_sub fuel' t)
  | _, _ => Some s
  end.

(** [html.unescape(s)]; [None] when it raises. *)
Definition unescape (s : pystr) : option pystr :=
  if negb (contains AMP s) then Some s
  else charref_sub (length s) s.

End Unescape.

End Html.

(** ** The sanitizing step of save_message (lines 85-88) *)

Module Clean.

Import Sanitizer.

(** [html.unescape(clean_message(msg))]: the text [save_message] stores as
    Content; [None] when decoding raises. *)
Definition sanitize (html5 : pystr -> option pystr) (int_max_str_digits : nat)
  (msg : pystr) : option pystr :=
  Html.unescape html5 int_max_str_digits (clean_message msg).

(** Two passes of the sanitizer. *)
Definition sanitize_twice (html5 : pystr -> option pystr)
  (int_max_str_digits : nat) (msg : pystr) : option pystr :=
  match sanitize html5 int_max_str_digits msg with
  | Some once => sanitize html5 int_max_str_digits once
  | None => None
  end.

(** *** The sanitizer as the specification words it *)

(** The characters the specification strips: the ranges 0x00-0x08 and
    0x0B-0x1F, newline, carriage return and tab preserved. *)
Definition spec_stripped (c : Z) : bool :=
  (((0x00 <=? c) && (c <=? 0x08)) || ((0x0B <=? c) && (c <=? 0x1F)))
  && negb ((c =? 10) || (c =? 13) || (c =? 9)).

(** The positions at which [sub] occurs in [s], in increasing order. *)
Definition occurrences (sub s : pystr) : list nat :=
  filter (fun i => startswith sub (skipn i s)) (seq 0 (S (List.length s))).

(** Everything before the first occurrence of the payload marker is
    discarded when the text begins with the header marker; the text is
    left as it is when the marker does not occur. *)
Definition spec_header_strip (s : pystr) : pystr :=
  if startswith RFH s then
    match occurrences XML_PROLOG s with
    | i :: _ => skipn i s
    | [] => s
    end
  else s.

(** A decimal character reference with more digits than [int] converts:
    the digits after [&#] are more than 640 and more than the limit, where
    there is one. *)
Definition long_reference (int_max_str_digits : nat) (s : pystr) : Prop :=
  exists pre ds rest,
    s = pre ++ str "&#" ++ ds ++ rest
    /\ forallb Html.is_digit ds = true
    /\ (640 < List.length ds)%nat
    /\ int_max_str_digits <> 0%nat
    /\ (int_max_str_digits < List.length ds)%nat.

(** How a reference ends: with a semicolon, or without one before a
    character that can neither go on with the reference (one of the class
    [p]) nor be its semicolon. *)
Definition ends_reference (p : Z -> bool) (semi rest : pystr) : Prop :=
  semi = [Html.SEMI]
  \/ (semi = []
      /\ forall c, hd_error rest = Some c -> p c = false /\ c <> Html.SEMI).

(** What a named reference [&g] is replaced by: the table's text for [g];
    else the table's text for the longest proper prefix of [g] of two
    characters or more that the table holds, followed by the rest of [g];
    else the reference as it stands. *)
Definition named_replacement (html5 : pystr -> option pystr) (g : pystr) :
  pystr :=
  match html5 g with
  | Some v => v
  | None =>
      match Html.longest_name html5 (List.length g - 1) g with
      | Some v => v
      | None => Html.AMP :: g
      end
  end.

(** The entries of [html.entities.html5] for the five references that XML
    predefines, each with its semicolon. *)
Definition html5_xml (name : pystr) : option pystr :=
  if str_eqb name (str "amp;") then Some (str "&")
  else if str_eqb name (str "lt;") then Some (str "<")
  else if str_eqb name (str "gt;") then Some (str ">")
  else if str_eqb name (str "quot;") then Some [34]
  else if str_eqb name (str "apos;") then Some (str "'")
  else None.

(** The payload of the specification's example,
    [<?xml version="1.0"?><a/>]. *)
Definition example_payload : pystr :=
  str "<?xml version=" ++ [34] ++ str "1.0" ++ [34] ++ str "?><a/>".

End Clean.

(** ** bytes.decode('utf-8', errors='ignore') and str.encode('utf-8')

    The codec of the interpreter, over well-formed UTF-8 as the Unicode
    standard tabulates it.  With [errors='ignore'] an ill-formed sequence
    is skipped up to the byte that broke it and decoding resumes there; an
    incomplete sequence at the end of the input is skipped whole. *)

Module Utf8.

Definition is_cont (b : Z) : bool := (0x80 <=? b) && (b <=? 0xBF).

(** The second byte a three-byte lead admits. *)
Definition second3 (b0 b1 : Z) : bool :=
  if b0 =? 0xE0 then (0xA0 <=? b1) && (b1 <=? 0xBF)
  else if b0 =? 0xED then (0x80 <=? b1) && (b1 <=? 0x9F)
  else is_cont b1.

(** The second byte a four-byte lead admits. *)
Definition second4 (b0 b1 : Z) : bool :=
  if b0 =? 0xF0 then (0x90 <=? b1) && (b1 <=? 0xBF)
  else if b0 =? 0xF4 then (0x80 <=? b1) && (b1 <=? 0x8F)
  else is_cont b1.

Definition cp2 (b0 b1 : Z) : Z := (b0 - 0xC0) * 64 + (b1 - 0x80).
Definition cp3 (b0 b1 b2 : Z) : Z :=
  (b0 - 0xE0) * 4096 + (b1 - 0x80) * 64 + (b2 - 0x80).
Definition cp4 (b0 b1 b2 b3 : Z) : Z :=
  (b0 - 0xF0) * 262144 + (b1 - 0x80) * 4096 + (b2 - 0x80) * 64 + (b3 - 0x80).

Fixpoint decode_ignore (bs : pybytes) : pystr :=
  match bs with
  | [] => []
  | b0 :: r0 =>
      if b0 <? 0x80 then b0 :: decode_ignore r0
      else if b0 <? 0xC2 then decode_ignore r0
      else if b0 <? 0xE0 then
        match r0 with
        | [] => []
        | b1 :: r1 =>
            if is_cont b1 then cp2 b0 b1 :: decode_ignore r1
            else decode_ignore r0
        end
      else if b0 <? 0xF0 then
        match r0 with
        | [] => []
        | b1 :: r1 =>
            if second3 b0 b1 then
              match r1 with
              | [] => []
              | b2 :: r2 =>
                  if is_cont b2 then cp3 b0 b1 b2 :: decode_ignore r2
                  else decode_ignore r1
              end
            else decode_ignore r0
        end
      else if b0 <? 0xF5 then
        match r0 with
        | [] => []
        | b1 :: r1 =>
            if second4 b0 b1 then
              match r1 with
              | [] => []
              | b2 :: r2 =>
                  if is_cont b2 then
                    match r2 with
                    | [] => []
                    | b3 :: r3 =>
                        if is_cont b3 then
                          cp4 b0 b1 b2 b3 :: decode_ignore r3
                        else decode_ignore r2
                    end
                  else decode_ignore r1
              end
            else decode_ignore r0
        end
      else decode_ignore r0
  end.

(** A Unicode scalar value: a code point that is no surrogate. *)
Definition scalar (c : Z) : bool :=
  ((0 <=? c) && (c <? 0xD800)) || ((0xE000 <=? c) && (c <=? 0x10FFFF)).

Definition encode1 (c : Z) : pybytes :=
  if c <? 0x80 then [c]
  else if c <? 0x800 then [0xC0 + c / 64; 0x80 + c mod 64]
  else if c <? 0x10000 then
    [0xE0 + c / 4096; 0x80 + (c / 64) mod 64; 0x80 + c mod 64]
  else
    [0xF0 + c / 262144; 0x80 + (c / 4096) mod 64; 0x80 + (c / 64) mod 64;
     0x80 + c mod 64].

Definition encode (s : pystr) : pybytes := flat_map encode1 s.

Definition octet (b : Z) : bool := (0 <=? b) && (b <? 256).

(** A byte that starts no well-formed sequence. *)
Definition invalid_start (b : Z) : bool :=
  ((0x80 <=? b) && (b <? 0xC2)) || (0xF5 <=? b).

(** [a] is [b] with some elements left out. *)
Inductive subseq : list Z -> list Z -> Prop :=
| subseq_nil : subseq [] []
| subseq_keep x a b : subseq a b -> subseq (x :: a) (x :: b)
| subseq_drop y a b : subseq a b -> subseq a (y :: b).

End Utf8.

(** ** save_message (lines 80-104) *)

Module Writer.

(** The fields of [datetime.now(timezone.utc)] that the format reads. *)
Record datetime := mk_datetime
  { year : Z; month : Z; day : Z; hour : Z; minute : Z; second : Z }.

(** The last decimal digit of [n], as a character; [%m] and the like as
    two digits, [%Y] as four. *)
Definition digit (n : Z) : Z := 48 + n mod 10.
Definition d2 (n : Z) : pystr := [digit (n / 10); digit n].
Definition d4 (n : Z) : pystr :=
  [digit (n / 1000); digit (n / 100); digit (n / 10); digit n].

(** [strftime("%Y%m%dT%H%M%SZ")], for a year of four digits: [%Y] is not
    padded for a smaller year on every platform, and the properties of
    the timestamp below are stated for years from 1000 on. *)
Definition strftime (t : datetime) : pystr :=
  d4 (year t) ++ d2 (month t) ++ d2 (day t) ++ str "T"
  ++ d2 (hour t) ++ d2 (minute t) ++ d2 (second t) ++ str "Z".

Definition QUEUE_NAME : pystr := str "xxxxxxxx".
Definition XML_SAVE_DIR : pystr := str "extracted_data".

#[local] Set Warnings "-register-all".

(** An [xml.etree.ElementTree.Element] without attributes or tail. *)
Inductive element :=
| Element (tag : pystr) (text : option pystr) (children : list element).

Definition tag_of (e : element) : pystr :=
  match e with Element t _ _ => t end.
Definition text_of (e : element) : option pystr :=
  match e with Element _ x _ => x end.
Definition children_of (e : element) : list element :=
  match e with Element _ _ k => k end.

(** [root.find(tag).text] *)
Definition find_text (tag : pystr) (root : element) : option pystr :=
  match List.find (fun e => str_eqb (tag_of e) tag) (children_of root) with
  | Some e => text_of e
  | None => None
  end.

(** [ET._escape_cdata] *)
Definition escape_cdata (text : pystr) : pystr :=
  let text :=
    if contains 38 text then replace1 38 (str "&amp;") text else text in
  let text :=
    if contains 60 text then replace1 60 (str "&lt;") text else text in
  if contains 62 text then replace1 62 (str "&gt;") text else text.

(** The escape of one character. *)
Definition escape1 (c : Z) : pystr :=
  if c =? 38 then str "&amp;"
  else if c =? 60 then str "&lt;"
  else if c =? 62 then str "&gt;"
  else [c].

Definition truthy_text (x : option pystr) : bool :=
  match x with Some (_ :: _) => true | _ => false end.

(** [ET._serialize_xml] with [short_empty_elements=True], for elements
    without attributes, namespaces or tails. *)
Fixpoint serialize_xml (e : element) : pystr :=
  match e with
  | Element tag text kids =>
      str "<" ++ tag ++
      (if truthy_text text || negb (Nat.eqb (List.length kids) 0) then
         str ">"
         ++ (match text with
             | Some ((_ :: _) as x) => escape_cdata x
             | _ => []
             end)
         ++ flat_map serialize_xml kids
         ++ str "</" ++ tag ++ str ">"
       else str " />")
  end.

(** A surrogate code point, the one kind of character UTF-8 does not
    encode. *)
Definition surrogate (c : Z) : bool := (0xD800 <=? c) && (c <=? 0xDFFF).

(** A number of five digits, in decimal. *)
Definition d5 (n : Z) : pystr :=
  [digit (n / 10000); digit (n / 1000); digit (n / 100); digit (n / 10);
   digit n].

(** [s.encode("utf-8", errors="xmlcharrefreplace")]: a character that
    cannot be encoded is written as a decimal character reference. *)
Definition encode1_xmlcharrefreplace (c : Z) : pybytes :=
  if surrogate c then str "&#" ++ d5 c ++ str ";" else Utf8.encode1 c.

Definition encode_xmlcharrefreplace (s : pystr) : pybytes :=
  flat_map encode1_xmlcharrefreplace s.

Section SaveMessage.

(** The two parameters of [html.unescape], the separator [os.path.join]
    puts between directory and file name, and the line ending a file
    opened in text mode writes for a newline. *)
Variable html5 : pystr -> option pystr.
Variable int_max_str_digits : nat.
Variable os_sep : pystr.
Variable linesep : pystr.

(** What a call to [save_message] hands to the filesystem. *)
Record written := mk_written
  { timestamp : pystr; filename : pystr; root : element; data : pybytes }.

(** [tree.write(filename, encoding="utf-8", xml_declaration=True)]: the
    declaration, the serialized root, newlines translated by the text-mode
    file, all encoded as UTF-8 by a file that [_get_writer] opens with
    [errors="xmlcharrefreplace"]. *)
Definition tree_write (r : element) : pybytes :=
  encode_xmlcharrefreplace
    (replace1 10 linesep
       (str "<?xml version='1.0' encoding='utf-8'?>" ++ [10]
        ++ serialize_xml r)).

(** [None] when the function raises before it writes. *)
Definition save_message (now : datetime) (msg : pystr) : option written :=
  let timestamp := strftime now in
  let filename :=
    XML_SAVE_DIR ++ os_sep ++ str "message_" ++ timestamp ++ str ".xml" in
  let clean_msg := Sanitizer.clean_message msg in
  match Html.unescape html5 int_max_str_digits clean_msg with
  | None => None
  | Some clean_content =>
      let root :=
        Element (str "MQMessage") None
          [ Element (str "Timestamp") (Some timestamp) [];
            Element (str "QueueName") (Some QUEUE_NAME) [];
            Element (str "MessageType") (Some (str "Text")) [];
            Element (str "Content") (Some clean_content) [] ] in
      Some (mk_written timestamp filename root (tree_write root))
  end.

End SaveMessage.

(** The document of a message: the four fields under the root. *)
Definition document_of (ts content : pystr) : element :=
  Element (str "MQMessage") None
    [ Element (str "Timestamp") (Some ts) [];
      Element (str "QueueName") (Some QUEUE_NAME) [];
      Element (str "MessageType") (Some (str "Text")) [];
      Element (str "Content") (Some content) [] ].

(** The text of a written file as the specification describes the
    document: the declaration naming the encoding, and under the root the
    four fields in their order, the markup characters of the content
    escaped.  An empty content is written as an empty element. *)
Definition document_text (ts content : pystr) : pystr :=
  str "<?xml version='1.0' encoding='utf-8'?>" ++ [10]
  ++ str "<MQMessage>"
  ++ str "<Timestamp>" ++ ts ++ str "</Timestamp>"
  ++ str "<QueueName>" ++ QUEUE_NAME ++ str "</QueueName>"
  ++ str "<MessageType>Text</MessageType>"
  ++ match content with
     | [] => str "<Content />"
     | _ :: _ =>
         str "<Content>" ++ flat_map escape1 content ++ str "</Content>"
     end
  ++ str "</MQMessage>".

(** 2024-01-02 03:04:05 UTC. *)
Definition moment : datetime := mk_datetime 2024 1 2 3 4 5.

End Writer.

(** ** Reading a written document back

    [mq_client.py] only writes.  To state what a consumer of the files gets,
    this is a reader for the documents [tree.write] produces, after XML 1.0:
    the [Char] production (2.2), end-of-line handling (2.11), the predefined
    entities (4.6), and ElementTree's convention that an element without
    character data has [text = None]. *)

Module XmlRead.

Import Writer.

Definition xml_char (c : Z) : bool :=
  (c =? 0x9) || (c =? 0xA) || (c =? 0xD)
  || Html.between 0x20 0xD7FF c || Html.between 0xE000 0xFFFD c
  || Html.between 0x10000 0x10FFFF c.

(** Every [\r\n] and every other [\r] becomes [\n]. *)
Fixpoint normalize_eol (s : pystr) : pystr :=
  match s with
  | [] => []
  | c :: t =>
      if c =? 13 then
        match t with
        | d :: t' =>
            if d =? 10 then 10 :: normalize_eol t' else 10 :: normalize_eol t
        | [] => [10]
        end
      else c :: normalize_eol t
  end.

Definition predefined (name : pystr) : option Z :=
  if str_eqb name (str "amp") then Some 38
  else if str_eqb name (str "lt") then Some 60
  else if str_eqb name (str "gt") then Some 62
  else if str_eqb name (str "quot") then Some 34
  else if str_eqb name (str "apos") then Some 39
  else None.

Definition prepend (c : Z) (o : option (pystr * pystr)) :
  option (pystr * pystr) :=
  match o with Some (x, r) => Some (c :: x, r) | None => None end.

(** Character data up to the next markup: the text it denotes and what
    follows.  [pending] collects the name of a reference being read, most
    recent character first. *)
Fixpoint chardata (pending : option pystr) (s : pystr) :
  option (pystr * pystr) :=
  match s with
  | [] => None
  | c :: t =>
      match pending with
      | Some name =>
          if c =? 59 then
            match predefined (rev name) with
            | Some ch => prepend ch (chardata None t)
            | None => None
            end
          else if (c =? 60) || (c =? 38) then None
          else chardata (Some (c :: name)) t
      | None =>
          if c =? 60 then Some ([], s)
          else if c =? 38 then chardata (Some []) t
          else if xml_char c then prepend c (chardata None t)
          else None
      end
  end.

Fixpoint tag_name (s : pystr) : pystr * pystr :=
  match s with
  | [] => ([], [])
  | c :: t =>
      if (c =? 62) || (c =? 32) || (c =? 47) then ([], s)
      else let '(n, r) := tag_name t in (c :: n, r)
  end.

Definition is_nil (s : pystr) : bool :=
  match s with [] => true | _ => false end.

Fixpoint parse_element (fuel : nat) (s : pystr) : option (element * pystr) :=
  match fuel with
  | O => None
  | S f =>
      match s with
      | [] => None
      | c :: t =>
          if c =? 60 then
            let '(name, r) := tag_name t in
            if is_nil name then None
            else if startswith (str " />") r then
              Some (Element name None [], skipn 3 r)
            else
              match r with
              | [] => None
              | g :: body =>
                  if g =? 62 then
                    match chardata None body with
                    | None => None
                    | Some (txt, r1) =>
                        match parse_children f name r1 with
                        | None => None
                        | Some (kids, r2) =>
                            Some (Element name
                                    (if is_nil txt then None else Some txt)
                                    kids, r2)
                        end
                    end
                  else None
              end
          else None
      end
  end
with parse_children (fuel : nat) (name : pystr) (s : pystr) :
  option (list element * pystr) :=
  match fuel with
  | O => None
  | S f =>
      let close := str "</" ++ name ++ str ">" in
      if startswith close s then Some ([], skipn (List.length close) s)
      else
        match parse_element f s with
        | None => None
        | Some (e, r) =>
            match chardata None r with
            | None => None
            | Some (_, r') =>
                match parse_children f name r' with
                | None => None
                | Some (k, r2) => Some (e :: k, r2)
                end
            end
        end
  end.

(** The text after the XML declaration and the white space behind it. *)
Definition after_declaration (s : pystr) : option pystr :=
  if startswith (str "<?xml") s then
    let i := find (str "?>") s in
    if i =? -1 then None
    else
      let r := slice_from (i + 2) s in
      Some (match r with
            | c :: r' => if c =? 10 then r' else r
            | [] => r
            end)
  else None.

(** [ET.fromstring(data)] on the bytes of a written file. *)
Definition parse_document (data : pybytes) : option element :=
  let s := normalize_eol (Utf8.decode_ignore data) in
  match after_declaration s with
  | None => None
  | Some body =>
      match parse_element (S (List.length body)) body with
      | Some (e, []) => Some e
      | _ => None
      end
  end.

(** *** Documents that read back as written *)

(** A character that passes through writing and reading unchanged: a
    legal XML character other than carriage return. *)
Definition plain (c : Z) : bool := xml_char c && negb (c =? 13).

Definition tag_char (c : Z) : bool :=
  plain c
  && negb ((c =? 62) || (c =? 32) || (c =? 47) || (c =? 60) || (c =? 38)
           || (c =? 10)).

Definition name_ok (tag : pystr) : bool :=
  negb (is_nil tag) && forallb tag_char tag.

(** An element with a name, non-empty plain text and no children. *)
Definition plain_leaf (e : element) : bool :=
  match e with
  | Element tag (Some txt) [] =>
      name_ok tag && negb (is_nil txt) && forallb plain txt
  | _ => false
  end.

Definition is_digit (c : Z) : bool := (48 <=? c) && (c <=? 57).

(** The format [YYYYMMDDTHHMMSSZ]. *)
Definition timestamp_format (ts : pystr) : bool :=
  match ts with
  | [y1; y2; y3; y4; m1; m2; d1; d2; t; h1; h2; n1; n2; s1; s2; z] =>
      forallb is_digit [y1; y2; y3; y4; m1; m2; d1; d2; h1; h2; n1; n2; s1; s2]
      && (t =? 84) && (z =? 90)
  | _ => false
  end.

(** A moment [datetime.now] can return, with a year of four digits. *)
Definition valid_datetime (t : datetime) : bool :=
  ((1000 <=? year t) && (year t <=? 9999))
  && ((1 <=? month t) && (month t <=? 12))
  && ((1 <=? day t) && (day t <=? 31))
  && ((0 <=? hour t) && (hour t <=? 23))
  && ((0 <=? minute t) && (minute t <=? 59))
  && ((0 <=? second t) && (second t <=? 59)).

(** The number a run of decimal digits denotes. *)
Definition number (s : pystr) : Z := Html.int_of 10 s.

(** The moment a timestamp of that format names. *)
Definition read_timestamp (ts : pystr) : datetime :=
  mk_datetime (number (firstn 4 ts)) (number (firstn 2 (skipn 4 ts)))
    (number (firstn 2 (skipn 6 ts))) (number (firstn 2 (skipn 9 ts)))
    (number (firstn 2 (skipn 11 ts))) (number (firstn 2 (skipn 13 ts))).

Definition XML_DECLARATION : pystr :=
  str "<?xml version='1.0' encoding='utf-8'?>".

End XmlRead.

(** ** listen_to_queue (lines 133-171) *)

Module Listener.

(** What [queue.get] hands back. *)
Inductive pyvalue :=
| PyNone
| PyBytes (b : pybytes)
| PyStr (s : pystr).

(** The test [if msg:]. *)
Definition truthy (v : pyvalue) : bool :=
  match v with
  | PyNone => false
  | PyBytes b => negb (Nat.eqb (List.length b) 0)
  | PyStr s => negb (Nat.eqb (List.length s) 0)
  end.

(** Lines 151-152: a [bytes] message is decoded, anything else is passed
    on as it is. *)
Definition to_text (v : pyvalue) : pystr :=
  match v with
  | PyBytes b => Utf8.decode_ignore b
  | PyStr s => s
  | PyNone => []
  end.

(** Exceptions below [Exception]: [pymqi.MQMIError] with its reason code,
    and every other one. *)
Inductive exn :=
| MQMIError (reason : Z)
| OtherError.

Definition MQRC_NO_MSG_AVAILABLE : Z := 2033.

Inductive outcome (A : Type) :=
| Returns (a : A)
| Raises (e : exn).
Arguments Returns {A} a.
Arguments Raises {A} e.

(** The answers of the outside, each indexed by the number of earlier calls
    of its kind: whether the tray thread has set [stop_signal] when the
    loop polls it, [connect_to_mq], [pymqi.Queue], [queue.get], and whether
    the write inside [save_message] succeeds. *)
Record World := mk_World
  { exit_clicked : nat -> bool;
    connect_result : nat -> outcome unit;
    open_result : nat -> outcome unit;
    get_result : nat -> outcome pyvalue;
    save_result : nat -> outcome unit }.

Inductive level := INFO | ERROR.

Inductive logline :=
| Connected                 (* "Connected successfully to MQ." *)
| FailedToConnect (e : exn) (* "Failed to connect to MQ: ..." *)
| GeneralConnectError (e : exn)
| ReceivedMessage           (* "Received a message." *)
| SavedCleanMessage         (* "Saved clean message to ..." *)
| NoMoreMessages            (* "No more messages available." *)
| NoMessagesRetrying        (* "No messages available, retrying..." *)
| ErrorReceiving (e : exn)  (* "Error receiving message: ..." *)
| ListenerError (e : exn)   (* "Listener error: ..." *)
| RetryingConnection.       (* "Retrying connection in 10 seconds..." *)

(** The calls the loop makes, in order.  A connection is named by the
    number of the [connect_to_mq] call that made it.  [QueueClose] and
    [Disconnect] stand for [queue.close()] and [qmgr.disconnect()], the
    releasing calls of the pymqi interface. *)
Inductive event :=
| Connect (h : nat) (r : outcome unit)
| QueueOpen (h : nat) (r : outcome unit)
| QueueGet (h : nat) (r : outcome pyvalue)
| QueueClose (h : nat)
| Disconnect (h : nat)
| SaveMessage (msg : pystr) (r : outcome unit)
| Sleep (seconds : Z)
| StopSignalSet
| Log (lvl : level) (l : logline).

(** Where control stands between two steps: at the test of the outer
    [while] (line 134), at the test of the inner [while] (line 144) with
    the queue opened in this cycle, before the retry wait (line 170), or
    past the end of the function. *)
Inductive loc :=
| DISCONNECTED
| RECEIVING (h : nat)
| BACKOFF
| STOPPED.

Record state := mk_state
  { at_ : loc;
    stop_signal : bool;
    polls : nat;
    connects : nat;
    opens : nat;
    gets : nat;
    saves : nat }.

Definition init : state := mk_state DISCONNECTED false 0 0 0 0 0.

Definition goto (l : loc) (s : state) : state :=
  mk_state l (stop_signal s) (polls s) (connects s) (opens s) (gets s)
    (saves s).

(** [stop_signal.is_set()] *)
Definition is_set (w : World) (s : state) : bool * state :=
  let b := stop_signal s || exit_clicked w (polls s) in
  (b, mk_state (at_ s) b (S (polls s)) (connects s) (opens s) (gets s)
        (saves s)).

(** [stop_signal.set()] *)
Definition set_stop (s : state) : state :=
  mk_state (at_ s) true (polls s) (connects s) (opens s) (gets s) (saves s).

Definition count_connect (s : state) : state :=
  mk_state (at_ s) (stop_signal s) (polls s) (S (connects s)) (opens s)
    (gets s) (saves s).
Definition count_open (s : state) : state :=
  mk_state (at_ s) (stop_signal s) (polls s) (connects s) (S (opens s))
    (gets s) (saves s).
Definition count_get (s : state) : state :=
  mk_state (at_ s) (stop_signal s) (polls s) (connects s) (opens s)
    (S (gets s)) (saves s).
Definition count_save (s : state) : state :=
  mk_state (at_ s) (stop_signal s) (polls s) (connects s) (opens s) (gets s)
    (S (saves s)).

(** [connect_to_mq] (lines 107-130): the call, its log line, and the
    exception it raises again. *)
Definition connect_to_mq (w : World) (s : state) :
  outcome nat * state * list event :=
  let h := connects s in
  let r := connect_result w h in
  match r with
  | Returns _ =>
      (Returns h, count_connect s, [Connect h r; Log INFO Connected])
  | Raises (MQMIError c) =>
      (Raises (MQMIError c), count_connect s,
       [Connect h r; Log ERROR (FailedToConnect (MQMIError c))])
  | Raises OtherError =>
      (Raises OtherError, count_connect s,
       [Connect h r; Log ERROR (GeneralConnectError OtherError)])
  end.

(** An exception raised inside the inner [try] (lines 145-158): the
    handler of line 159 takes a [pymqi.MQMIError], [continue]s on the
    reason "no message available" and [break]s on any other; every other
    exception leaves the inner loop for the handler of line 167. *)
Definition except_inner (s : state) (e : exn) : state * list event :=
  match e with
  | MQMIError reason =>
      if reason =? MQRC_NO_MSG_AVAILABLE then
        (s, [Log INFO NoMessagesRetrying])
      else (goto BACKOFF s, [Log ERROR (ErrorReceiving e)])
  | OtherError => (goto BACKOFF s, [Log ERROR (ListenerError e)])
  end.

(** The body of the inner loop (lines 146-158) on the queue [h]. *)
Definition receive_one (w : World) (h : nat) (s : state) :
  state * list event :=
  let r := get_result w (gets s) in
  let s := count_get s in
  match r with
  | Raises e =>
      let '(s, evs) := except_inner s e in (s, QueueGet h r :: evs)
  | Returns msg =>
      if truthy msg then
        let text := to_text msg in
        let sr := save_result w (saves s) in
        let s := count_save s in
        match sr with
        | Returns _ =>
            (s, [QueueGet h r; Log INFO ReceivedMessage;
                 SaveMessage text sr; Log INFO SavedCleanMessage; Sleep 10])
        | Raises e =>
            let '(s, evs) := except_inner s e in
            (s, [QueueGet h r; Log INFO ReceivedMessage; SaveMessage text sr]
                ++ evs)
        end
      else
        (set_stop s, [QueueGet h r; Log INFO NoMoreMessages; StopSignalSet])
  end.

(** One pass from a loop head to the next. *)
Definition step (w : World) (s : state) : state * list event :=
  match at_ s with
  | STOPPED => (s, [])
  | DISCONNECTED =>
      let '(stop, s) := is_set w s in
      if stop then (goto STOPPED s, [])
      else
        match connect_to_mq w s with
        | (Raises e, s, evs) =>
            (goto BACKOFF s, evs ++ [Log ERROR (ListenerError e)])
        | (Returns h, s, evs) =>
            let r := open_result w (opens s) in
            let s := count_open s in
            match r with
            | Raises e =>
                (goto BACKOFF s,
                 evs ++ [QueueOpen h r; Log ERROR (ListenerError e)])
            | Returns _ => (goto (RECEIVING h) s, evs ++ [QueueOpen h r])
            end
        end
  | RECEIVING h =>
      let '(stop, s) := is_set w s in
      if stop then (goto BACKOFF s, []) else receive_one w h s
  | BACKOFF => (goto DISCONNECTED s, [Log INFO RetryingConnection; Sleep 10])
  end.

(** [n] passes from [s]: the state reached and the calls made. *)
Fixpoint run (w : World) (n : nat) (s : state) : state * list event :=
  match n with
  | O => (s, [])
  | S n' =>
      let '(s1, e1) := step w s in
      let '(s2, e2) := run w n' s1 in
      (s2, e1 ++ e2)
  end.

(** [listen_to_queue()], cut after [n] passes. *)
Definition listen_to_queue (w : World) (n : nat) : state * list event :=
  run w n init.

(** *** Readings of a trace *)

Definition raised {A : Type} (r : outcome A) : bool :=
  match r with Raises _ => true | Returns _ => false end.

Definition is_receive (e : event) : bool :=
  match e with QueueGet _ _ => true | _ => false end.
Definition is_connect (e : event) : bool :=
  match e with Connect _ _ => true | _ => false end.
Definition is_sleep (e : event) : bool :=
  match e with Sleep _ => true | _ => false end.
Definition is_release (e : event) : bool :=
  match e with QueueClose _ | Disconnect _ => true | _ => false end.
Definition is_error_log (e : event) : bool :=
  match e with Log ERROR _ => true | _ => false end.

Definition count (p : event -> bool) (tr : list event) : nat :=
  List.length (filter p tr).

(** No receive is issued while a received message waits for its
    [save_message], every [save_message] is given the message received
    last, and none is given the same message again.  [pending] is the
    message that waits. *)
Fixpoint one_persist_per_receive (pending : option pystr) (tr : list event) :
  bool :=
  match tr with
  | [] => match pending with None => true | Some _ => false end
  | QueueGet _ r :: tr' =>
      match pending with
      | Some _ => false
      | None =>
          one_persist_per_receive
            (match r with
             | Returns v => if truthy v then Some (to_text v) else None
             | Raises _ => None
             end) tr'
      end
  | SaveMessage m _ :: tr' =>
      match pending with
      | Some m' => str_eqb m m' && one_persist_per_receive None tr'
      | None => false
      end
  | _ :: tr' => one_persist_per_receive pending tr'
  end.

(** Connections are numbered in the order they are made, and a queue is
    opened and read only on the connection made last.  [cur] is that
    connection, [next] the number of the next one. *)
Fixpoint handles_fresh (cur : option nat) (next : nat) (tr : list event) :
  bool :=
  match tr with
  | [] => true
  | Connect h r :: tr' =>
      Nat.eqb h next
      && handles_fresh (if raised r then None else Some h) (S next) tr'
  | QueueOpen h _ :: tr' | QueueGet h _ :: tr' =>
      match cur with
      | Some c => Nat.eqb h c && handles_fresh cur next tr'
      | None => false
      end
  | _ :: tr' => handles_fresh cur next tr'
  end.

(** A call that failed is followed at once by an ERROR log line, and no
    connection is attempted after a failure until ten seconds have been
    slept.  [owed] tells that a wait is due; [failed] that the call just
    before failed. *)
Definition transient (e : exn) : bool :=
  match e with
  | MQMIError c => c =? MQRC_NO_MSG_AVAILABLE
  | OtherError => false
  end.

Definition failure (e : event) : bool :=
  match e with
  | Connect _ r | QueueOpen _ r => raised r
  | QueueGet _ (Raises x) | SaveMessage _ (Raises x) => negb (transient x)
  | _ => false
  end.

Fixpoint logged_then_backoff (owed failed : bool) (tr : list event) : bool :=
  match tr with
  | [] => negb failed
  | e :: tr' =>
      (if failed then is_error_log e else true)
      && (if is_connect e then negb owed else true)
      && logged_then_backoff
           (match e with Sleep 10 => false | _ => owed || failure e end)
           (failure e) tr'
  end.

(** *** Worlds the properties are tried on *)

Definition NO_MSG : outcome pyvalue :=
  Raises (MQMIError MQRC_NO_MSG_AVAILABLE).

(** A world for C1: the connection opens, and the first [queue.get]
    returns the empty byte string. *)
Definition world_empty_queue : World :=
  mk_World (fun _ => false) (fun _ => Returns tt) (fun _ => Returns tt)
    (fun _ => Returns (PyBytes [])) (fun _ => Returns tt).

(** A world with traffic: three messages, the second of which cannot be
    written, then a broker error, then silence. *)
Definition world_traffic : World :=
  mk_World (fun _ => false) (fun _ => Returns tt) (fun _ => Returns tt)
    (fun k => match k with
              | 0%nat => Returns (PyBytes [104; 105])
              | 1%nat => Returns (PyBytes [0xC3; 0xA9; 0xFF])
              | 2%nat => Returns (PyStr [111; 107])
              | 3%nat => Raises (MQMIError 2009)
              | _ => Returns PyNone
              end)
    (fun k => match k with 1%nat => Raises OtherError | _ => Returns tt end).

(** A world for C3: the first message arrives and cannot be written. *)
Definition world_disk_full : World :=
  mk_World (fun _ => false) (fun _ => Returns tt) (fun _ => Returns tt)
    (fun _ => Returns (PyBytes [120]))
    (fun k => match k with 0%nat => Raises OtherError | _ => Returns tt end).

(** A world for C4: the broker reports twice that no message is
    available, then delivers one. *)
Definition world_quiet_then_message : World :=
  mk_World (fun _ => false) (fun _ => Returns tt) (fun _ => Returns tt)
    (fun k => match k with
              | 0%nat | 1%nat => NO_MSG
              | _ => Returns (PyBytes [120])
              end)
    (fun _ => Returns tt).

(** A world for C8: the first session dies of a broker error, the second
    ends because the queue is empty. *)
Definition world_broken_then_empty : World :=
  mk_World (fun _ => false) (fun _ => Returns tt) (fun _ => Returns tt)
    (fun k => match k with
              | 0%nat => Raises (MQMIError 2009)
              | _ => Returns PyNone
              end)
    (fun _ => Returns tt).

(** A world for C9: the broker is unreachable twice, then answers. *)
Definition world_down_twice : World :=
  mk_World (fun _ => false)
    (fun k => match k with
              | 0%nat => Raises (MQMIError 2538)
              | 1%nat => Raises OtherError
              | _ => Returns tt
              end)
    (fun _ => Returns tt) (fun _ => NO_MSG) (fun _ => Returns tt).

(** A world for C10: the message is the UTF-8 of "e acute" followed by the
    byte 0xFF, which no UTF-8 text contains. *)
Definition world_bad_byte : World :=
  mk_World (fun _ => false) (fun _ => Returns tt) (fun _ => Returns tt)
    (fun _ => Returns (PyBytes [0xC3; 0xA9; 0xFF])) (fun _ => Returns tt).

(** A connection attempt needs a cause: the start of the loop or an
    earlier failure.  [credit] is the attempt the state still allows. *)
Definition credit (s : state) : nat :=
  match at_ s with
  | DISCONNECTED | BACKOFF => if stop_signal s then 0 else 1
  | _ => 0
  end.

(** *** The tray thread *)

(** [on_exit] (lines 53-56) sets [stop_signal]; its log line and
    [icon.stop()] do not reach the loop.  This is the world in which the
    tray thread has run it before the loop polls the flag for the [k]-th
    time: every poll from that one on sees the flag set. *)
Definition on_exit (k : nat) (w : World) : World :=
  mk_World (fun n => (k <=? n)%nat || exit_clicked w n)
    (connect_result w) (open_result w) (get_result w) (save_result w).

(** *** Further readings of a trace *)

Definition is_save (e : event) : bool :=
  match e with SaveMessage _ _ => true | _ => false end.

(** After a call of [save_message] that returned, or that raised
    anything but an [MQMIError] with the reason "no message available"
    (which the handler of line 159 would take for an empty queue), ten
    seconds are slept before the next receive and before the next
    connect.  [due] tells that the sleep is outstanding. *)
Fixpoint paced (due : bool) (tr : list event) : bool :=
  match tr with
  | [] => true
  | e :: tr' =>
      match e with
      | QueueGet _ _ | Connect _ _ => negb due && paced false tr'
      | SaveMessage _ r =>
          paced (match r with
                 | Returns _ => true
                 | Raises x => if transient x then due else true
                 end) tr'
      | Sleep 10 => paced false tr'
      | _ => paced due tr'
      end
  end.

(** A receive is issued only on a queue that was opened, with success, on
    the connection made last.  [opened] is that queue. *)
Fixpoint receives_on_open_queue (opened : option nat) (tr : list event) :
  bool :=
  match tr with
  | [] => true
  | e :: tr' =>
      match e with
      | Connect _ _ => receives_on_open_queue None tr'
      | QueueOpen h r =>
          receives_on_open_queue (if raised r then None else Some h) tr'
      | QueueGet h _ =>
          match opened with
          | Some q => Nat.eqb h q && receives_on_open_queue opened tr'
          | None => false
          end
      | _ => receives_on_open_queue opened tr'
      end
  end.

Definition exn_eqb (a b : exn) : bool :=
  match a, b with
  | MQMIError x, MQMIError y => x =? y
  | OtherError, OtherError => true
  | _, _ => false
  end.

(** The log lines a call of [connect_to_mq] is followed by: its own, and
    on failure the one of the handler of line 167. *)
Definition connect_lines (r : outcome unit) : list event :=
  match r with
  | Returns _ => [Log INFO Connected]
  | Raises (MQMIError c) =>
      [Log ERROR (FailedToConnect (MQMIError c));
       Log ERROR (ListenerError (MQMIError c))]
  | Raises OtherError =>
      [Log ERROR (GeneralConnectError OtherError);
       Log ERROR (ListenerError OtherError)]
  end.

(** The same log line. *)
Definition same_line (a b : event) : bool :=
  match a, b with
  | Log INFO Connected, Log INFO Connected => true
  | Log ERROR (FailedToConnect x), Log ERROR (FailedToConnect y) =>
      exn_eqb x y
  | Log ERROR (GeneralConnectError x), Log ERROR (GeneralConnectError y) =>
      exn_eqb x y
  | Log ERROR (ListenerError x), Log ERROR (ListenerError y) => exn_eqb x y
  | _, _ => false
  end.

(** Every connect is followed at once by its log lines.  [due] are the
    lines still to come. *)
Fixpoint connects_logged (due : list event) (tr : list event) : bool :=
  match tr with
  | [] => match due with [] => true | _ => false end
  | e :: tr' =>
      match due with
      | d :: due' => same_line d e && connects_logged due' tr'
      | [] =>
          match e with
          | Connect _ r => connects_logged (connect_lines r) tr'
          | _ => connects_logged [] tr'
          end
      end
  end.

End Listener.

(** * Properties of the listener *)

Module ListenerFacts.

Import Listener.

Lemma step_stopped w s : at_ s = STOPPED -> step w s = (s, []).
Proof. intros H; unfold step; rewrite H; reflexivity. Qed.

Lemma run_stopped w n : forall s, at_ s = STOPPED -> run w n s = (s, []).
Proof.
  induction n as [|n IH]; intros s H; simpl; [reflexivity|].
  rewrite (step_stopped w s H), (IH s H); reflexivity.
Qed.

Lemma run_S w n s :
  run w (S n) s =
  (fst (run w n (fst (step w s))),
   snd (step w s) ++ snd (run w n (fst (step w s)))).
Proof.
  simpl. destruct (step w s) as [s1 e1]; simpl.
  destruct (run w n s1) as [s2 e2]; reflexivity.
Qed.

Lemma run_add w n m : forall s,
  run w (n + m) s =
  (fst (run w m (fst (run w n s))),
   snd (run w n s) ++ snd (run w m (fst (run w n s)))).
Proof.
  induction n as [|n IH]; intros s.
  - simpl. destruct (run w m s); reflexivity.
  - change (S n + m)%nat with (S (n + m)).
    rewrite !run_S, IH; simpl. rewrite app_assoc; reflexivity.
Qed.

Lemma step_backoff w s :
  at_ s = BACKOFF ->
  step w s = (goto DISCONNECTED s, [Log INFO RetryingConnection; Sleep 10]).
Proof. intros H; unfold step; rewrite H; reflexivity. Qed.

(** The flag is never cleared. *)
Lemma step_stop_monotone w s :
  stop_signal s = true -> stop_signal (fst (step w s)) = true.
Proof.
  intros H. unfold step, is_set. rewrite H; simpl.
  destruct (at_ s); simpl; auto.
Qed.

(** Once the flag is set inside the inner loop, the loop leaves it, waits
    once, and returns. *)
Lemma run_after_stop w s h :
  at_ s = RECEIVING h -> stop_signal s = true ->
  forall n,
    snd (run w n s)
    = (if (2 <=? n)%nat then [Log INFO RetryingConnection; Sleep 10] else [])
    /\ ((3 <= n)%nat -> at_ (fst (run w n s)) = STOPPED)
    /\ stop_signal (fst (run w n s)) = true.
Proof.
  intros Hat Hstop n.
  destruct s as [l st p c o g sv]; simpl in Hat, Hstop; subst l st.
  destruct n as [|[|[|k]]].
  - simpl; repeat split; auto; lia.
  - simpl; repeat split; auto; lia.
  - simpl; repeat split; auto; lia.
  - change (S (S (S k))) with (3 + k)%nat. rewrite run_add.
    set (s3 := fst (run w 3 _)).
    assert (H3 : at_ s3 = STOPPED) by reflexivity.
    rewrite (run_stopped w k s3 H3). simpl. repeat split; auto.
Qed.

(** C1.  In the RECEIVING state, when [queue.get] returns a falsy value
    (no message), the loop logs it, sets the shutdown flag, stays at the
    head of the inner loop only to leave it at the next test, and from there
    reaches STOPPED within three passes, having issued no further receive
    and no further connect: all it still does is the retry log line and one
    ten-second sleep. *)
Theorem no_message_requests_shutdown w s h v :
  at_ s = RECEIVING h ->
  stop_signal s = false ->
  exit_clicked w (polls s) = false ->
  get_result w (gets s) = Returns v ->
  truthy v = false ->
  let s1 := fst (step w s) in
  snd (step w s)
  = [QueueGet h (Returns v); Log INFO NoMoreMessages; StopSignalSet]
  /\ stop_signal s1 = true
  /\ at_ s1 = RECEIVING h
  /\ at_ (fst (step w s1)) = BACKOFF
  /\ snd (step w s1) = []
  /\ forall n,
       count is_receive (snd (run w n s1)) = 0%nat
       /\ count is_connect (snd (run w n s1)) = 0%nat
       /\ ((3 <= n)%nat ->
           at_ (fst (run w n s1)) = STOPPED
           /\ snd (run w n s1) = [Log INFO RetryingConnection; Sleep 10]).
Proof.
  intros Hat Hstop Hclick Hget Hfalsy s1.
  assert (Hstep : step w s
                  = (set_stop (count_get (snd (is_set w s))),
                     [QueueGet h (Returns v); Log INFO NoMoreMessages;
                      StopSignalSet])).
  { unfold step, is_set. rewrite Hat, Hstop, Hclick. simpl.
    unfold receive_one; simpl. rewrite Hget, Hfalsy. reflexivity. }
  subst s1. rewrite Hstep; simpl fst; simpl snd.
  set (s1 := set_stop _).
  assert (H1 : at_ s1 = RECEIVING h) by (subst s1; simpl; exact Hat).
  assert (H2 : stop_signal s1 = true) by reflexivity.
  split; [reflexivity|]. split; [exact H2|]. split; [exact H1|].
  assert (Hnext : step w s1 = (goto BACKOFF (snd (is_set w s1)), [])).
  { unfold step, is_set. rewrite H1, H2. reflexivity. }
  rewrite Hnext. split; [reflexivity|]. split; [reflexivity|].
  intros n. destruct (run_after_stop w s1 h H1 H2 n) as (Htr & Hst & _).
  rewrite Htr. repeat split.
  - destruct (2 <=? n)%nat; reflexivity.
  - destruct (2 <=? n)%nat; reflexivity.
  - auto.
  - destruct (Nat.leb_spec 2 n); [reflexivity | lia].
Qed.

Lemma no_message_requests_shutdown_witness :
  let s := fst (listen_to_queue world_empty_queue 1) in
  let s1 := fst (step world_empty_queue s) in
  snd (step world_empty_queue s)
  = [QueueGet 0 (Returns (PyBytes [])); Log INFO NoMoreMessages;
     StopSignalSet]
  /\ stop_signal s1 = true
  /\ at_ (fst (run world_empty_queue 3 s1)) = STOPPED.
Proof.
  pose proof (no_message_requests_shutdown world_empty_queue
                (fst (listen_to_queue world_empty_queue 1)) 0 (PyBytes [])
                eq_refl eq_refl eq_refl eq_refl eq_refl) as H.
  cbv zeta in H. destruct H as (H1 & H2 & _ & _ & _ & H6).
  split; [exact H1|]. split; [exact H2|].
  apply (H6 3%nat). lia.
Defined.

Lemma str_eqb_refl a : str_eqb a a = true.
Proof. unfold str_eqb. destruct (list_eq_dec Z.eq_dec a a); congruence. Qed.

Lemma str_eqb_eq a b : str_eqb a b = true <-> a = b.
Proof.
  unfold str_eqb. destruct (list_eq_dec Z.eq_dec a b); split; congruence.
Qed.

(** Case analysis on everything a pass consults. *)
Ltac step_cases w s :=
  unfold step, is_set, receive_one, connect_to_mq, except_inner;
  destruct (at_ s); simpl;
  try destruct (stop_signal s); simpl;
  try destruct (exit_clicked w (polls s)); simpl;
  try (destruct (connect_result w (connects s)) as [?|[?|]]; simpl);
  try (destruct (open_result w (opens s)) as [?|?]; simpl);
  try (destruct (get_result w (gets s)) as [v|[c|]]; simpl;
       [ destruct (truthy v) eqn:?; simpl;
         [ destruct (save_result w (saves s)) as [?|[c'|]]; simpl;
           [ | destruct (c' =? MQRC_NO_MSG_AVAILABLE) eqn:?; simpl | ] | ]
       | destruct (c =? MQRC_NO_MSG_AVAILABLE) eqn:?; simpl | ]).

(** The calls of one pass leave no message waiting. *)
Lemma step_one_persist w s tr :
  one_persist_per_receive None (snd (step w s) ++ tr)
  = one_persist_per_receive None tr.
Proof.
  step_cases w s; try reflexivity;
    repeat match goal with H : truthy _ = _ |- _ => rewrite H end;
    rewrite ?str_eqb_refl; reflexivity.
Qed.

Lemma run_one_persist w n : forall s,
  one_persist_per_receive None (snd (run w n s)) = true.
Proof.
  induction n as [|n IH]; intros s; [reflexivity|].
  rewrite run_S; simpl snd. rewrite step_one_persist. apply IH.
Qed.

(** C2.  In every run of the loop, cut anywhere between two passes, each
    message that [queue.get] returned (a truthy value) is handed to
    [save_message] exactly once before the next [queue.get] is issued: no
    receive is issued while a message waits to be persisted, no
    [save_message] call is made without a freshly received message, and so
    the number of persist attempts equals the number of messages
    received. *)
Theorem one_persist_attempt_per_received_message w n :
  let tr := snd (listen_to_queue w n) in
  one_persist_per_receive None tr = true
  /\ count (fun e => match e with SaveMessage _ _ => true | _ => false end) tr
     = count (fun e => match e with
                       | QueueGet _ (Returns v) => truthy v
                       | _ => false
                       end) tr.
Proof.
  cbv zeta. unfold listen_to_queue. split; [apply run_one_persist|].
  generalize init. induction n as [|n IH]; intros s; [reflexivity|].
  rewrite run_S; simpl snd. unfold count in *.
  rewrite !filter_app, !length_app, IH. f_equal.
  step_cases w s; try reflexivity;
    repeat match goal with H : truthy _ = _ |- _ => rewrite H end;
    reflexivity.
Qed.

Example traffic_trace :
  snd (listen_to_queue world_traffic 6)
  = [ Connect 0 (Returns tt); Log INFO Connected; QueueOpen 0 (Returns tt);
      QueueGet 0 (Returns (PyBytes [104; 105])); Log INFO ReceivedMessage;
      SaveMessage [104; 105] (Returns tt); Log INFO SavedCleanMessage;
      Sleep 10;
      QueueGet 0 (Returns (PyBytes [0xC3; 0xA9; 0xFF]));
      Log INFO ReceivedMessage; SaveMessage [0xE9] (Raises OtherError);
      Log ERROR (ListenerError OtherError);
      Log INFO RetryingConnection; Sleep 10;
      Connect 1 (Returns tt); Log INFO Connected; QueueOpen 1 (Returns tt);
      QueueGet 1 (Returns (PyStr [111; 107])); Log INFO ReceivedMessage;
      SaveMessage [111; 107] (Returns tt); Log INFO SavedCleanMessage;
      Sleep 10 ].
Proof. vm_compute. reflexivity. Qed.

(** C3, as stated, fails: after a write failure the loop does not go on
    receiving in the same session.  The pass ends before the retry wait,
    and the next pymqi call is a new connect. *)
Lemma persist_error_ends_the_session :
  let s := fst (listen_to_queue world_disk_full 1) in
  at_ s = RECEIVING 0
  /\ at_ (fst (step world_disk_full s)) = BACKOFF
  /\ snd (run world_disk_full 3 s)
     = [ QueueGet 0 (Returns (PyBytes [120])); Log INFO ReceivedMessage;
         SaveMessage [120] (Raises OtherError);
         Log ERROR (ListenerError OtherError);
         Log INFO RetryingConnection; Sleep 10;
         Connect 1 (Returns tt); Log INFO Connected;
         QueueOpen 1 (Returns tt) ].
Proof. cbv zeta. repeat split; vm_compute; reflexivity. Qed.

(** C3, amended.  When [save_message] fails with an error that is no
    [MQMIError] (a filesystem write failure), the failure is logged at
    ERROR level by the handler of line 167 and the loop does not end: the
    shutdown flag stays clear, the inner loop is left (the session is
    given up), the loop logs the retry, sleeps ten seconds and stands at
    the head of the outer loop again, from where it reconnects.  The
    message is not handed to [save_message] again. *)
Theorem persist_error_logged_then_reconnect w s h v :
  at_ s = RECEIVING h ->
  stop_signal s = false ->
  exit_clicked w (polls s) = false ->
  get_result w (gets s) = Returns v ->
  truthy v = true ->
  save_result w (saves s) = Raises OtherError ->
  let s1 := fst (step w s) in
  let s2 := fst (step w s1) in
  snd (step w s)
  = [ QueueGet h (Returns v); Log INFO ReceivedMessage;
      SaveMessage (to_text v) (Raises OtherError);
      Log ERROR (ListenerError OtherError) ]
  /\ at_ s1 = BACKOFF /\ stop_signal s1 = false
  /\ snd (step w s1) = [Log INFO RetryingConnection; Sleep 10]
  /\ at_ s2 = DISCONNECTED /\ stop_signal s2 = false
  /\ gets s2 = S (gets s) /\ saves s2 = S (saves s).
Proof.
  intros Hat Hstop Hclick Hget Htruthy Hsave.
  assert (Hstep : step w s
                  = (goto BACKOFF (count_save (count_get (snd (is_set w s)))),
                     [ QueueGet h (Returns v); Log INFO ReceivedMessage;
                       SaveMessage (to_text v) (Raises OtherError);
                       Log ERROR (ListenerError OtherError) ])).
  { unfold step, is_set. rewrite Hat, Hstop, Hclick. simpl.
    unfold receive_one; simpl. rewrite Hget, Htruthy, Hsave. reflexivity. }
  cbv zeta. rewrite Hstep. cbn [fst snd].
  set (s1 := goto BACKOFF _).
  assert (Hstop1 : stop_signal s1 = false).
  { subst s1; simpl. rewrite Hstop, Hclick; reflexivity. }
  rewrite (step_backoff w s1 eq_refl).
  repeat split; try reflexivity; assumption.
Qed.

Lemma persist_error_logged_then_reconnect_witness :
  let w := world_disk_full in
  let s := fst (listen_to_queue w 1) in
  snd (step w s)
  = [ QueueGet 0 (Returns (PyBytes [120])); Log INFO ReceivedMessage;
      SaveMessage [120] (Raises OtherError);
      Log ERROR (ListenerError OtherError) ]
  /\ at_ (fst (step w (fst (step w s)))) = DISCONNECTED.
Proof.
  cbv zeta.
  destruct (persist_error_logged_then_reconnect world_disk_full
              (fst (listen_to_queue world_disk_full 1)) 0 (PyBytes [120])
              eq_refl eq_refl eq_refl eq_refl eq_refl eq_refl)
    as (H1 & _ & _ & _ & H5 & _).
  split; [exact H1 | exact H5].
Defined.

Lemma step_transient w s h :
  at_ s = RECEIVING h ->
  stop_signal s = false ->
  exit_clicked w (polls s) = false ->
  get_result w (gets s) = NO_MSG ->
  step w s
  = (count_get (snd (is_set w s)),
     [QueueGet h NO_MSG; Log INFO NoMessagesRetrying]).
Proof.
  intros Hat Hstop Hclick Hget.
  unfold step, is_set. rewrite Hat, Hstop, Hclick. simpl.
  unfold receive_one; simpl. rewrite Hget. reflexivity.
Qed.

(** The first call of a pass in RECEIVING: a receive on the same queue,
    unless shutdown has been requested. *)
Lemma step_receiving_head w s h :
  at_ s = RECEIVING h ->
  hd_error (snd (step w s))
  = if stop_signal s || exit_clicked w (polls s) then None
    else Some (QueueGet h (get_result w (gets s))).
Proof.
  intros Hat. unfold step, is_set. rewrite Hat.
  destruct (stop_signal s || exit_clicked w (polls s)); [reflexivity|].
  unfold receive_one; simpl.
  destruct (get_result w (gets s)) as [v|e]; simpl.
  - destruct (truthy v); [|reflexivity].
    destruct (save_result w (saves s)) as [?|e]; [reflexivity|].
    destruct (except_inner _ e); reflexivity.
  - destruct (except_inner _ e); reflexivity.
Qed.

Lemma run_transient w h n : forall s,
  at_ s = RECEIVING h ->
  stop_signal s = false ->
  (forall k, (k < n)%nat -> exit_clicked w (polls s + k) = false) ->
  (forall k, (k < n)%nat -> get_result w (gets s + k) = NO_MSG) ->
  snd (run w n s)
  = concat (repeat [QueueGet h NO_MSG; Log INFO NoMessagesRetrying] n)
  /\ at_ (fst (run w n s)) = RECEIVING h
  /\ stop_signal (fst (run w n s)) = false
  /\ polls (fst (run w n s)) = (polls s + n)%nat
  /\ gets (fst (run w n s)) = (gets s + n)%nat.
Proof.
  induction n as [|n IH]; intros s Hat Hstop Hclick Hget.
  - simpl. rewrite !Nat.add_0_r. auto.
  - assert (Hc0 : exit_clicked w (polls s) = false).
    { rewrite <- (Nat.add_0_r (polls s)). apply Hclick. lia. }
    assert (Hg0 : get_result w (gets s) = NO_MSG).
    { rewrite <- (Nat.add_0_r (gets s)). apply Hget. lia. }
    rewrite run_S, (step_transient w s h Hat Hstop Hc0 Hg0).
    cbn [fst snd]. set (s1 := count_get _).
    assert (Hp : polls s1 = S (polls s)) by reflexivity.
    assert (Hg : gets s1 = S (gets s)) by reflexivity.
    destruct (IH s1) as (E1 & E2 & E3 & E4 & E5).
    + exact Hat.
    + subst s1; simpl. rewrite Hstop, Hc0. reflexivity.
    + intros k Hk. rewrite Hp.
      replace (S (polls s) + k)%nat with (polls s + S k)%nat by lia.
      apply Hclick. lia.
    + intros k Hk. rewrite Hg.
      replace (S (gets s) + k)%nat with (gets s + S k)%nat by lia.
      apply Hget. lia.
    + repeat split.
      * rewrite E1. reflexivity.
      * exact E2.
      * exact E3.
      * rewrite E4, Hp. lia.
      * rewrite E5, Hg. lia.
Qed.

(** C4.  In the RECEIVING state, when [queue.get] raises [MQMIError] with
    reason MQRC_NO_MSG_AVAILABLE, the pass consists of that receive and one
    INFO log line: nothing is slept, the session is kept (the loop stands
    at the head of the inner loop with the same queue) and the flag stays
    clear.  This holds for any number [n] of such outcomes in a row, and
    the call that follows them is again a receive on the same queue unless
    shutdown has been requested meanwhile. *)
Theorem transient_empty_retries_without_backoff w s h n :
  at_ s = RECEIVING h ->
  stop_signal s = false ->
  (forall k, (k < n)%nat -> exit_clicked w (polls s + k) = false) ->
  (forall k, (k < n)%nat -> get_result w (gets s + k) = NO_MSG) ->
  let sn := fst (run w n s) in
  let tr := snd (run w n s) in
  tr = concat (repeat [QueueGet h NO_MSG; Log INFO NoMessagesRetrying] n)
  /\ count is_sleep tr = 0%nat
  /\ count is_connect tr = 0%nat
  /\ count is_receive tr = n
  /\ at_ sn = RECEIVING h
  /\ stop_signal sn = false
  /\ hd_error (snd (step w sn))
     = if exit_clicked w (polls sn) then None
       else Some (QueueGet h (get_result w (gets sn))).
Proof.
  intros Hat Hstop Hclick Hget. cbv zeta.
  destruct (run_transient w h n s Hat Hstop Hclick Hget)
    as (E1 & E2 & E3 & _ & _).
  rewrite (step_receiving_head w _ h E2), E3, E1. simpl orb.
  repeat split; auto; clear; induction n as [|n IH]; simpl; auto.
  unfold count in *; simpl. rewrite IH; reflexivity.
Qed.

Lemma transient_empty_retries_without_backoff_witness :
  let w := world_quiet_then_message in
  let s := fst (listen_to_queue w 1) in
  snd (run w 2 s)
  = [ QueueGet 0 NO_MSG; Log INFO NoMessagesRetrying;
      QueueGet 0 NO_MSG; Log INFO NoMessagesRetrying ]
  /\ hd_error (snd (step w (fst (run w 2 s))))
     = Some (QueueGet 0 (Returns (PyBytes [120]))).
Proof.
  cbv zeta.
  assert (Hc : forall k, (k < 2)%nat ->
               exit_clicked world_quiet_then_message
                 (polls (fst (listen_to_queue world_quiet_then_message 1)) + k)
               = false) by reflexivity.
  assert (Hg : forall k, (k < 2)%nat ->
               get_result world_quiet_then_message
                 (gets (fst (listen_to_queue world_quiet_then_message 1)) + k)
               = NO_MSG).
  { intros [|[|k]] Hk; [reflexivity | reflexivity | lia]. }
  destruct (transient_empty_retries_without_backoff world_quiet_then_message
              (fst (listen_to_queue world_quiet_then_message 1)) 0 2
              eq_refl eq_refl Hc Hg) as (H1 & _ & _ & _ & _ & _ & H7).
  split; [exact H1 | exact H7].
Defined.

(** No pass issues a releasing call. *)
Lemma step_no_release w s : count is_release (snd (step w s)) = 0%nat.
Proof. step_cases w s; reflexivity. Qed.

Lemma run_no_release w n : forall s,
  count is_release (snd (run w n s)) = 0%nat.
Proof.
  induction n as [|n IH]; intros s; [reflexivity|].
  rewrite run_S; cbn [snd].
  pose proof (step_no_release w s) as H0. unfold count in *.
  rewrite filter_app, length_app, IH, H0. reflexivity.
Qed.

(** Whatever pass comes next, its queue calls go to the connection made
    last, provided the queue the loop holds in RECEIVING is on it. *)
Lemma run_handles_fresh w n : forall s cur,
  (forall h, at_ s = RECEIVING h -> cur = Some h) ->
  handles_fresh cur (connects s) (snd (run w n s)) = true.
Proof.
  induction n as [|n IH]; intros s cur Hinv; [reflexivity|].
  rewrite run_S; cbn [snd].
  destruct s as [l st p c o g sv]; simpl in Hinv.
  unfold step, is_set; simpl.
  destruct l as [|h| |]; simpl.
  - destruct (st || exit_clicked w p); simpl.
    + apply (IH (mk_state STOPPED true (S p) c o g sv)). discriminate.
    + unfold connect_to_mq; simpl.
      destruct (connect_result w c) as [u|[r|]]; simpl;
        rewrite ?Nat.eqb_refl; simpl.
      * destruct (open_result w o) as [u'|e]; simpl;
          rewrite ?Nat.eqb_refl; simpl.
        -- apply (IH (mk_state (RECEIVING c) false (S p) (S c) (S o) g sv)).
           simpl; congruence.
        -- apply (IH (mk_state BACKOFF false (S p) (S c) (S o) g sv)).
           discriminate.
      * apply (IH (mk_state BACKOFF false (S p) (S c) o g sv)). discriminate.
      * apply (IH (mk_state BACKOFF false (S p) (S c) o g sv)). discriminate.
  - rewrite (Hinv h eq_refl).
    destruct (st || exit_clicked w p); simpl.
    + apply (IH (mk_state BACKOFF true (S p) c o g sv)). discriminate.
    + unfold receive_one, except_inner; simpl.
      destruct (get_result w g) as [v|[r|]]; simpl.
      * destruct (truthy v); simpl.
        -- destruct (save_result w sv) as [u|[r|]]; simpl;
             rewrite ?Nat.eqb_refl; simpl.
           ++ apply (IH (mk_state (RECEIVING h) false (S p) c o (S g) (S sv))).
              simpl; congruence.
           ++ destruct (r =? MQRC_NO_MSG_AVAILABLE); simpl;
                rewrite ?Nat.eqb_refl; simpl;
                [ apply (IH (mk_state (RECEIVING h) false (S p) c o (S g)
                               (S sv)))
                | apply (IH (mk_state BACKOFF false (S p) c o (S g) (S sv))) ];
                simpl; congruence.
           ++ apply (IH (mk_state BACKOFF false (S p) c o (S g) (S sv))).
              discriminate.
        -- rewrite ?Nat.eqb_refl; simpl.
           apply (IH (mk_state (RECEIVING h) true (S p) c o (S g) sv)).
           simpl; congruence.
      * destruct (r =? MQRC_NO_MSG_AVAILABLE); simpl;
          rewrite ?Nat.eqb_refl; simpl;
          [ apply (IH (mk_state (RECEIVING h) false (S p) c o (S g) sv))
          | apply (IH (mk_state BACKOFF false (S p) c o (S g) sv)) ];
          simpl; congruence.
      * rewrite ?Nat.eqb_refl; simpl.
        apply (IH (mk_state BACKOFF false (S p) c o (S g) sv)). discriminate.
  - apply (IH (mk_state DISCONNECTED st p c o g sv)). discriminate.
  - apply (IH (mk_state STOPPED st p c o g sv)). discriminate.
Qed.

(** C8, as stated, fails: both sessions end, one by an error and one by
    shutdown, the loop reconnects in between and then stops, and no close
    or disconnect is ever issued for either. *)
Lemma sessions_end_without_release :
  let r := listen_to_queue world_broken_then_empty 8 in
  at_ (fst r) = STOPPED
  /\ snd r
     = [ Connect 0 (Returns tt); Log INFO Connected; QueueOpen 0 (Returns tt);
         QueueGet 0 (Raises (MQMIError 2009));
         Log ERROR (ErrorReceiving (MQMIError 2009));
         Log INFO RetryingConnection; Sleep 10;
         Connect 1 (Returns tt); Log INFO Connected; QueueOpen 1 (Returns tt);
         QueueGet 1 (Returns PyNone); Log INFO NoMoreMessages; StopSignalSet;
         Log INFO RetryingConnection; Sleep 10 ]
  /\ count is_release (snd r) = 0%nat.
Proof. cbv zeta. repeat split; vm_compute; reflexivity. Qed.

(** C8, amended.  The loop never releases a session itself: in every run
    the number of [queue.close()] and [qmgr.disconnect()] calls is zero,
    whether a session ends by a receive error, an unexpected error or
    shutdown.  What holds is the separation of sessions: connections are
    made one after the other, and every queue open and every receive goes
    to the connection made last, so no handle of an ended session is used
    by a later one. *)
Theorem sessions_are_dropped_not_closed w n :
  let tr := snd (listen_to_queue w n) in
  count is_release tr = 0%nat
  /\ handles_fresh None 0 tr = true.
Proof.
  cbv zeta. unfold listen_to_queue. split.
  - apply run_no_release.
  - apply (run_handles_fresh w n init None). discriminate.
Qed.

(** The function returns only with the flag set. *)
Lemma run_stopped_flag w n : forall s,
  (at_ s = STOPPED -> stop_signal s = true) ->
  at_ (fst (run w n s)) = STOPPED -> stop_signal (fst (run w n s)) = true.
Proof.
  induction n as [|n IH]; intros s Hinv; [exact Hinv|].
  rewrite run_S; cbn [fst]. apply IH.
  destruct s as [l st p c o g sv]; simpl in Hinv.
  unfold step, is_set, receive_one, connect_to_mq, except_inner; simpl.
  destruct l as [|h| |]; simpl; try discriminate; auto.
  - destruct (st || exit_clicked w p) eqn:Hstop; simpl; auto.
    destruct (connect_result w c) as [?|[?|]]; simpl; try discriminate.
    destruct (open_result w o); simpl; discriminate.
  - destruct (st || exit_clicked w p); simpl; try discriminate.
    destruct (get_result w g) as [v|[r|]]; simpl; try discriminate.
    + destruct (truthy v); simpl; try discriminate.
      destruct (save_result w sv) as [?|[r|]]; simpl; try discriminate.
      destruct (r =? MQRC_NO_MSG_AVAILABLE); simpl; discriminate.
    + destruct (r =? MQRC_NO_MSG_AVAILABLE); simpl; discriminate.
Qed.

(** A pass sets the flag only if the tray thread did, or if [queue.get]
    returned a falsy value. *)
Lemma step_sets_flag w s :
  stop_signal (fst (step w s)) = true ->
  stop_signal s = true
  \/ (at_ s <> STOPPED /\ at_ s <> BACKOFF
      /\ exit_clicked w (polls s) = true)
  \/ (exists h v, at_ s = RECEIVING h
                  /\ get_result w (gets s) = Returns v
                  /\ truthy v = false).
Proof.
  destruct s as [l st p c o g sv].
  unfold step, is_set, receive_one, connect_to_mq, except_inner; simpl.
  destruct st; [auto|]. simpl.
  destruct l as [|h| |]; simpl; auto.
  - destruct (exit_clicked w p); simpl.
    + intros _. right; left. repeat split; discriminate.
    + destruct (connect_result w c) as [?|[?|]]; simpl; auto.
      destruct (open_result w o); simpl; auto.
  - destruct (exit_clicked w p); simpl.
    + intros _. right; left. repeat split; discriminate.
    + destruct (get_result w g) as [v|[r|]] eqn:Hg; simpl; auto.
      * destruct (truthy v) eqn:Hv; simpl.
        -- destruct (save_result w sv) as [?|[r|]]; simpl; auto.
           destruct (r =? MQRC_NO_MSG_AVAILABLE); simpl; auto.
        -- intros _. right; right. exists h, v. auto.
      * destruct (r =? MQRC_NO_MSG_AVAILABLE); simpl; auto.
Qed.

(** Failures are logged, and a wait of ten seconds stands between a
    failure and the next connection attempt. *)
Lemma run_logged_then_backoff w n : forall s owed,
  (at_ s = DISCONNECTED \/ (exists h, at_ s = RECEIVING h) -> owed = false) ->
  logged_then_backoff owed false (snd (run w n s)) = true.
Proof.
  induction n as [|n IH]; intros s owed Hinv; [reflexivity|].
  rewrite run_S; cbn [snd].
  destruct s as [l st p c o g sv]; simpl in Hinv.
  unfold step, is_set; simpl.
  destruct l as [|h| |]; simpl.
  - rewrite (Hinv (or_introl eq_refl)).
    destruct (st || exit_clicked w p); simpl.
    + apply IH. simpl. intros [?|[? ?]]; discriminate.
    + unfold connect_to_mq; simpl.
      destruct (connect_result w c) as [u|[r|]]; simpl.
      * destruct (open_result w o) as [u'|e]; simpl;
          apply IH; simpl; auto; intros [?|[? ?]]; discriminate.
      * apply IH; simpl; intros [?|[? ?]]; discriminate.
      * apply IH; simpl; intros [?|[? ?]]; discriminate.
  - rewrite (Hinv (or_intror (ex_intro _ h eq_refl))).
    destruct (st || exit_clicked w p); simpl.
    + apply IH. simpl. intros [?|[? ?]]; discriminate.
    + unfold receive_one, except_inner; simpl.
      destruct (get_result w g) as [v|[r|]]; cbn [app].
      * destruct (truthy v); simpl.
        -- destruct (save_result w sv) as [u|[r|]]; cbn [app].
           ++ apply IH; simpl; auto.
           ++ destruct (r =? MQRC_NO_MSG_AVAILABLE) eqn:Hr; simpl;
                rewrite ?Hr; simpl;
                apply IH; simpl; auto; intros [?|[? ?]]; discriminate.
           ++ apply IH; simpl; intros [?|[? ?]]; discriminate.
        -- apply IH; simpl; auto.
      * destruct (r =? MQRC_NO_MSG_AVAILABLE) eqn:Hr; simpl; rewrite ?Hr; simpl;
          apply IH; simpl; auto; intros [?|[? ?]]; discriminate.
      * apply IH; simpl; intros [?|[? ?]]; discriminate.
  - apply IH; simpl; auto.
  - apply IH; simpl; intros [?|[? ?]]; discriminate.
Qed.

Lemma count_app p a b : count p (a ++ b) = (count p a + count p b)%nat.
Proof. unfold count. rewrite filter_app, length_app. reflexivity. Qed.

(** One failed connection attempt: the failure, its two log lines, the
    retry line and the wait, back at the head of the outer loop. *)
Lemma connect_failure_cycle w s :
  at_ s = DISCONNECTED ->
  stop_signal s = false ->
  exit_clicked w (polls s) = false ->
  raised (connect_result w (connects s)) = true ->
  at_ (fst (step w s)) = BACKOFF
  /\ at_ (fst (run w 2 s)) = DISCONNECTED
  /\ stop_signal (fst (run w 2 s)) = false
  /\ polls (fst (run w 2 s)) = S (polls s)
  /\ connects (fst (run w 2 s)) = S (connects s)
  /\ opens (fst (run w 2 s)) = opens s
  /\ count is_sleep (snd (run w 2 s)) = 1%nat
  /\ count is_connect (snd (run w 2 s)) = 1%nat
  /\ count is_receive (snd (run w 2 s)) = 0%nat
  /\ count is_error_log (snd (run w 2 s)) = 2%nat.
Proof.
  destruct s as [l st p c o g sv]; simpl. intros -> -> Hclick Hfail.
  unfold run, step, is_set, connect_to_mq; simpl. rewrite Hclick; simpl.
  destruct (connect_result w c) as [u|[r|]]; [discriminate| |];
    simpl; repeat split; reflexivity.
Qed.

Lemma run_connect_failures w N : forall s,
  at_ s = DISCONNECTED ->
  stop_signal s = false ->
  (forall k, (k < N)%nat -> exit_clicked w (polls s + k) = false) ->
  (forall k, (k < N)%nat ->
             raised (connect_result w (connects s + k)) = true) ->
  at_ (fst (run w (2 * N) s)) = DISCONNECTED
  /\ stop_signal (fst (run w (2 * N) s)) = false
  /\ polls (fst (run w (2 * N) s)) = (polls s + N)%nat
  /\ connects (fst (run w (2 * N) s)) = (connects s + N)%nat
  /\ opens (fst (run w (2 * N) s)) = opens s
  /\ count is_sleep (snd (run w (2 * N) s)) = N
  /\ count is_connect (snd (run w (2 * N) s)) = N
  /\ count is_receive (snd (run w (2 * N) s)) = 0%nat.
Proof.
  induction N as [|N IH]; intros s Hat Hstop Hclick Hfail.
  - simpl. rewrite !Nat.add_0_r. auto 10.
  - replace (2 * S N)%nat with (2 + 2 * N)%nat by lia.
    rewrite run_add. cbn [fst snd].
    assert (Hc0 : exit_clicked w (polls s) = false).
    { rewrite <- (Nat.add_0_r (polls s)). apply Hclick. lia. }
    assert (Hf0 : raised (connect_result w (connects s)) = true).
    { rewrite <- (Nat.add_0_r (connects s)). apply Hfail. lia. }
    destruct (connect_failure_cycle w s Hat Hstop Hc0 Hf0)
      as (_ & A1 & A2 & A3 & A4 & A5 & A6 & A7 & A8 & _).
    set (s2 := fst (run w 2 s)) in *.
    destruct (IH s2 A1 A2) as (B1 & B2 & B3 & B4 & B5 & B6 & B7 & B8).
    + intros k Hk. rewrite A3.
      replace (S (polls s) + k)%nat with (polls s + S k)%nat by lia.
      apply Hclick. lia.
    + intros k Hk. rewrite A4.
      replace (S (connects s) + k)%nat with (connects s + S k)%nat by lia.
      apply Hfail. lia.
    + rewrite !count_app, A6, A7, A8, B6, B7, B8, B3, B4, B5, A3, A4, A5.
      repeat split; auto; lia.
Qed.

Lemma run_failures_then_connected w N :
  (forall k, (k <= N)%nat -> exit_clicked w k = false) ->
  (forall k, (k < N)%nat -> raised (connect_result w k) = true) ->
  raised (connect_result w N) = false ->
  raised (open_result w 0) = false ->
  at_ (fst (listen_to_queue w (2 * N + 1))) = RECEIVING N
  /\ stop_signal (fst (listen_to_queue w (2 * N + 1))) = false
  /\ count is_sleep (snd (listen_to_queue w (2 * N + 1))) = N
  /\ count is_connect (snd (listen_to_queue w (2 * N + 1))) = S N
  /\ count is_receive (snd (listen_to_queue w (2 * N + 1))) = 0%nat.
Proof.
  intros Hclick Hfail Hok Hopen. unfold listen_to_queue.
  rewrite run_add. cbn [fst snd].
  destruct (run_connect_failures w N init eq_refl eq_refl)
    as (B1 & B2 & B3 & B4 & B5 & B6 & B7 & B8).
  { intros k Hk. apply Hclick. simpl. lia. }
  { intros k Hk. apply Hfail. simpl. lia. }
  rewrite !count_app, B6, B7, B8.
  destruct (fst (run w (2 * N) init)) as [l st p c o g sv].
  simpl in B1, B2, B3, B4, B5. subst l st p c o.
  unfold run, step, is_set, connect_to_mq; simpl.
  rewrite (Hclick N (le_n N)); simpl.
  destruct (connect_result w N) as [u|e]; [|discriminate]. simpl.
  destruct (open_result w 0) as [u'|e]; [|discriminate]. simpl.
  unfold count; simpl. repeat split; auto; lia.
Qed.

Lemma run_failures_locations w N :
  (forall k, (k < N)%nat -> exit_clicked w k = false) ->
  (forall k, (k < N)%nat -> raised (connect_result w k) = true) ->
  forall m, (m <= 2 * N)%nat ->
    at_ (fst (listen_to_queue w m))
    = if Nat.even m then DISCONNECTED else BACKOFF.
Proof.
  intros Hclick Hfail m Hm. unfold listen_to_queue.
  destruct (Nat.Even_or_Odd m) as [[j Hj]|[j Hj]]; subst m.
  - destruct (run_connect_failures w j init eq_refl eq_refl) as (B1 & _).
    { intros k Hk. apply Hclick. simpl. lia. }
    { intros k Hk. apply Hfail. simpl. lia. }
    rewrite B1. replace (Nat.even (2 * j)) with true; [reflexivity|].
    symmetry. apply Nat.even_spec. exists j. reflexivity.
  - rewrite run_add. cbn [fst].
    destruct (run_connect_failures w j init eq_refl eq_refl)
      as (B1 & B2 & B3 & B4 & _).
    { intros k Hk. apply Hclick. simpl. lia. }
    { intros k Hk. apply Hfail. simpl. lia. }
    set (s := fst (run w (2 * j) init)) in *.
    destruct (connect_failure_cycle w s B1 B2) as (A0 & _).
    { rewrite B3. apply Hclick. simpl. lia. }
    { rewrite B4. apply Hfail. simpl. lia. }
    assert (He : Nat.even (2 * j + 1) = false).
    { rewrite Nat.add_1_r, Nat.even_succ. apply Bool.not_true_is_false.
      intros Ho. apply Nat.odd_spec in Ho. destruct Ho as [i Hi]. lia. }
    rewrite He, (run_S w 0 s). cbn [fst run]. exact A0.
Qed.

(** A pass in which a call failed ends before the retry wait, with the
    flag clear and an ERROR line written. *)
Lemma step_failure w s :
  existsb failure (snd (step w s)) = true ->
  at_ (fst (step w s)) = BACKOFF
  /\ stop_signal (fst (step w s)) = false
  /\ existsb is_error_log (snd (step w s)) = true.
Proof.
  step_cases w s;
    repeat match goal with H : (_ =? _) = _ |- _ => rewrite H end;
    simpl; intros H; try discriminate H; repeat split; reflexivity.
Qed.

(** With the flag clear, the outer loop begins by connecting. *)
Lemma step_disconnected_head w s :
  at_ s = DISCONNECTED ->
  stop_signal s = false ->
  exit_clicked w (polls s) = false ->
  exists rest,
    snd (step w s)
    = Connect (connects s) (connect_result w (connects s)) :: rest.
Proof.
  intros Hat Hstop Hclick. unfold step, is_set, connect_to_mq.
  rewrite Hat, Hstop, Hclick. simpl.
  destruct (connect_result w (connects s)) as [u|[c|]]; simpl;
    [destruct (open_result w (opens s)); simpl | |];
    eexists; reflexivity.
Qed.

(** What a failed pass is followed by: the retry wait, then the head of
    the outer loop, then a new connect. *)
Lemma step_failure_recovers w s :
  existsb failure (snd (step w s)) = true ->
  let s1 := fst (step w s) in
  let s2 := fst (step w s1) in
  at_ s1 = BACKOFF /\ stop_signal s1 = false
  /\ existsb is_error_log (snd (step w s)) = true
  /\ snd (step w s1) = [Log INFO RetryingConnection; Sleep 10]
  /\ at_ s2 = DISCONNECTED /\ stop_signal s2 = false
  /\ (exit_clicked w (polls s2) = false ->
      exists rest,
        snd (step w s2)
        = Connect (connects s2) (connect_result w (connects s2)) :: rest).
Proof.
  intros Hf. cbv zeta. destruct (step_failure w s Hf) as (Hat & Hstop & Hlog).
  rewrite (step_backoff w _ Hat). cbn [fst snd].
  split; [exact Hat|]. split; [exact Hstop|]. split; [exact Hlog|].
  split; [reflexivity|]. split; [reflexivity|]. split; [exact Hstop|].
  intros Hclick. apply step_disconnected_head;
    [reflexivity | exact Hstop | exact Hclick].
Qed.

(** A receive that raises anything but "no message available". *)
Lemma step_receive_error w s h e :
  at_ s = RECEIVING h ->
  stop_signal s = false ->
  exit_clicked w (polls s) = false ->
  get_result w (gets s) = Raises e ->
  transient e = false ->
  snd (step w s)
  = [QueueGet h (Raises e);
     Log ERROR (match e with
                | MQMIError _ => ErrorReceiving e
                | OtherError => ListenerError e
                end)]
  /\ existsb failure (snd (step w s)) = true.
Proof.
  intros Hat Hstop Hclick Hget Ht. unfold step, is_set, receive_one.
  rewrite Hat, Hstop, Hclick. simpl. rewrite Hget.
  destruct e as [c|]; simpl in Ht |- *; rewrite ?Ht; simpl; rewrite ?Ht;
    split; reflexivity.
Qed.

(** A connect or a queue open that raises. *)
Lemma step_connect_error w s :
  at_ s = DISCONNECTED ->
  stop_signal s = false ->
  exit_clicked w (polls s) = false ->
  raised (connect_result w (connects s)) = true
  \/ raised (open_result w (opens s)) = true ->
  existsb failure (snd (step w s)) = true.
Proof.
  intros Hat Hstop Hclick Hr. unfold step, is_set, connect_to_mq.
  rewrite Hat, Hstop, Hclick. simpl.
  destruct (connect_result w (connects s)) as [u|[c|]]; simpl;
    try reflexivity.
  destruct Hr as [Hr|Hr]; [discriminate|].
  destruct (open_result w (opens s)); [discriminate | reflexivity].
Qed.

(** C9.  A failure of a cycle never ends the loop, and only the shutdown
    flag does: (1) the function has returned only in states where the flag
    is set; (2) a pass sets the flag only when the tray thread did or when
    [queue.get] returned a falsy value, never on a failure; (3) in every
    run each failed call (connect, queue open, receive error, unexpected
    exception, failed save) is followed at once by an ERROR log line, and
    no connection is attempted after a failure before ten seconds have
    been slept; (4) the retry wait is the log line and [time.sleep(10)];
    (5) if the connection fails [N] times in a row and then succeeds, with
    no shutdown requested, the loop alternates between the head of the
    outer loop and the retry wait, performs exactly [N] sleeps and [N + 1]
    connects and no receive, and then stands in RECEIVING on connection
    [N]; (6) every pass in which a call fails (a connect, a queue open, a
    receive or a save raising anything but "no message available") leaves
    the session: it ends before the retry wait with the flag clear and an
    ERROR line written, the next pass is the retry line and the
    ten-second sleep, and the pass after that, unless shutdown has been
    requested meanwhile, begins with a new [connect_to_mq]; (7) a
    [queue.get] that raises an [MQMIError] other than "no message
    available", or any other exception, is such a pass, made of the
    receive and one ERROR line; (8) so is a connect or a queue open that
    raises. *)
Theorem failures_back_off_and_only_shutdown_stops w :
  (forall n, at_ (fst (listen_to_queue w n)) = STOPPED ->
             stop_signal (fst (listen_to_queue w n)) = true)
  /\ (forall s, stop_signal (fst (step w s)) = true ->
                stop_signal s = true
                \/ (at_ s <> STOPPED /\ at_ s <> BACKOFF
                    /\ exit_clicked w (polls s) = true)
                \/ (exists h v, at_ s = RECEIVING h
                                /\ get_result w (gets s) = Returns v
                                /\ truthy v = false))
  /\ (forall n,
        logged_then_backoff false false (snd (listen_to_queue w n)) = true)
  /\ (forall s, at_ s = BACKOFF ->
                step w s
                = (goto DISCONNECTED s,
                   [Log INFO RetryingConnection; Sleep 10]))
  /\ (forall N,
        (forall k, (k <= N)%nat -> exit_clicked w k = false) ->
        (forall k, (k < N)%nat -> raised (connect_result w k) = true) ->
        raised (connect_result w N) = false ->
        raised (open_result w 0) = false ->
        let r := listen_to_queue w (2 * N + 1) in
        at_ (fst r) = RECEIVING N
        /\ stop_signal (fst r) = false
        /\ count is_sleep (snd r) = N
        /\ count is_connect (snd r) = S N
        /\ count is_receive (snd r) = 0%nat
        /\ forall m, (m <= 2 * N)%nat ->
             at_ (fst (listen_to_queue w m))
             = if Nat.even m then DISCONNECTED else BACKOFF)
  /\ (forall s,
        existsb failure (snd (step w s)) = true ->
        let s1 := fst (step w s) in
        let s2 := fst (step w s1) in
        at_ s1 = BACKOFF /\ stop_signal s1 = false
        /\ existsb is_error_log (snd (step w s)) = true
        /\ snd (step w s1) = [Log INFO RetryingConnection; Sleep 10]
        /\ at_ s2 = DISCONNECTED /\ stop_signal s2 = false
        /\ (exit_clicked w (polls s2) = false ->
            exists rest,
              snd (step w s2)
              = Connect (connects s2) (connect_result w (connects s2))
                :: rest))
  /\ (forall s h e,
        at_ s = RECEIVING h ->
        stop_signal s = false ->
        exit_clicked w (polls s) = false ->
        get_result w (gets s) = Raises e ->
        transient e = false ->
        snd (step w s)
        = [QueueGet h (Raises e);
           Log ERROR (match e with
                      | MQMIError _ => ErrorReceiving e
                      | OtherError => ListenerError e
                      end)]
        /\ existsb failure (snd (step w s)) = true)
  /\ (forall s,
        at_ s = DISCONNECTED ->
        stop_signal s = false ->
        exit_clicked w (polls s) = false ->
        raised (connect_result w (connects s)) = true
        \/ raised (open_result w (opens s)) = true ->
        existsb failure (snd (step w s)) = true).
Proof.
  split; [|split; [|split; [|split; [|split; [|split; [|split]]]]]].
  - intros n. unfold listen_to_queue. apply run_stopped_flag. discriminate.
  - apply step_sets_flag.
  - intros n. unfold listen_to_queue.
    apply run_logged_then_backoff. reflexivity.
  - apply step_backoff.
  - intros N Hclick Hfail Hok Hopen. cbv zeta.
    destruct (run_failures_then_connected w N Hclick Hfail Hok Hopen)
      as (C1 & C2 & C3 & C4 & C5).
    repeat (split; [assumption|]).
    apply run_failures_locations; [|exact Hfail].
    intros k Hk. apply Hclick. lia.
  - apply step_failure_recovers.
  - apply step_receive_error.
  - apply step_connect_error.
Qed.

Lemma failures_back_off_and_only_shutdown_stops_witness :
  let r := listen_to_queue world_down_twice 5 in
  let s := fst (listen_to_queue world_broken_then_empty 1) in
  at_ (fst r) = RECEIVING 2
  /\ count is_sleep (snd r) = 2%nat
  /\ count is_connect (snd r) = 3%nat
  /\ at_ s = RECEIVING 0
  /\ snd (run world_broken_then_empty 3 s)
     = [ QueueGet 0 (Raises (MQMIError 2009));
         Log ERROR (ErrorReceiving (MQMIError 2009));
         Log INFO RetryingConnection; Sleep 10;
         Connect 1 (Returns tt); Log INFO Connected;
         QueueOpen 1 (Returns tt) ]
  /\ at_ (fst (step world_broken_then_empty s)) = BACKOFF
  /\ at_ (fst (run world_broken_then_empty 2 s)) = DISCONNECTED.
Proof.
  destruct (failures_back_off_and_only_shutdown_stops world_down_twice)
    as (_ & _ & _ & _ & H & _).
  specialize (H 2%nat).
  assert (Hc : forall k, (k <= 2)%nat ->
               exit_clicked world_down_twice k = false) by reflexivity.
  assert (Hf : forall k, (k < 2)%nat ->
               raised (connect_result world_down_twice k) = true).
  { intros [|[|k]] Hk; [reflexivity | reflexivity | lia]. }
  destruct (H Hc Hf eq_refl eq_refl) as (H1 & _ & H3 & H4 & _).
  destruct (failures_back_off_and_only_shutdown_stops
              world_broken_then_empty)
    as (_ & _ & _ & _ & _ & R & G & _).
  destruct (G (fst (listen_to_queue world_broken_then_empty 1)) 0%nat
              (MQMIError 2009) eq_refl eq_refl eq_refl eq_refl eq_refl)
    as (_ & F).
  destruct (R (fst (listen_to_queue world_broken_then_empty 1)) F)
    as (B & _ & _ & _ & D & _).
  cbv zeta. split; [exact H1|]. split; [exact H3|]. split; [exact H4|].
  split; [reflexivity|]. split; [reflexivity|].
  split; [exact B | exact D].
Defined.

End ListenerFacts.

(** * Properties of the codec *)

Module Utf8Facts.

Import Utf8.

(** Settles the comparisons a codec step makes, from the ranges known. *)
Ltac decide_tests :=
  repeat match goal with
    | |- context [?a <? ?b] =>
        destruct (Z.ltb_spec a b);
        [ try (exfalso; Z.div_mod_to_equations; lia)
        | try (exfalso; Z.div_mod_to_equations; lia) ]
    | |- context [?a <=? ?b] =>
        destruct (Z.leb_spec a b);
        [ try (exfalso; Z.div_mod_to_equations; lia)
        | try (exfalso; Z.div_mod_to_equations; lia) ]
    | |- context [?a =? ?b] =>
        destruct (Z.eqb_spec a b);
        [ try (exfalso; Z.div_mod_to_equations; lia)
        | try (exfalso; Z.div_mod_to_equations; lia) ]
    end.

Lemma scalar_range c :
  scalar c = true <-> (0 <= c < 0xD800 \/ 0xE000 <= c <= 0x10FFFF).
Proof. unfold scalar. lia. Qed.

(** Decoding what [encode1] wrote gives the character back. *)
Lemma decode_encode1 c rest :
  scalar c = true ->
  decode_ignore (encode1 c ++ rest) = c :: decode_ignore rest.
Proof.
  intros Hc. apply scalar_range in Hc. unfold encode1.
  destruct (Z.ltb_spec c 0x80); [|destruct (Z.ltb_spec c 0x800);
                                   [|destruct (Z.ltb_spec c 0x10000)]].
  - simpl. decide_tests. reflexivity.
  - cbn [app decode_ignore]. unfold is_cont. decide_tests. cbn [andb].
    f_equal. unfold cp2. Z.div_mod_to_equations. lia.
  - cbn [app decode_ignore]. unfold second3, is_cont. decide_tests;
      cbn [andb]; f_equal; unfold cp3; Z.div_mod_to_equations; lia.
  - cbn [app decode_ignore]. unfold second4, is_cont. decide_tests;
      cbn [andb]; f_equal; unfold cp4; Z.div_mod_to_equations; lia.
Qed.

Lemma decode_encode_app s : forall rest,
  forallb scalar s = true ->
  decode_ignore (encode s ++ rest) = s ++ decode_ignore rest.
Proof.
  induction s as [|c s IH]; intros rest Hs; [reflexivity|].
  simpl in Hs. apply andb_prop in Hs. destruct Hs as [Hc Hs].
  unfold encode; simpl. rewrite <- app_assoc.
  rewrite (decode_encode1 c _ Hc). f_equal. apply IH, Hs.
Qed.

(** Well-formed UTF-8 is decoded exactly. *)
Lemma decode_encode s :
  forallb scalar s = true -> decode_ignore (encode s) = s.
Proof.
  intros Hs. rewrite <- (app_nil_r (encode s)).
  rewrite (decode_encode_app s [] Hs). simpl. apply app_nil_r.
Qed.

(** A byte that starts no sequence is skipped. *)
Lemma decode_invalid_start b rest :
  invalid_start b = true -> decode_ignore (b :: rest) = decode_ignore rest.
Proof.
  unfold invalid_start. intros Hb. cbn [decode_ignore].
  decide_tests; try reflexivity; lia.
Qed.

Lemma subseq_nil_l b : subseq [] b.
Proof. induction b; constructor; assumption. Qed.

Lemma subseq_refl a : subseq a a.
Proof. induction a; constructor; assumption. Qed.

Lemma subseq_app p : forall a b, subseq a b -> subseq (p ++ a) (p ++ b).
Proof. induction p; intros; simpl; [|constructor]; auto. Qed.

Lemma subseq_length a b : subseq a b -> (List.length a <= List.length b)%nat.
Proof. induction 1; simpl; lia. Qed.

(** What a step of the decoder accepts, [encode1] writes back. *)
Lemma encode1_cp2 b0 b1 :
  0xC2 <= b0 < 0xE0 -> is_cont b1 = true ->
  encode1 (cp2 b0 b1) = [b0; b1] /\ scalar (cp2 b0 b1) = true.
Proof.
  unfold is_cont, encode1, cp2, scalar. intros H0 H1.
  assert (0x80 <= b1 <= 0xBF) by lia. clear H1.
  split; [|lia].
  decide_tests; repeat f_equal; Z.div_mod_to_equations; lia.
Qed.

Lemma encode1_cp3 b0 b1 b2 :
  0xE0 <= b0 < 0xF0 -> second3 b0 b1 = true -> is_cont b2 = true ->
  encode1 (cp3 b0 b1 b2) = [b0; b1; b2] /\ scalar (cp3 b0 b1 b2) = true.
Proof.
  unfold second3, is_cont, encode1, cp3, scalar. intros H0 H1 H2.
  assert (0x80 <= b2 <= 0xBF) by lia. clear H2.
  assert (0x80 <= b1 <= 0xBF /\ (b0 = 0xE0 -> 0xA0 <= b1)
          /\ (b0 = 0xED -> b1 <= 0x9F)) as (? & ? & ?).
  { destruct (Z.eqb_spec b0 0xE0); [lia|].
    destruct (Z.eqb_spec b0 0xED); lia. }
  clear H1. split; [|lia].
  decide_tests; repeat f_equal; Z.div_mod_to_equations; lia.
Qed.

Lemma encode1_cp4 b0 b1 b2 b3 :
  0xF0 <= b0 < 0xF5 -> second4 b0 b1 = true -> is_cont b2 = true ->
  is_cont b3 = true ->
  encode1 (cp4 b0 b1 b2 b3) = [b0; b1; b2; b3]
  /\ scalar (cp4 b0 b1 b2 b3) = true.
Proof.
  unfold second4, is_cont, encode1, cp4, scalar. intros H0 H1 H2 H3.
  assert (0x80 <= b2 <= 0xBF) by lia. clear H2.
  assert (0x80 <= b3 <= 0xBF) by lia. clear H3.
  assert (0x80 <= b1 <= 0xBF /\ (b0 = 0xF0 -> 0x90 <= b1)
          /\ (b0 = 0xF4 -> b1 <= 0x8F)) as (? & ? & ?).
  { destruct (Z.eqb_spec b0 0xF0); [lia|].
    destruct (Z.eqb_spec b0 0xF4); lia. }
  clear H1. split; [|lia].
  decide_tests; repeat f_equal; Z.div_mod_to_equations; lia.
Qed.

(** The decoder only drops bytes: what it yields is text, and the UTF-8
    of that text is the input with some bytes left out. *)
Lemma decode_only_drops n : forall bs,
  (List.length bs <= n)%nat ->
  (forall b, In b bs -> 0 <= b) ->
  subseq (encode (decode_ignore bs)) bs
  /\ forallb scalar (decode_ignore bs) = true.
Proof.
  induction n as [|n IH]; intros bs Hlen Hpos.
  { destruct bs; [split; [constructor | reflexivity] | simpl in Hlen; lia]. }
  assert (stop : forall r : list Z,
            subseq (encode []) r /\ forallb scalar [] = true).
  { intros r. split; [apply subseq_nil_l | reflexivity]. }
  assert (skip : forall b r r',
            subseq (encode (decode_ignore r)) r'
            /\ forallb scalar (decode_ignore r) = true ->
            subseq (encode (decode_ignore r)) (b :: r')
            /\ forallb scalar (decode_ignore r) = true).
  { intros b r r' [Hs Hv]. split; [constructor|]; assumption. }
  assert (keep : forall c p r,
            encode1 c = p /\ scalar c = true ->
            subseq (encode (decode_ignore r)) r
            /\ forallb scalar (decode_ignore r) = true ->
            subseq (encode (c :: decode_ignore r)) (p ++ r)
            /\ forallb scalar (c :: decode_ignore r) = true).
  { intros c p r [He Hc] [Hs Hv]. unfold encode; simpl.
    rewrite He, Hc, Hv. split; [apply subseq_app; exact Hs | reflexivity]. }
  destruct bs as [|b0 r0]; [apply stop|].
  assert (IH0 := IH r0 ltac:(simpl in Hlen; lia)
                   ltac:(intros; apply Hpos; simpl; auto)).
  cbn [decode_ignore].
  destruct (Z.ltb_spec b0 0x80) as [L1|L1].
  { apply (keep b0 [b0] r0); [|exact IH0].
    assert (0 <= b0) by (apply Hpos; simpl; auto).
    unfold encode1, scalar. split; [|lia]. decide_tests. reflexivity. }
  destruct (Z.ltb_spec b0 0xC2) as [L2|L2]; [apply skip, IH0|].
  destruct r0 as [|b1 r1];
    [destruct (b0 <? 0xE0), (b0 <? 0xF0), (b0 <? 0xF5);
     apply stop || apply skip, stop|].
  assert (IH1 := IH r1 ltac:(simpl in Hlen; lia)
                   ltac:(intros; apply Hpos; simpl; auto)).
  destruct (Z.ltb_spec b0 0xE0) as [L3|L3].
  { destruct (is_cont b1) eqn:C1; [|apply skip, IH0].
    apply (keep _ [b0; b1] r1); [apply encode1_cp2; auto; lia | exact IH1]. }
  destruct (Z.ltb_spec b0 0xF0) as [L4|L4].
  { destruct (second3 b0 b1) eqn:C1; [|apply skip, IH0].
    destruct r1 as [|b2 r2]; [apply stop|].
    destruct (is_cont b2) eqn:C2; [|apply skip, skip, IH1].
    apply (keep _ [b0; b1; b2] r2); [apply encode1_cp3; auto; lia|].
    apply IH; [simpl in Hlen; lia | intros; apply Hpos; simpl; auto]. }
  destruct (Z.ltb_spec b0 0xF5) as [L5|L5]; [|apply skip, IH0].
  destruct (second4 b0 b1) eqn:C1; [|apply skip, IH0].
  destruct r1 as [|b2 r2]; [apply stop|].
  destruct (is_cont b2) eqn:C2; [|apply skip, skip, IH1].
  destruct r2 as [|b3 r3]; [apply stop|].
  assert (IH2 := IH (b3 :: r3) ltac:(simpl in Hlen |- *; lia)
                   ltac:(intros; apply Hpos; simpl in *; tauto)).
  destruct (is_cont b3) eqn:C3; [|apply skip, skip, skip, IH2].
  apply (keep _ [b0; b1; b2; b3] r3); [apply encode1_cp4; auto; lia|].
  apply IH; [simpl in Hlen; lia | intros; apply Hpos; simpl; auto].
Qed.

(** An ill-formed byte between two well-formed texts vanishes. *)
Lemma decode_drops_invalid_between s1 x s2 :
  forallb scalar s1 = true -> forallb scalar s2 = true ->
  invalid_start x = true ->
  decode_ignore (encode s1 ++ x :: encode s2) = s1 ++ s2.
Proof.
  intros H1 H2 Hx.
  rewrite (decode_encode_app s1 _ H1), (decode_invalid_start x _ Hx).
  rewrite (decode_encode s2 H2). reflexivity.
Qed.

End Utf8Facts.

(** * The decoding step of the loop *)

Module DecodeFacts.

Import Listener Utf8 Utf8Facts.

(** C10.  When [queue.get] returns a non-empty byte string, whatever its
    bytes, the loop logs the receipt and calls [save_message] with the
    bytes decoded as UTF-8, errors ignored: no byte string is rejected and
    decoding raises nothing (it is a total function).  The decoded text
    consists of Unicode scalar values only, its UTF-8 encoding is the
    received bytes with some bytes left out (nothing is replaced or
    added), well-formed UTF-8 decodes exactly, and a byte that can start
    no sequence disappears between two well-formed parts. *)
Theorem undecodable_bytes_are_dropped_not_rejected w s h b :
  at_ s = RECEIVING h ->
  stop_signal s = false ->
  exit_clicked w (polls s) = false ->
  get_result w (gets s) = Returns (PyBytes b) ->
  truthy (PyBytes b) = true ->
  forallb octet b = true ->
  (exists rest,
      snd (step w s)
      = QueueGet h (Returns (PyBytes b)) :: Log INFO ReceivedMessage
        :: SaveMessage (decode_ignore b) (save_result w (saves s)) :: rest)
  /\ forallb scalar (decode_ignore b) = true
  /\ subseq (encode (decode_ignore b)) b
  /\ (forall t, forallb scalar t = true -> decode_ignore (encode t) = t)
  /\ (forall s1 x s2,
        forallb scalar s1 = true -> forallb scalar s2 = true ->
        invalid_start x = true ->
        decode_ignore (encode s1 ++ x :: encode s2) = s1 ++ s2).
Proof.
  intros Hat Hstop Hclick Hget Htruthy Hoct.
  split; [|split; [|split; [|split]]].
  - unfold step, is_set. rewrite Hat, Hstop, Hclick. simpl.
    unfold receive_one; simpl. rewrite Hget, Htruthy. simpl.
    destruct (save_result w (saves s)) as [u|e].
    + eexists; reflexivity.
    + destruct (except_inner _ e) as [s' evs]. eexists; reflexivity.
  - apply (decode_only_drops (List.length b) b (le_n _)).
    intros x Hx. rewrite forallb_forall in Hoct.
    specialize (Hoct x Hx). unfold octet in Hoct. lia.
  - apply (decode_only_drops (List.length b) b (le_n _)).
    intros x Hx. rewrite forallb_forall in Hoct.
    specialize (Hoct x Hx). unfold octet in Hoct. lia.
  - apply decode_encode.
  - apply decode_drops_invalid_between.
Qed.

Lemma undecodable_bytes_are_dropped_not_rejected_witness :
  let w := world_bad_byte in
  let s := fst (listen_to_queue w 1) in
  exists rest,
    snd (step w s)
    = QueueGet 0 (Returns (PyBytes [0xC3; 0xA9; 0xFF]))
      :: Log INFO ReceivedMessage
      :: SaveMessage [0xE9] (Returns tt) :: rest.
Proof.
  cbv zeta.
  destruct (undecodable_bytes_are_dropped_not_rejected world_bad_byte
              (fst (listen_to_queue world_bad_byte 1)) 0 [0xC3; 0xA9; 0xFF]
              eq_refl eq_refl eq_refl eq_refl eq_refl eq_refl)
    as ([rest Hrest] & _).
  exists rest. exact Hrest.
Defined.

End DecodeFacts.

(** * Properties of html.unescape *)

Module HtmlFacts.

Import Clean.
Import Html.

Lemma span_upto_split p : forall n s a b,
  span_upto n p s = (a, b) -> s = a ++ b /\ forallb p a = true.
Proof.
  induction n as [|n IH]; intros s a b H.
  - simpl in H. injection H as <- <-. split; reflexivity.
  - destruct s as [|c s']; simpl in H.
    + injection H as <- <-. split; reflexivity.
    + destruct (p c) eqn:Hp.
      * destruct (span_upto n p s') as [a' b'] eqn:E.
        injection H as <- <-. destruct (IH _ _ _ E) as [-> Hall].
        split; [reflexivity | simpl; rewrite Hp; exact Hall].
      * injection H as <- <-. split; reflexivity.
Qed.

(** A greedy run takes at least every leading character of the class. *)
Lemma span_upto_prefix p : forall ds n rest a b,
  forallb p ds = true -> (List.length ds <= n)%nat ->
  span_upto n p (ds ++ rest) = (a, b) -> exists a', a = ds ++ a'.
Proof.
  induction ds as [|d ds IH]; intros n rest a b Hds Hn H.
  - exists a. reflexivity.
  - destruct n as [|n]; [simpl in Hn; lia|].
    simpl in Hds. apply andb_prop in Hds. destruct Hds as [Hd Hds].
    simpl in H. rewrite Hd in H.
    destruct (span_upto n p (ds ++ rest)) as [a0 b0] eqn:E.
    injection H as <- <-.
    destruct (IH n rest a0 b0 Hds ltac:(simpl in Hn; lia) E) as [a' ->].
    exists a'. reflexivity.
Qed.

Lemma span_stop p s :
  (forall c, hd_error s = Some c -> p c = false) -> span p s = ([], s).
Proof.
  destruct s as [|c s']; intros H; [reflexivity|].
  unfold span. simpl. rewrite (H c eq_refl). reflexivity.
Qed.

Lemma opt_semi_split s a b :
  opt_semi s = (a, b) -> s = a ++ b /\ (a = [] \/ a = [SEMI]).
Proof.
  destruct s as [|c s']; simpl; intros H.
  - injection H as <- <-. auto.
  - destruct (Z.eqb_spec c SEMI) as [->|_]; injection H as <- <-; auto.
Qed.

Lemma digit_no_semi c : is_digit c = true -> (SEMI =? c) = false.
Proof. unfold is_digit, between, SEMI. lia. Qed.

Lemma digit_no_x c : is_digit c = true -> is_x c = false.
Proof. unfold is_digit, between, is_x. lia. Qed.

(** [rstrip(';')] takes the optional semicolon off a run of digits. *)
Lemma rstrip_semi_digits ds semi :
  forallb is_digit ds = true -> semi = [] \/ semi = [SEMI] ->
  rstrip_semi (ds ++ semi) = ds.
Proof.
  intros Hds Hsemi.
  assert (Hstop : span (Z.eqb SEMI) (rev ds) = ([], rev ds)).
  { apply span_stop. intros c Hc. apply digit_no_semi.
    rewrite forallb_forall in Hds. apply Hds, in_rev.
    destruct (rev ds); [discriminate|]. injection Hc as ->. left.
    reflexivity. }
  unfold rstrip_semi. destruct Hsemi as [->| ->].
  - rewrite app_nil_r, Hstop. apply rev_involutive.
  - rewrite rev_unit. unfold span in *. cbn [List.length span_upto].
    rewrite Z.eqb_refl, Hstop. apply rev_involutive.
Qed.

Lemma int10_none lim s :
  int10 lim s = None
  <-> (640 < List.length s)%nat /\ lim <> 0%nat /\ (lim < List.length s)%nat.
Proof.
  unfold int10.
  destruct (Nat.ltb_spec 640 (List.length s));
    destruct (Nat.eqb_spec lim 0);
    destruct (Nat.ltb_spec lim (List.length s)); simpl;
    split; try discriminate; try reflexivity; intros; lia.
Qed.

(** What [_replace_charref] does with a decimal reference. *)
Lemma replace_decimal html5 lim ds semi :
  ds <> [] -> forallb is_digit ds = true -> semi = [] \/ semi = [SEMI] ->
  replace_charref html5 lim (HASH :: ds ++ semi)
  = option_map numeric_charref (int10 lim ds).
Proof.
  intros Hne Hds Hsemi. unfold replace_charref.
  rewrite Z.eqb_refl. destruct ds as [|d ds']; [congruence|].
  assert (Hd : is_digit d = true).
  { pose proof Hds as H. simpl in H. apply andb_prop in H. apply H. }
  cbn [app]. rewrite (digit_no_x d Hd).
  change (d :: ds' ++ semi) with ((d :: ds') ++ semi).
  rewrite (rstrip_semi_digits (d :: ds') semi Hds Hsemi). reflexivity.
Qed.

(** The three forms of a match of [_charref]. *)
Lemma match_charref_shape s g r :
  match_charref s = Some (g, r) ->
  s = g ++ r
  /\ ((exists ds semi,
         g = HASH :: ds ++ semi /\ ds <> [] /\ forallb is_digit ds = true
         /\ (semi = [] \/ semi = [SEMI]))
      \/ (exists x hs semi,
            g = HASH :: x :: hs ++ semi /\ is_x x = true
            /\ forallb is_hexdigit hs = true
            /\ (semi = [] \/ semi = [SEMI]))
      \/ (exists c nm semi,
            g = c :: nm ++ semi /\ (c =? HASH) = false
            /\ forallb is_name_char (c :: nm) = true
            /\ (semi = [] \/ semi = [SEMI]))).
Proof.
  unfold match_charref. destruct s as [|c t]; [discriminate|].
  destruct (Z.eqb_spec c HASH) as [->|Hc].
  - destruct (span is_digit t) as [ds r0] eqn:Es.
    destruct ds as [|d ds'].
    + destruct t as [|x t']; [discriminate|].
      destruct (is_x x) eqn:Hx; [|discriminate].
      destruct (span is_hexdigit t') as [hs r1] eqn:Eh.
      destruct hs as [|h hs']; [discriminate|].
      destruct (opt_semi r1) as [semi r'] eqn:Eo.
      intros H. injection H as <- <-.
      apply span_upto_split in Eh. destruct Eh as [-> Hall].
      apply opt_semi_split in Eo. destruct Eo as [-> Hsemi].
      split; [cbn [app]; rewrite <- !app_assoc; reflexivity|].
      right. left. exists x, (h :: hs'), semi. auto.
    + destruct (opt_semi r0) as [semi r'] eqn:Eo.
      intros H. injection H as <- <-.
      apply span_upto_split in Es. destruct Es as [-> Hall].
      apply opt_semi_split in Eo. destruct Eo as [-> Hsemi].
      split; [cbn [app]; rewrite <- !app_assoc; reflexivity|].
      left. exists (d :: ds'), semi. repeat split; auto. discriminate.
  - destruct (span_upto 32 is_name_char (c :: t)) as [nm r0] eqn:En.
    destruct nm as [|c' nm']; [discriminate|].
    destruct (opt_semi r0) as [semi r'] eqn:Eo.
    intros H. injection H as <- <-.
    apply span_upto_split in En. destruct En as [E Hall].
    apply opt_semi_split in Eo. destruct Eo as [-> Hsemi].
    cbn [app] in E. injection E as <- ->.
    split; [cbn [app]; rewrite <- !app_assoc; reflexivity|].
    right. right. exists c, nm', semi. repeat split; auto.
    apply Z.eqb_neq, Hc.
Qed.

(** No match of [_charref] reaches over an ampersand. *)
Lemma match_charref_no_amp s g r :
  match_charref s = Some (g, r) -> contains AMP g = false.
Proof.
  intros H. apply match_charref_shape in H. destruct H as [_ H].
  assert (Hsemi : forall semi, semi = [] \/ semi = [SEMI] ->
                               contains AMP semi = false).
  { intros semi [->| ->]; reflexivity. }
  assert (Hrun : forall p l,
             (forall c, p c = true -> (AMP =? c) = false) ->
             forallb p l = true -> contains AMP l = false).
  { intros p l Hp Hl. unfold contains. induction l as [|a l IH];
      [reflexivity|]. simpl in *. apply andb_prop in Hl.
    destruct Hl as [Ha Hl]. rewrite (Hp a Ha), (IH Hl). reflexivity. }
  unfold contains in *.
  destruct H as [(ds & semi & -> & _ & Hds & Hs)
                |[(x & hs & semi & -> & Hx & Hhs & Hs)
                 |(c & nm & semi & -> & Hc & Hnm & Hs)]].
  - cbn [existsb]. rewrite existsb_app, (Hsemi semi Hs).
    rewrite (Hrun is_digit ds); [reflexivity | | exact Hds].
    intros c. unfold is_digit, between, AMP. lia.
  - cbn [existsb]. rewrite existsb_app, (Hsemi semi Hs).
    rewrite (Hrun is_hexdigit hs); [| | exact Hhs].
    + unfold is_x, AMP in *. replace (38 =? x) with false by lia.
      reflexivity.
    + intros c. unfold is_hexdigit, is_digit, between, AMP. lia.
  - change (c :: nm ++ semi) with ((c :: nm) ++ semi).
    rewrite existsb_app, (Hsemi semi Hs).
    rewrite (Hrun is_name_char (c :: nm)); [reflexivity | | exact Hnm].
    intros a. unfold is_name_char, AMP. cbn [existsb]. lia.
Qed.

Lemma app_split_no_amp tail : forall g r pre,
  g ++ r = pre ++ AMP :: tail -> contains AMP g = false ->
  exists pre', pre = g ++ pre' /\ r = pre' ++ AMP :: tail.
Proof.
  induction g as [|a g IH]; intros r pre H Hg.
  - exists pre. split; [reflexivity | exact H].
  - unfold contains in Hg. cbn [existsb] in Hg.
    apply orb_false_iff in Hg. destruct Hg as [Ha Hg].
    destruct pre as [|b pre]; cbn [app] in H; injection H as -> H.
    + rewrite Z.eqb_refl in Ha. discriminate.
    + destruct (IH r pre H Hg) as (pre' & -> & ->).
      exists pre'. split; reflexivity.
Qed.

(** Only a long decimal reference makes a replacement raise. *)
Lemma replace_charref_none html5 lim s g r :
  match_charref s = Some (g, r) ->
  replace_charref html5 lim g = None ->
  exists ds semi,
    g = HASH :: ds ++ semi /\ forallb is_digit ds = true
    /\ int10 lim ds = None.
Proof.
  intros Hm Hr. apply match_charref_shape in Hm. destruct Hm as [_ Hm].
  destruct Hm as [(ds & semi & -> & Hne & Hds & Hs)
                 |[(x & hs & semi & -> & Hx & Hhs & Hs)
                  |(c & nm & semi & -> & Hc & Hnm & Hs)]].
  - rewrite (replace_decimal html5 lim ds semi Hne Hds Hs) in Hr.
    exists ds, semi. split; [reflexivity|]. split; [exact Hds|].
    destruct (int10 lim ds); [discriminate | reflexivity].
  - unfold replace_charref, int16 in Hr. rewrite Z.eqb_refl, Hx in Hr.
    discriminate.
  - unfold replace_charref in Hr. rewrite Hc in Hr.
    destruct (html5 _); [discriminate|].
    destruct (longest_name _ _ _); discriminate.
Qed.

(** A long decimal reference right after the ampersand is matched, and its
    replacement raises. *)
Lemma long_decimal_raises html5 lim ds rest :
  forallb is_digit ds = true -> int10 lim ds = None ->
  exists g r,
    match_charref (HASH :: ds ++ rest) = Some (g, r)
    /\ replace_charref html5 lim g = None.
Proof.
  intros Hds Hover. apply int10_none in Hover.
  destruct Hover as (H640 & Hlim & Hlen).
  unfold match_charref. rewrite Z.eqb_refl.
  destruct (span is_digit (ds ++ rest)) as [D r0] eqn:Es.
  pose proof Es as Ep. unfold span in Ep.
  apply (span_upto_prefix is_digit ds _ rest D r0 Hds) in Ep;
    [|rewrite length_app; lia].
  destruct Ep as [a' HD'].
  apply span_upto_split in Es. destruct Es as [_ HD].
  assert (HlenD : (List.length ds <= List.length D)%nat)
    by (rewrite HD', length_app; lia).
  clear HD'. destruct D as [|d D']; [simpl in HlenD; lia|].
  destruct (opt_semi r0) as [semi r'] eqn:Eo.
  apply opt_semi_split in Eo. destruct Eo as [_ Hsemi].
  eexists _, _. split; [reflexivity|].
  change (HASH :: d :: D' ++ semi) with (HASH :: (d :: D') ++ semi).
  rewrite (replace_decimal html5 lim (d :: D') semi);
    [| discriminate | exact HD | exact Hsemi].
  assert (Hn : int10 lim (d :: D') = None) by (apply int10_none; lia).
  rewrite Hn. reflexivity.
Qed.

Lemma charref_sub_none_inv html5 lim : forall fuel s,
  charref_sub html5 lim fuel s = None -> long_reference lim s.
Proof.
  induction fuel as [|fuel IH]; intros s H; [discriminate|].
  destruct s as [|c t]; [discriminate|]. cbn [charref_sub] in H.
  assert (Hcons : option_map (cons c) (charref_sub html5 lim fuel t) = None
                  -> long_reference lim (c :: t)).
  { intros Hc. destruct (charref_sub html5 lim fuel t) eqn:E;
      [discriminate|].
    destruct (IH t E) as (pre & ds & rest & -> & Hd).
    exists (c :: pre), ds, rest. split; [reflexivity | exact Hd]. }
  destruct (Z.eqb_spec c AMP) as [->|_]; [|exact (Hcons H)].
  destruct (match_charref t) as [[g r]|] eqn:Em; [|exact (Hcons H)].
  pose proof (match_charref_shape t g r Em) as [Et _].
  destruct (replace_charref html5 lim g) as [v|] eqn:Er.
  - destruct (charref_sub html5 lim fuel r) eqn:E; [discriminate|].
    destruct (IH r E) as (pre & ds & rest & -> & Hd).
    exists (AMP :: g ++ pre), ds, rest. split; [|exact Hd].
    rewrite Et. cbn [app]. rewrite <- app_assoc. reflexivity.
  - destruct (replace_charref_none html5 lim t g r Em Er)
      as (ds & semi & -> & Hds & Hover).
    apply int10_none in Hover.
    exists [], ds, (semi ++ r). split; [|split; [exact Hds | exact Hover]].
    rewrite Et. cbn [app]. rewrite <- app_assoc. reflexivity.
Qed.

Lemma charref_sub_none html5 lim ds rest :
  forallb is_digit ds = true -> int10 lim ds = None ->
  forall fuel pre,
    (List.length (pre ++ AMP :: HASH :: ds ++ rest) <= fuel)%nat ->
    charref_sub html5 lim fuel (pre ++ AMP :: HASH :: ds ++ rest) = None.
Proof.
  intros Hds Hover. induction fuel as [|fuel IH]; intros pre Hlen.
  { rewrite length_app in Hlen. simpl in Hlen. lia. }
  destruct pre as [|c pre].
  - cbn [app charref_sub]. rewrite Z.eqb_refl.
    destruct (long_decimal_raises html5 lim ds rest Hds Hover)
      as (g & r & -> & ->). reflexivity.
  - cbn [app charref_sub]. cbn [app List.length] in Hlen.
    assert (Hcons : option_map (cons c)
                      (charref_sub html5 lim fuel
                         (pre ++ AMP :: HASH :: ds ++ rest)) = None).
    { rewrite IH; [reflexivity | lia]. }
    destruct (c =? AMP); [|exact Hcons].
    destruct (match_charref _) as [[g r]|] eqn:Em; [|exact Hcons].
    destruct (replace_charref html5 lim g); [|reflexivity].
    pose proof (match_charref_shape _ g r Em) as [Et _].
    destruct (app_split_no_amp _ g r pre (eq_sym Et)
                (match_charref_no_amp _ g r Em)) as (pre' & -> & ->).
    rewrite IH; [reflexivity|].
    rewrite !length_app in *. lia.
Qed.

(** [html.unescape] raises exactly on a long decimal reference. *)
Lemma unescape_none_iff html5 lim s :
  unescape html5 lim s = None <-> long_reference lim s.
Proof.
  split.
  - unfold unescape. destruct (negb _); [discriminate|].
    apply charref_sub_none_inv.
  - intros (pre & ds & rest & -> & Hds & Hover).
    apply int10_none in Hover. unfold unescape.
    change (str "&#" ++ ds ++ rest) with (AMP :: HASH :: ds ++ rest).
    assert (Hc : contains AMP (pre ++ AMP :: HASH :: ds ++ rest) = true).
    { unfold contains. rewrite existsb_app. cbn [existsb].
      rewrite Z.eqb_refl. apply orb_true_r. }
    rewrite Hc. cbn [negb].
    apply (charref_sub_none html5 lim ds rest Hds Hover). apply le_n.
Qed.

Lemma long_reference_length lim s :
  long_reference lim s ->
  (640 < List.length s)%nat /\ lim <> 0%nat /\ (lim < List.length s)%nat.
Proof.
  intros (pre & ds & rest & -> & _ & H640 & Hlim & Hlen).
  rewrite !length_app. lia.
Qed.

(** *** The decoding equations *)

Lemma span_upto_stop p : forall a n b,
  forallb p a = true -> (List.length a <= n)%nat ->
  (forall c, hd_error b = Some c -> p c = false) ->
  span_upto n p (a ++ b) = (a, b).
Proof.
  induction a as [|x a IH]; intros n b Ha Hn Hb.
  - destruct n as [|n]; [reflexivity|]. destruct b as [|c b]; [reflexivity|].
    cbn [app span_upto]. rewrite (Hb c eq_refl). reflexivity.
  - destruct n as [|n]; [simpl in Hn; lia|].
    cbn [forallb] in Ha. apply andb_prop in Ha. destruct Ha as [Hx Ha].
    cbn [app span_upto]. rewrite Hx.
    rewrite (IH n b Ha ltac:(simpl in Hn; lia) Hb). reflexivity.
Qed.

Lemma semi_stops p rest :
  p SEMI = false ->
  forall c, hd_error (SEMI :: rest) = Some c -> p c = false.
Proof. intros H c E. injection E as <-. exact H. Qed.

(** [rstrip(';')] takes the optional semicolon off a run without one. *)
Lemma rstrip_semi_run p ds :
  (forall c, p c = true -> (SEMI =? c) = false) ->
  forallb p ds = true -> rstrip_semi (ds ++ [SEMI]) = ds.
Proof.
  intros Hp Hds.
  assert (Hstop : span (Z.eqb SEMI) (rev ds) = ([], rev ds)).
  { apply span_stop. intros c Hc. apply Hp.
    rewrite forallb_forall in Hds. apply Hds, in_rev.
    destruct (rev ds); [discriminate|]. injection Hc as ->. left.
    reflexivity. }
  unfold rstrip_semi. rewrite rev_unit. unfold span in *.
  cbn [List.length span_upto]. rewrite Z.eqb_refl, Hstop.
  apply rev_involutive.
Qed.

Lemma match_named nm rest :
  nm <> [] -> forallb is_name_char nm = true -> (List.length nm <= 32)%nat ->
  match_charref (nm ++ SEMI :: rest) = Some (nm ++ [SEMI], rest).
Proof.
  intros Hne Hnm Hlen. destruct nm as [|c nm']; [contradiction|].
  assert (Hc : (c =? HASH) = false).
  { cbn [forallb] in Hnm. apply andb_prop in Hnm. destruct Hnm as [Hc _].
    unfold is_name_char in Hc. cbn [existsb] in Hc. unfold HASH. lia. }
  unfold match_charref. cbn [app]. rewrite Hc.
  change (c :: nm' ++ SEMI :: rest) with ((c :: nm') ++ SEMI :: rest).
  rewrite (span_upto_stop is_name_char (c :: nm') 32 (SEMI :: rest) Hnm Hlen
             (semi_stops _ rest eq_refl)).
  cbn [opt_semi]. rewrite Z.eqb_refl. reflexivity.
Qed.

Lemma match_decimal ds rest :
  ds <> [] -> forallb is_digit ds = true ->
  match_charref (HASH :: ds ++ SEMI :: rest)
  = Some (HASH :: ds ++ [SEMI], rest).
Proof.
  intros Hne Hds. unfold match_charref. rewrite Z.eqb_refl. unfold span.
  assert (Hlen : (List.length ds <= List.length (ds ++ SEMI :: rest))%nat)
    by (rewrite length_app; lia).
  rewrite (span_upto_stop is_digit ds _ (SEMI :: rest) Hds Hlen
             (semi_stops _ rest eq_refl)).
  destruct ds as [|d ds']; [contradiction|].
  cbn [opt_semi]. rewrite Z.eqb_refl. reflexivity.
Qed.

Lemma match_hex x hs rest :
  is_x x = true -> hs <> [] -> forallb is_hexdigit hs = true ->
  match_charref (HASH :: x :: hs ++ SEMI :: rest)
  = Some (HASH :: x :: hs ++ [SEMI], rest).
Proof.
  intros Hx Hne Hhs. unfold match_charref. rewrite Z.eqb_refl.
  assert (Hd : is_digit x = false).
  { unfold is_x, is_digit, between in *. lia. }
  rewrite (span_stop is_digit (x :: hs ++ SEMI :: rest));
    [|intros c Hc; injection Hc as <-; exact Hd].
  rewrite Hx. unfold span.
  assert (Hlen : (List.length hs <= List.length (hs ++ SEMI :: rest))%nat)
    by (rewrite length_app; lia).
  rewrite (span_upto_stop is_hexdigit hs _ (SEMI :: rest) Hhs Hlen
             (semi_stops _ rest eq_refl)).
  destruct hs as [|h hs']; [contradiction|].
  cbn [opt_semi]. rewrite Z.eqb_refl. reflexivity.
Qed.

Lemma replace_named html5 lim nm v :
  nm <> [] -> forallb is_name_char nm = true ->
  html5 (nm ++ [SEMI]) = Some v ->
  replace_charref html5 lim (nm ++ [SEMI]) = Some v.
Proof.
  intros Hne Hnm Hv. destruct nm as [|c nm']; [contradiction|].
  assert (Hc : (c =? HASH) = false).
  { cbn [forallb] in Hnm. apply andb_prop in Hnm. destruct Hnm as [Hc _].
    unfold is_name_char in Hc. cbn [existsb] in Hc. unfold HASH. lia. }
  unfold replace_charref. cbn [app] in *. rewrite Hc, Hv. reflexivity.
Qed.

Lemma replace_hex html5 lim x hs :
  is_x x = true -> forallb is_hexdigit hs = true ->
  replace_charref html5 lim (HASH :: x :: hs ++ [SEMI])
  = Some (numeric_charref (int_of 16 hs)).
Proof.
  intros Hx Hhs. unfold replace_charref, int16.
  rewrite Z.eqb_refl, Hx.
  rewrite (rstrip_semi_run is_hexdigit hs); [reflexivity | | exact Hhs].
  intros c. unfold is_hexdigit, is_digit, between, SEMI. lia.
Qed.

Lemma ends_reference_head p semi rest :
  p SEMI = false -> ends_reference p semi rest ->
  (semi = [] \/ semi = [SEMI])
  /\ (forall c, hd_error (semi ++ rest) = Some c -> p c = false)
  /\ opt_semi (semi ++ rest) = (semi, rest).
Proof.
  intros Hp [->|[-> H]].
  - split; [right; reflexivity|]. split.
    + intros c E. injection E as <-. exact Hp.
    + cbn [app opt_semi]. rewrite Z.eqb_refl. reflexivity.
  - split; [left; reflexivity|]. split.
    + intros c E. apply (H c E).
    + cbn [app]. destruct rest as [|c rest']; [reflexivity|].
      cbn [opt_semi]. destruct (H c eq_refl) as [_ Hc].
      destruct (Z.eqb_spec c SEMI); [contradiction | reflexivity].
Qed.

Lemma rstrip_semi_any p ds semi :
  (forall c, p c = true -> (SEMI =? c) = false) ->
  forallb p ds = true -> semi = [] \/ semi = [SEMI] ->
  rstrip_semi (ds ++ semi) = ds.
Proof.
  intros Hp Hds [->| ->]; [|apply (rstrip_semi_run p ds Hp Hds)].
  rewrite app_nil_r. unfold rstrip_semi. rewrite span_stop.
  - apply rev_involutive.
  - intros c Hc. apply Hp. rewrite forallb_forall in Hds.
    apply Hds, in_rev. destruct (rev ds); [discriminate|].
    injection Hc as ->. left. reflexivity.
Qed.

Lemma match_decimal_any ds semi rest :
  ds <> [] -> forallb is_digit ds = true ->
  ends_reference is_digit semi rest ->
  match_charref (HASH :: ds ++ semi ++ rest) = Some (HASH :: ds ++ semi, rest).
Proof.
  intros Hne Hds He.
  destruct (ends_reference_head is_digit semi rest eq_refl He)
    as (_ & Hhead & Hsemi).
  unfold match_charref. rewrite Z.eqb_refl. unfold span.
  assert (Hlen : (List.length ds <= List.length (ds ++ semi ++ rest))%nat)
    by (rewrite length_app; lia).
  rewrite (span_upto_stop is_digit ds _ (semi ++ rest) Hds Hlen Hhead).
  destruct ds as [|d ds']; [contradiction|]. rewrite Hsemi. reflexivity.
Qed.

Lemma match_hex_any x hs semi rest :
  is_x x = true -> hs <> [] -> forallb is_hexdigit hs = true ->
  ends_reference is_hexdigit semi rest ->
  match_charref (HASH :: x :: hs ++ semi ++ rest)
  = Some (HASH :: x :: hs ++ semi, rest).
Proof.
  intros Hx Hne Hhs He.
  destruct (ends_reference_head is_hexdigit semi rest eq_refl He)
    as (_ & Hhead & Hsemi).
  unfold match_charref. rewrite Z.eqb_refl.
  assert (Hd : is_digit x = false).
  { unfold is_x, is_digit, between in *. lia. }
  rewrite (span_stop is_digit (x :: hs ++ semi ++ rest));
    [|intros c Hc; injection Hc as <-; exact Hd].
  rewrite Hx. unfold span.
  assert (Hlen : (List.length hs <= List.length (hs ++ semi ++ rest))%nat)
    by (rewrite length_app; lia).
  rewrite (span_upto_stop is_hexdigit hs _ (semi ++ rest) Hhs Hlen Hhead).
  destruct hs as [|h hs']; [contradiction|]. rewrite Hsemi. reflexivity.
Qed.

Lemma name_char_no_hash c : is_name_char c = true -> (c =? HASH) = false.
Proof. unfold is_name_char, HASH. cbn [existsb]. lia. Qed.

Lemma match_named_any nm semi rest :
  nm <> [] -> forallb is_name_char nm = true -> (List.length nm <= 32)%nat ->
  ends_reference is_name_char semi rest ->
  match_charref (nm ++ semi ++ rest) = Some (nm ++ semi, rest).
Proof.
  intros Hne Hnm Hlen He.
  destruct (ends_reference_head is_name_char semi rest eq_refl He)
    as (_ & Hhead & Hsemi).
  destruct nm as [|c nm']; [contradiction|].
  assert (Hc : (c =? HASH) = false).
  { cbn [forallb] in Hnm. apply andb_prop in Hnm.
    apply name_char_no_hash, Hnm. }
  unfold match_charref. cbn [app]. rewrite Hc.
  change (c :: nm' ++ semi ++ rest) with ((c :: nm') ++ semi ++ rest).
  rewrite (span_upto_stop is_name_char (c :: nm') 32 (semi ++ rest) Hnm Hlen
             Hhead).
  rewrite Hsemi. reflexivity.
Qed.

Lemma replace_named_any html5 lim nm semi :
  nm <> [] -> forallb is_name_char nm = true ->
  replace_charref html5 lim (nm ++ semi)
  = Some (named_replacement html5 (nm ++ semi)).
Proof.
  intros Hne Hnm. destruct nm as [|c nm']; [contradiction|].
  assert (Hc : (c =? HASH) = false).
  { cbn [forallb] in Hnm. apply andb_prop in Hnm.
    apply name_char_no_hash, Hnm. }
  unfold replace_charref, named_replacement. cbn [app]. rewrite Hc.
  destruct (html5 _); [reflexivity|].
  destruct (longest_name _ _ _); reflexivity.
Qed.

Lemma replace_hex_any html5 lim x hs semi :
  is_x x = true -> forallb is_hexdigit hs = true ->
  semi = [] \/ semi = [SEMI] ->
  replace_charref html5 lim (HASH :: x :: hs ++ semi)
  = Some (numeric_charref (int_of 16 hs)).
Proof.
  intros Hx Hhs Hsemi. unfold replace_charref, int16.
  rewrite Z.eqb_refl, Hx.
  rewrite (rstrip_semi_any is_hexdigit hs semi); [reflexivity | | exact Hhs
                                                  | exact Hsemi].
  intros c. unfold is_hexdigit, is_digit, between, SEMI. lia.
Qed.

(** The longest prefix the table holds, looked for from the longest
    down to two characters. *)
Lemma longest_name_none html5 g : forall x0,
  longest_name html5 x0 g = None
  <-> forall x, (2 <= x <= x0)%nat -> html5 (firstn x g) = None.
Proof.
  induction x0 as [|x0 IH].
  - split; [intros _ x Hx; lia | reflexivity].
  - destruct x0 as [|x1].
    + split; [intros _ x Hx; lia | reflexivity].
    + cbn [longest_name]. destruct (html5 (firstn (S (S x1)) g)) eqn:E.
      * split; [discriminate|]. intros H.
        rewrite (H (S (S x1))) in E by lia. discriminate.
      * rewrite IH. split; intros H x Hx.
        -- destruct (Nat.eq_dec x (S (S x1))) as [->|]; [exact E|].
           apply H. lia.
        -- apply H. lia.
Qed.

Lemma longest_name_some html5 g : forall x0 r,
  longest_name html5 x0 g = Some r ->
  exists x v,
    (2 <= x <= x0)%nat /\ html5 (firstn x g) = Some v
    /\ r = v ++ skipn x g
    /\ forall x', (x < x' <= x0)%nat -> html5 (firstn x' g) = None.
Proof.
  induction x0 as [|x0 IH]; intros r H; [discriminate|].
  destruct x0 as [|x1]; [discriminate|].
  cbn [longest_name] in H.
  destruct (html5 (firstn (S (S x1)) g)) as [v0|] eqn:E.
  - injection H as <-. exists (S (S x1)), v0.
    split; [lia|]. split; [exact E|]. split; [reflexivity|].
    intros x' Hx'. lia.
  - destruct (IH r H) as (x & v & Hx & Hv & Hr & Hmax).
    exists x, v. split; [lia|]. split; [exact Hv|]. split; [exact Hr|].
    intros x' Hx'. destruct (Nat.eq_dec x' (S (S x1))) as [->|];
      [exact E | apply Hmax; lia].
Qed.

(** Text without an ampersand is left as it is. *)
Lemma charref_sub_no_amp html5 lim : forall fuel s,
  contains AMP s = false -> charref_sub html5 lim fuel s = Some s.
Proof.
  induction fuel as [|fuel IH]; intros s H; [reflexivity|].
  destruct s as [|c t]; [reflexivity|].
  unfold contains in H. cbn [existsb] in H. apply orb_false_iff in H.
  destruct H as [Hc Ht]. cbn [charref_sub].
  rewrite Z.eqb_sym, Hc, (IH t Ht). reflexivity.
Qed.

(** The scan does not depend on fuel beyond the length of the text. *)
Lemma charref_sub_fuel html5 lim : forall f1 f2 s,
  (List.length s <= f1)%nat -> (List.length s <= f2)%nat ->
  charref_sub html5 lim f1 s = charref_sub html5 lim f2 s.
Proof.
  induction f1 as [|f1 IH]; intros f2 s H1 H2.
  - destruct s; [|simpl in H1; lia]. destruct f2; reflexivity.
  - destruct s as [|c t]; [destruct f2; reflexivity|].
    destruct f2 as [|f2]; [simpl in H2; lia|].
    cbn [List.length] in H1, H2. cbn [charref_sub].
    rewrite (IH f2 t) by lia.
    destruct (c =? AMP); [|reflexivity].
    destruct (match_charref t) as [[g r]|] eqn:Em; [|reflexivity].
    destruct (replace_charref html5 lim g); [|reflexivity].
    pose proof (match_charref_shape t g r Em) as [Et _].
    apply (f_equal (@List.length Z)) in Et. rewrite length_app in Et.
    rewrite (IH f2 r) by lia. reflexivity.
Qed.

Lemma unescape_charref_sub html5 lim fuel s :
  (List.length s <= fuel)%nat ->
  charref_sub html5 lim fuel s = unescape html5 lim s.
Proof.
  intros H. unfold unescape. destruct (contains AMP s) eqn:E; cbn [negb].
  - apply charref_sub_fuel; [exact H | apply le_n].
  - apply charref_sub_no_amp, E.
Qed.

(** A character that is no ampersand is copied. *)
Lemma unescape_other html5 lim c s :
  c <> AMP ->
  unescape html5 lim (c :: s) = option_map (cons c) (unescape html5 lim s).
Proof.
  intros Hc. rewrite <- (unescape_charref_sub html5 lim _ (c :: s) (le_n _)).
  cbn [List.length charref_sub].
  destruct (Z.eqb_spec c AMP); [contradiction|].
  rewrite (unescape_charref_sub html5 lim _ s (le_n _)). reflexivity.
Qed.

(** A reference is replaced, and decoding goes on behind it. *)
Lemma unescape_reference html5 lim t g r :
  match_charref t = Some (g, r) ->
  unescape html5 lim (AMP :: t)
  = match replace_charref html5 lim g with
    | Some v => option_map (app v) (unescape html5 lim r)
    | None => None
    end.
Proof.
  intros Em. rewrite <- (unescape_charref_sub html5 lim _ (AMP :: t) (le_n _)).
  cbn [List.length charref_sub]. rewrite Z.eqb_refl, Em.
  destruct (replace_charref html5 lim g); [|reflexivity].
  pose proof (match_charref_shape t g r Em) as [Et _].
  apply (f_equal (@List.length Z)) in Et. rewrite length_app in Et.
  rewrite (unescape_charref_sub html5 lim _ r) by lia. reflexivity.
Qed.

Lemma unescape_named html5 lim nm v rest :
  nm <> [] -> forallb is_name_char nm = true -> (List.length nm <= 32)%nat ->
  html5 (nm ++ [SEMI]) = Some v ->
  unescape html5 lim (AMP :: nm ++ SEMI :: rest)
  = option_map (app v) (unescape html5 lim rest).
Proof.
  intros Hne Hnm Hlen Hv.
  rewrite (unescape_reference html5 lim _ _ _ (match_named nm rest Hne Hnm
                                                  Hlen)).
  rewrite (replace_named html5 lim nm v Hne Hnm Hv). reflexivity.
Qed.

Lemma unescape_decimal html5 lim ds rest :
  ds <> [] -> forallb is_digit ds = true ->
  unescape html5 lim (AMP :: HASH :: ds ++ SEMI :: rest)
  = match int10 lim ds with
    | Some n => option_map (app (numeric_charref n)) (unescape html5 lim rest)
    | None => None
    end.
Proof.
  intros Hne Hds.
  rewrite (unescape_reference html5 lim _ _ _ (match_decimal ds rest Hne
                                                  Hds)).
  rewrite (replace_decimal html5 lim ds [SEMI] Hne Hds (or_intror eq_refl)).
  destruct (int10 lim ds); reflexivity.
Qed.

Lemma unescape_hex html5 lim x hs rest :
  is_x x = true -> hs <> [] -> forallb is_hexdigit hs = true ->
  unescape html5 lim (AMP :: HASH :: x :: hs ++ SEMI :: rest)
  = option_map (app (numeric_charref (int_of 16 hs)))
      (unescape html5 lim rest).
Proof.
  intros Hx Hne Hhs.
  rewrite (unescape_reference html5 lim _ _ _ (match_hex x hs rest Hx Hne
                                                  Hhs)).
  rewrite (replace_hex html5 lim x hs Hx Hhs). reflexivity.
Qed.

Lemma unescape_named_any html5 lim nm semi rest :
  nm <> [] -> forallb is_name_char nm = true -> (List.length nm <= 32)%nat ->
  ends_reference is_name_char semi rest ->
  unescape html5 lim (AMP :: nm ++ semi ++ rest)
  = option_map (app (named_replacement html5 (nm ++ semi)))
      (unescape html5 lim rest).
Proof.
  intros Hne Hnm Hlen He.
  rewrite (unescape_reference html5 lim _ _ _
             (match_named_any nm semi rest Hne Hnm Hlen He)).
  rewrite (replace_named_any html5 lim nm semi Hne Hnm). reflexivity.
Qed.

Lemma unescape_decimal_any html5 lim ds semi rest :
  ds <> [] -> forallb is_digit ds = true ->
  ends_reference is_digit semi rest ->
  unescape html5 lim (AMP :: HASH :: ds ++ semi ++ rest)
  = match int10 lim ds with
    | Some n => option_map (app (numeric_charref n)) (unescape html5 lim rest)
    | None => None
    end.
Proof.
  intros Hne Hds He.
  destruct (ends_reference_head is_digit semi rest eq_refl He)
    as (Hsemi & _).
  rewrite (unescape_reference html5 lim _ _ _
             (match_decimal_any ds semi rest Hne Hds He)).
  rewrite (replace_decimal html5 lim ds semi Hne Hds Hsemi).
  destruct (int10 lim ds); reflexivity.
Qed.

Lemma unescape_hex_any html5 lim x hs semi rest :
  is_x x = true -> hs <> [] -> forallb is_hexdigit hs = true ->
  ends_reference is_hexdigit semi rest ->
  unescape html5 lim (AMP :: HASH :: x :: hs ++ semi ++ rest)
  = option_map (app (numeric_charref (int_of 16 hs)))
      (unescape html5 lim rest).
Proof.
  intros Hx Hne Hhs He.
  destruct (ends_reference_head is_hexdigit semi rest eq_refl He)
    as (Hsemi & _).
  rewrite (unescape_reference html5 lim _ _ _
             (match_hex_any x hs semi rest Hx Hne Hhs He)).
  rewrite (replace_hex_any html5 lim x hs semi Hx Hhs Hsemi). reflexivity.
Qed.

(** An ampersand that begins no reference is copied. *)
Lemma unescape_bare_amp html5 lim rest :
  (forall c, hd_error rest = Some c ->
             is_name_char c = false /\ c <> HASH) ->
  unescape html5 lim (AMP :: rest)
  = option_map (cons AMP) (unescape html5 lim rest).
Proof.
  intros H.
  assert (Em : match_charref rest = None).
  { destruct rest as [|c t]; [reflexivity|].
    destruct (H c eq_refl) as [Hn Hh]. unfold match_charref.
    destruct (Z.eqb_spec c HASH); [contradiction|].
    cbn [span_upto]. rewrite Hn. reflexivity. }
  rewrite <- (unescape_charref_sub html5 lim _ (AMP :: rest) (le_n _)).
  cbn [List.length charref_sub]. rewrite Z.eqb_refl, Em.
  rewrite (unescape_charref_sub html5 lim _ rest (le_n _)). reflexivity.
Qed.

(** A number that names an ordinary character stands for it. *)
Lemma numeric_charref_ordinary n :
  0x20 <= n <= 0x7E \/ 0xA0 <= n <= 0xD7FF \/ 0xE000 <= n <= 0xFDCF ->
  numeric_charref n = [n].
Proof.
  intros H. unfold numeric_charref, invalid_charrefs. cbn [assoc].
  repeat match goal with
         | |- context [n =? ?k] => destruct (Z.eqb_spec n k); [lia|]
         end.
  unfold between, invalid_codepoint, between.
  destruct ((0xD800 <=? n) && (n <=? 0xDFFF) || (0x10FFFF <? n)) eqn:E1;
    [lia|].
  match goal with
  | |- (if ?b then _ else _) = _ => destruct b eqn:E2; [|reflexivity]
  end.
  exfalso. Z.div_mod_to_equations. lia.
Qed.

End HtmlFacts.

(** * Properties of the sanitizer *)

Module SanitizerFacts.

Import Sanitizer Clean.

Lemma in_ctrl_class_spec c : in_ctrl_class c = spec_stripped c.
Proof. unfold in_ctrl_class, spec_stripped. lia. Qed.

Lemma re_sub_class_spec x :
  re_sub_class in_ctrl_class x = filter (fun c => negb (spec_stripped c)) x.
Proof.
  unfold re_sub_class. apply filter_ext. intros c.
  rewrite in_ctrl_class_spec. reflexivity.
Qed.

Lemma occurrences_cons sub c s :
  occurrences sub (c :: s)
  = (if startswith sub (c :: s) then [0%nat] else [])
    ++ map S (occurrences sub s).
Proof.
  unfold occurrences.
  change (List.length (c :: s)) with (S (List.length s)).
  change (seq 0 (S (S (List.length s))))
    with (0%nat :: seq 1 (S (List.length s))).
  cbn [filter skipn].
  assert (E : forall l,
             filter (fun i => startswith sub (skipn i (c :: s))) (map S l)
             = map S (filter (fun i => startswith sub (skipn i s)) l)).
  { induction l as [|i l IH]; [reflexivity|]. cbn [map filter skipn].
    rewrite IH. destruct (startswith sub (skipn i s)); reflexivity. }
  rewrite <- seq_shift, E.
  destruct (startswith sub (c :: s)); reflexivity.
Qed.

(** [find] returns the first occurrence, and [-1] when there is none. *)
Lemma find_first_occurrence sub s :
  find sub s
  = match occurrences sub s with
    | i :: _ => Z.of_nat i
    | [] => -1
    end.
Proof.
  induction s as [|c s IH].
  - unfold occurrences; simpl. destruct (startswith sub []); reflexivity.
  - rewrite occurrences_cons. cbn [find].
    destruct (startswith sub (c :: s)); [reflexivity|].
    rewrite IH. cbn [app].
    destruct (occurrences sub s) as [|i l]; [reflexivity|].
    cbn [map]. destruct (Z.eqb_spec (Z.of_nat i) (-1)); lia.
Qed.

Lemma clean_message_spec x :
  clean_message x
  = spec_header_strip (filter (fun c => negb (spec_stripped c)) x).
Proof.
  unfold clean_message, spec_header_strip. rewrite re_sub_class_spec.
  set (y := filter _ x).
  destruct (startswith RFH y); [|reflexivity].
  rewrite find_first_occurrence.
  destruct (occurrences XML_PROLOG y) as [|i l]; [reflexivity|].
  destruct (Z.eqb_spec (Z.of_nat i) (-1)); [lia|].
  cbn [negb]. unfold slice_from. rewrite Nat2Z.id. reflexivity.
Qed.

Lemma filter_id {A} (p : A -> bool) l :
  (forall a, In a l -> p a = true) -> filter p l = l.
Proof.
  induction l as [|a l IH]; intros H; [reflexivity|]. simpl.
  rewrite (H a (or_introl eq_refl)). f_equal. apply IH.
  intros b Hb. apply H. right. exact Hb.
Qed.

Lemma in_skipn {A} (a : A) n : forall l, In a (skipn n l) -> In a l.
Proof.
  induction n as [|n IH]; intros l H; [exact H|].
  destruct l as [|b l]; [exact H|]. right. apply IH. exact H.
Qed.

(** Stripping is idempotent, also on a suffix of a stripped text. *)
Lemma strip_suffix_stripped cls i x :
  re_sub_class cls (skipn i (re_sub_class cls x))
  = skipn i (re_sub_class cls x).
Proof.
  unfold re_sub_class. apply filter_id. intros c Hc.
  apply in_skipn in Hc. apply filter_In in Hc. apply Hc.
Qed.

Lemma strip_stripped cls x :
  re_sub_class cls (re_sub_class cls x) = re_sub_class cls x.
Proof. apply (strip_suffix_stripped cls 0 x). Qed.

(** Where [find] points, the text that was sought begins. *)
Lemma find_startswith sub s :
  find sub s <> -1 -> startswith sub (slice_from (find sub s) s) = true.
Proof.
  rewrite find_first_occurrence. unfold slice_from.
  destruct (occurrences sub s) as [|i l] eqn:E; [congruence|]. intros _.
  rewrite Nat2Z.id.
  assert (Hi : In i (occurrences sub s)) by (rewrite E; left; reflexivity).
  unfold occurrences in Hi. apply filter_In in Hi. apply Hi.
Qed.

Lemma contains_false c s :
  contains c s = false <-> forall a, In a s -> a <> c.
Proof.
  unfold contains. induction s as [|b s IH]; simpl.
  - split; [intros _ a []|reflexivity].
  - rewrite orb_false_iff, IH. split.
    + intros [Hb Hs] a [<-|Ha]; [|apply Hs, Ha].
      intros Heq. subst c. rewrite Z.eqb_refl in Hb. discriminate.
    + intros H. split; [|intros a Ha; apply H; right; exact Ha].
      apply Z.eqb_neq. intros Heq. exact (H b (or_introl eq_refl) (eq_sym Heq)).
Qed.

Lemma contains_clean_message c x :
  contains c x = false -> contains c (clean_message x) = false.
Proof.
  rewrite !contains_false. intros H a Ha. apply H.
  unfold clean_message in Ha.
  assert (Hf : forall i, In a (skipn i (re_sub_class in_ctrl_class x)) ->
                         In a x).
  { intros i Hi. apply in_skipn in Hi. apply filter_In in Hi. apply Hi. }
  destruct (startswith RFH _); [|apply (Hf 0%nat Ha)].
  destruct (negb _); [apply (Hf _ Ha) | apply (Hf 0%nat Ha)].
Qed.

(** The two strip steps together are idempotent. *)
Lemma clean_message_idempotent x :
  clean_message (clean_message x) = clean_message x.
Proof.
  set (y := re_sub_class in_ctrl_class x).
  assert (Hs : re_sub_class in_ctrl_class y = y) by apply strip_stripped.
  assert (Hx : clean_message x
               = if startswith RFH y then
                   if negb (find XML_PROLOG y =? -1)
                   then slice_from (find XML_PROLOG y) y else y
                 else y) by reflexivity.
  assert (Hy : clean_message y
               = if startswith RFH y then
                   if negb (find XML_PROLOG y =? -1)
                   then slice_from (find XML_PROLOG y) y else y
                 else y).
  { unfold clean_message. rewrite Hs. reflexivity. }
  rewrite Hx. clear Hx. revert Hy.
  destruct (startswith RFH y) eqn:Hrfh; [|trivial].
  destruct (Z.eqb_spec (find XML_PROLOG y) (-1)) as [E|E]; [trivial|].
  intros _. pose proof (find_startswith XML_PROLOG y E) as Hp.
  cbn [negb]. set (z := slice_from (find XML_PROLOG y) y) in *.
  assert (Hz : re_sub_class in_ctrl_class z = z)
    by apply strip_suffix_stripped.
  assert (Hno : startswith RFH z = false).
  { destruct z as [|c z']; [discriminate|].
    change (startswith XML_PROLOG (c :: z'))
      with ((60 =? c) && startswith (str "?xml") z') in Hp.
    apply andb_prop in Hp. destruct Hp as [Hc _].
    apply Z.eqb_eq in Hc. subst c. reflexivity. }
  unfold clean_message. rewrite Hz, Hno. reflexivity.
Qed.

(** Behind a prefix without [<], the marker is found where the prefix
    ends. *)
Lemma find_after_prefix pre rest :
  contains 60 pre = false ->
  startswith XML_PROLOG rest = true ->
  find XML_PROLOG (pre ++ rest) = Z.of_nat (List.length pre).
Proof.
  intros Hpre Hrest. induction pre as [|c pre IH].
  - simpl app. destruct rest as [|r rest']; [discriminate|].
    cbn [find]. rewrite Hrest. reflexivity.
  - unfold contains in Hpre, IH. cbn [existsb] in Hpre.
    apply orb_false_iff in Hpre. destruct Hpre as [Hc Hpre].
    cbn [app find]. change (startswith XML_PROLOG (c :: pre ++ rest))
      with ((60 =? c) && startswith (str "?xml") (pre ++ rest)).
    rewrite Hc. cbn [andb]. rewrite (IH Hpre).
    destruct (Z.eqb_spec (Z.of_nat (List.length pre)) (-1)); [lia|].
    cbn [List.length]. lia.
Qed.

Lemma header_is_stripped h :
  contains 60 h = false ->
  clean_message (RFH ++ h ++ example_payload) = example_payload.
Proof.
  intros Hh. unfold clean_message, re_sub_class.
  rewrite !filter_app.
  change (filter (fun c => negb (in_ctrl_class c)) RFH) with RFH.
  change (filter (fun c => negb (in_ctrl_class c)) example_payload)
    with example_payload.
  set (h' := filter _ h).
  assert (Hh' : contains 60 (RFH ++ h') = false).
  { apply contains_false. intros a Ha. apply in_app_or in Ha.
    destruct Ha as [Ha|Ha].
    - simpl in Ha. intuition lia.
    - apply filter_In in Ha. destruct Ha as [Ha _].
      rewrite contains_false in Hh. apply Hh, Ha. }
  change (startswith RFH (RFH ++ h' ++ example_payload)) with true.
  cbv iota. rewrite app_assoc.
  rewrite (find_after_prefix (RFH ++ h') example_payload Hh' eq_refl).
  destruct (Z.eqb_spec (Z.of_nat (List.length (RFH ++ h'))) (-1)); [lia|].
  cbn [negb]. unfold slice_from. rewrite Nat2Z.id.
  rewrite skipn_app, skipn_all, Nat.sub_diag. reflexivity.
Qed.

Lemma int10_without_limit s : Html.int10 0 s = Some (Html.int_of 10 s).
Proof.
  unfold Html.int10. destruct (640 <? List.length s)%nat; reflexivity.
Qed.

(** Without the digit limit [html.unescape] raises nothing. *)
Lemma charref_sub_total html5 fuel : forall s,
  exists r, Html.charref_sub html5 0 fuel s = Some r.
Proof.
  induction fuel as [|fuel IH]; intros s; [exists s; reflexivity|].
  destruct s as [|c t]; [exists []; reflexivity|]. cbn [Html.charref_sub].
  assert (Hcons : exists r,
             option_map (cons c) (Html.charref_sub html5 0 fuel t) = Some r).
  { destruct (IH t) as [r Hr]. rewrite Hr. eexists; reflexivity. }
  destruct (c =? Html.AMP); [|exact Hcons].
  destruct (Html.match_charref t) as [[g r]|]; [|exact Hcons].
  assert (Hg : exists v, Html.replace_charref html5 0 g = Some v).
  { unfold Html.replace_charref, Html.int16.
    destruct g as [|a g']; [eexists; reflexivity|].
    destruct (a =? Html.HASH).
    - destruct g' as [|x h]; [eexists; reflexivity|].
      rewrite int10_without_limit.
      destruct (Html.is_x x); eexists; reflexivity.
    - destruct (html5 (a :: g')); [eexists; reflexivity|].
      destruct (Html.longest_name html5 _ _); eexists; reflexivity. }
  destruct Hg as [v Hv]. rewrite Hv.
  destruct (IH r) as [r' Hr']. rewrite Hr'. eexists; reflexivity.
Qed.

Lemma sanitize_total_without_limit html5 x :
  exists r, sanitize html5 0 x = Some r.
Proof.
  unfold sanitize, Html.unescape.
  destruct (negb _); [eexists; reflexivity | apply charref_sub_total].
Qed.

(** Text without an ampersand passes [html.unescape] unchanged. *)
Lemma unescape_without_amp html5 lim s :
  contains Html.AMP s = false -> Html.unescape html5 lim s = Some s.
Proof. intros H. unfold Html.unescape. rewrite H. reflexivity. Qed.


Lemma named_replacement_known html5 g v :
  html5 g = Some v -> named_replacement html5 g = v.
Proof. intros H. unfold named_replacement. rewrite H. reflexivity. Qed.

Lemma named_replacement_unknown html5 g :
  html5 g = None ->
  (forall x, (2 <= x <= List.length g - 1)%nat ->
             html5 (firstn x g) = None) ->
  named_replacement html5 g = Html.AMP :: g.
Proof.
  intros H0 H. unfold named_replacement. rewrite H0.
  apply HtmlFacts.longest_name_none in H. rewrite H. reflexivity.
Qed.

Lemma named_replacement_prefix html5 g x v :
  html5 g = None ->
  (2 <= x <= List.length g - 1)%nat ->
  html5 (firstn x g) = Some v ->
  (forall x', (x < x' <= List.length g - 1)%nat ->
              html5 (firstn x' g) = None) ->
  named_replacement html5 g = v ++ skipn x g.
Proof.
  intros H0 Hx Hv Hmax. unfold named_replacement. rewrite H0.
  destruct (Html.longest_name html5 (List.length g - 1) g) as [r|] eqn:E.
  - destruct (HtmlFacts.longest_name_some html5 g _ r E)
      as (x1 & v1 & Hx1 & Hv1 & -> & Hmax1).
    destruct (Nat.lt_trichotomy x1 x) as [L|[->|L]].
    + rewrite (Hmax1 x) in Hv by lia. discriminate.
    + rewrite Hv in Hv1. injection Hv1 as <-. reflexivity.
    + rewrite (Hmax x1) in Hv1 by lia. discriminate.
  - rewrite (proj1 (HtmlFacts.longest_name_none html5 g _) E x Hx) in Hv.
    discriminate.
Qed.



(** C6, as stated, fails: each pass of the sanitizer decodes one level of
    character references, so a reference to an ampersand that is followed
    by the rest of a reference changes again on the second pass.  The
    example reads no named reference and no long number: it holds whatever
    the table and the digit limit are.  Decoding can also produce a header
    that the next pass strips. *)
Lemma sanitize_not_idempotent :
  exists x1 x2,
    x1 = str "&#38;#38;" /\ x2 = str "&#82;FH<?xml"
    /\ forall html5 lim,
         sanitize html5 lim x1 = Some (str "&#38;")
         /\ sanitize_twice html5 lim x1 = Some (str "&")
         /\ sanitize html5 lim x2 = Some (str "RFH<?xml")
         /\ sanitize_twice html5 lim x2 = Some (str "<?xml").
Proof.
  exists (str "&#38;#38;"), (str "&#82;FH<?xml").
  split; [reflexivity|]. split; [reflexivity|].
  intros html5 lim. repeat split; vm_compute; reflexivity.
Qed.

(** C6, amended.  The two strip steps (control characters, header) are
    idempotent on every input, and the whole sanitizer is idempotent on
    every input that contains no ampersand, where entity decoding changes
    nothing: there [sanitize] is [clean_message], and a second pass
    returns what the first did. *)
Theorem sanitize_idempotent_without_references html5 lim x :
  clean_message (clean_message x) = clean_message x
  /\ (contains Html.AMP x = false ->
      sanitize html5 lim x = Some (clean_message x)
      /\ sanitize_twice html5 lim x = sanitize html5 lim x).
Proof.
  split; [apply clean_message_idempotent|]. intros Hx.
  assert (H1 : sanitize html5 lim x = Some (clean_message x)).
  { apply unescape_without_amp, contains_clean_message, Hx. }
  split; [exact H1|]. unfold sanitize_twice. rewrite H1. unfold sanitize.
  rewrite clean_message_idempotent. exact H1.
Qed.

Lemma sanitize_idempotent_without_references_witness :
  let x := RFH ++ [0; 1] ++ str "junk" ++ example_payload in
  sanitize (fun _ => None) 4300 x = Some example_payload
  /\ sanitize_twice (fun _ => None) 4300 x = sanitize (fun _ => None) 4300 x.
Proof.
  cbv zeta.
  destruct (sanitize_idempotent_without_references (fun _ => None) 4300
              (RFH ++ [0; 1] ++ str "junk" ++ example_payload))
    as (_ & H).
  destruct (H eq_refl) as (H1 & H2).
  split; [|exact H2]. rewrite H1. vm_compute. reflexivity.
Defined.

End SanitizerFacts.

(** * Properties of the written document *)

Module WriterFacts.

Import Writer XmlRead.

Lemma flat_map_flat_map {A B C} (f : A -> list B) (g : B -> list C) l :
  flat_map g (flat_map f l) = flat_map (fun a => flat_map g (f a)) l.
Proof.
  induction l as [|a l IH]; [reflexivity|]. simpl.
  rewrite flat_map_app, IH. reflexivity.
Qed.

Lemma replace1_absent old new s :
  contains old s = false -> replace1 old new s = s.
Proof.
  unfold contains, replace1. induction s as [|c s IH]; [reflexivity|].
  cbn [existsb flat_map]. intros H. apply orb_false_iff in H.
  destruct H as [Hc Hs]. rewrite Z.eqb_sym, Hc, (IH Hs). reflexivity.
Qed.

(** The three replacements of [_escape_cdata] amount to escaping each
    character on its own. *)
Lemma escape_cdata_flat_map text :
  escape_cdata text = flat_map escape1 text.
Proof.
  unfold escape_cdata.
  assert (R : forall old new s,
             (if contains old s then replace1 old new s else s)
             = replace1 old new s).
  { intros old new s. destruct (contains old s) eqn:E; [reflexivity|].
    symmetry. apply replace1_absent, E. }
  rewrite !R. unfold replace1. rewrite !flat_map_flat_map.
  apply flat_map_ext. intros c. unfold escape1.
  destruct (Z.eqb_spec c 38) as [->|]; [reflexivity|].
  destruct (Z.eqb_spec c 60) as [->|]; [reflexivity|].
  destruct (Z.eqb_spec c 62) as [->|]; [reflexivity|].
  cbn [flat_map app].
  destruct (Z.eqb_spec c 60); [contradiction|]. cbn [flat_map app].
  destruct (Z.eqb_spec c 62); [contradiction|]. reflexivity.
Qed.

(** Reading escaped text up to the next tag gives the text back. *)
Lemma chardata_escape txt r :
  forallb xml_char txt = true ->
  chardata None (escape_cdata txt ++ 60 :: r) = Some (txt, 60 :: r).
Proof.
  rewrite escape_cdata_flat_map. induction txt as [|c txt IH]; intros H.
  - reflexivity.
  - cbn [forallb] in H. apply andb_prop in H. destruct H as [Hc H].
    specialize (IH H). cbn [flat_map]. rewrite <- app_assoc.
    remember (flat_map escape1 txt ++ 60 :: r) as tail eqn:Et.
    unfold escape1.
    destruct (Z.eqb_spec c 38) as [->|N1]; [cbn; rewrite IH; reflexivity|].
    destruct (Z.eqb_spec c 60) as [->|N2]; [cbn; rewrite IH; reflexivity|].
    destruct (Z.eqb_spec c 62) as [->|N3]; [cbn; rewrite IH; reflexivity|].
    cbn [app chardata].
    destruct (Z.eqb_spec c 60); [contradiction|].
    destruct (Z.eqb_spec c 38); [contradiction|].
    rewrite Hc, IH. reflexivity.
Qed.

Lemma tag_name_app tag r :
  forallb tag_char tag = true -> tag_name (tag ++ 62 :: r) = (tag, 62 :: r).
Proof.
  induction tag as [|c tag IH]; intros H; [reflexivity|].
  cbn [forallb] in H. apply andb_prop in H. destruct H as [Hc H].
  cbn [app tag_name]. rewrite (IH H).
  unfold tag_char in Hc.
  destruct ((c =? 62) || (c =? 32) || (c =? 47)) eqn:E; [lia|reflexivity].
Qed.

Lemma startswith_app p r : startswith p (p ++ r) = true.
Proof.
  induction p as [|c p IH]; [destruct r; reflexivity|].
  cbn [app startswith]. rewrite Z.eqb_refl, IH. reflexivity.
Qed.

Lemma skipn_length_app {A} (p r : list A) : skipn (List.length p) (p ++ r) = r.
Proof. induction p; [reflexivity | assumption]. Qed.

(** How a leaf is written. *)
Lemma serialize_leaf tag txt rest :
  txt <> [] ->
  serialize_xml (Element tag (Some txt) []) ++ rest
  = 60 :: tag ++ 62 :: escape_cdata txt ++ 60 :: 47 :: tag ++ 62 :: rest.
Proof.
  intros Hne. destruct txt as [|c txt]; [contradiction|].
  cbn [serialize_xml truthy_text orb flat_map].
  change (str "<") with [60]. change (str ">") with [62].
  change (str "</") with [60; 47].
  rewrite app_nil_l. cbn [app].
  repeat (rewrite <- ?app_assoc; cbn [app]). reflexivity.
Qed.

Lemma name_ok_inv tag :
  name_ok tag = true ->
  forallb tag_char tag = true
  /\ exists c tag', tag = c :: tag' /\ c <> 47.
Proof.
  unfold name_ok. intros H. apply andb_prop in H. destruct H as [Hn Hc].
  split; [exact Hc|]. destruct tag as [|c tag']; [discriminate|].
  exists c, tag'. split; [reflexivity|].
  cbn [forallb] in Hc. apply andb_prop in Hc. destruct Hc as [Hc _].
  unfold tag_char in Hc. lia.
Qed.

(** A written leaf is read back, with any amount of fuel above one. *)
Lemma parse_leaf f tag txt rest :
  (2 <= f)%nat ->
  name_ok tag = true -> txt <> [] -> forallb xml_char txt = true ->
  parse_element f (serialize_xml (Element tag (Some txt) []) ++ rest)
  = Some (Element tag (Some txt) [], rest).
Proof.
  intros Hf Htag Hne Htxt. rewrite (serialize_leaf tag txt rest Hne).
  destruct (name_ok_inv tag Htag) as (Hchars & c & tag' & Etag & _).
  destruct f as [|[|f]]; try lia.
  assert (Hnil : is_nil tag = false) by (rewrite Etag; reflexivity).
  cbn [parse_element]. rewrite Z.eqb_refl, (tag_name_app tag _ Hchars), Hnil.
  change (startswith (str " />") (62 :: ?r)) with false. cbv iota.
  rewrite Z.eqb_refl, (chardata_escape txt _ Htxt).
  cbn [parse_children].
  change (60 :: 47 :: tag ++ 62 :: rest)
    with ((str "</") ++ tag ++ (str ">") ++ rest).
  rewrite !app_assoc, startswith_app, skipn_length_app.
  destruct txt; [contradiction|reflexivity].
Qed.

Lemma plain_xml_char txt :
  forallb plain txt = true -> forallb xml_char txt = true.
Proof.
  rewrite !forallb_forall. intros H c Hc. specialize (H c Hc).
  unfold plain in H. apply andb_prop in H. apply H.
Qed.

Lemma plain_leaf_inv e :
  plain_leaf e = true ->
  exists tag txt, e = Element tag (Some txt) []
                  /\ name_ok tag = true /\ txt <> []
                  /\ forallb plain txt = true.
Proof.
  destruct e as [tag [txt|] [|k ks]]; try discriminate. cbn [plain_leaf].
  intros H. apply andb_prop in H. destruct H as [H Hp].
  apply andb_prop in H. destruct H as [Ht Hn].
  exists tag, txt. repeat split; auto. intros ->. discriminate.
Qed.

(** What follows the opening tag of a parent begins with a tag. *)
Lemma children_start_with_tag kids name rest :
  forallb plain_leaf kids = true ->
  exists c r,
    flat_map serialize_xml kids ++ 60 :: 47 :: name ++ 62 :: rest
    = 60 :: c :: r
    /\ (kids = [] -> c = 47) /\ (kids <> [] -> c <> 47).
Proof.
  destruct kids as [|e kids]; intros H.
  - exists 47, (name ++ 62 :: rest). repeat split; congruence.
  - cbn [forallb] in H. apply andb_prop in H. destruct H as [He _].
    destruct (plain_leaf_inv e He) as (tag & txt & -> & Htag & Hne & _).
    destruct (name_ok_inv tag Htag) as (_ & c & tag' & -> & Hc).
    cbn [flat_map]. rewrite <- app_assoc, (serialize_leaf _ txt _ Hne).
    cbn [app]. eexists _, _. repeat split; [discriminate | intros _; exact Hc].
Qed.

(** A run of written leaves before the closing tag of their parent is read
    back as the list of those leaves. *)
Lemma parse_children_leaves kids : forall f name rest,
  (List.length kids + 3 <= f)%nat ->
  forallb plain_leaf kids = true ->
  parse_children f name
    (flat_map serialize_xml kids ++ 60 :: 47 :: name ++ 62 :: rest)
  = Some (kids, rest).
Proof.
  induction kids as [|e kids IH]; intros f name rest Hf Hk.
  - destruct f as [|f]; [simpl in Hf; lia|].
    cbn [flat_map app parse_children].
    change (60 :: 47 :: name ++ 62 :: rest)
      with ((str "</") ++ name ++ (str ">") ++ rest).
    rewrite !app_assoc, startswith_app, skipn_length_app. reflexivity.
  - destruct f as [|f]; [simpl in Hf; lia|].
    destruct (children_start_with_tag (e :: kids) name rest Hk)
      as (c & r & E & _ & Hc).
    cbn [forallb] in Hk. apply andb_prop in Hk. destruct Hk as [He Hk].
    destruct (plain_leaf_inv e He) as (tag & txt & -> & Htag & Hne & Htxt).
    cbn [parse_children].
    assert (Hclose : startswith (str "</" ++ name ++ str ">")
                       (flat_map serialize_xml
                          (Element tag (Some txt) [] :: kids)
                        ++ 60 :: 47 :: name ++ 62 :: rest) = false).
    { rewrite E. change (str "</") with [60; 47]. cbn [app startswith].
      destruct (Z.eqb_spec 47 c) as [Heq|]; [|rewrite andb_false_r;
                                               reflexivity].
      exfalso. apply Hc; [discriminate | symmetry; exact Heq]. }
    rewrite Hclose. cbn [flat_map]. rewrite <- app_assoc.
    rewrite (parse_leaf f tag txt _ ltac:(simpl in Hf; lia) Htag Hne
               (plain_xml_char txt Htxt)).
    destruct (children_start_with_tag kids name rest Hk)
      as (c' & r' & E' & _).
    rewrite E' at 1. cbn [chardata]. rewrite Z.eqb_refl. rewrite <- E'.
    rewrite (IH f name rest ltac:(simpl in Hf; lia) Hk). reflexivity.
Qed.

(** A parent whose children are plain leaves is read back as written. *)
Lemma parse_flat_element f name kids rest :
  (List.length kids + 4 <= f)%nat ->
  name_ok name = true -> kids <> [] -> forallb plain_leaf kids = true ->
  parse_element f (serialize_xml (Element name None kids) ++ rest)
  = Some (Element name None kids, rest).
Proof.
  intros Hf Hname Hne Hk.
  destruct (name_ok_inv name Hname) as (Hchars & c & name' & Ename & _).
  assert (Hnil : is_nil name = false) by (rewrite Ename; reflexivity).
  assert (Hser : serialize_xml (Element name None kids) ++ rest
                 = 60 :: name ++ 62
                   :: flat_map serialize_xml kids
                      ++ 60 :: 47 :: name ++ 62 :: rest).
  { destruct kids as [|k ks]; [contradiction|].
    cbn [serialize_xml truthy_text orb List.length Nat.eqb negb].
    change (str "<") with [60]. change (str ">") with [62].
    change (str "</") with [60; 47].
    repeat (rewrite <- ?app_assoc; cbn [app]). reflexivity. }
  rewrite Hser. destruct f as [|f]; [lia|].
  cbn [parse_element]. rewrite Z.eqb_refl, (tag_name_app name _ Hchars), Hnil.
  change (startswith (str " />") (62 :: ?r)) with false. cbv iota.
  rewrite Z.eqb_refl.
  destruct (children_start_with_tag kids name rest Hk) as (c' & r' & E' & _).
  rewrite E' at 1. cbn [chardata]. rewrite Z.eqb_refl. rewrite <- E'.
  rewrite (parse_children_leaves kids f name rest ltac:(lia) Hk).
  reflexivity.
Qed.

Lemma after_declaration_written body :
  after_declaration (XML_DECLARATION ++ [10] ++ body) = Some body.
Proof. vm_compute. reflexivity. Qed.

Lemma forallb_flat_map {A B} (p : B -> bool) (f : A -> list B) l :
  (forall a, In a l -> forallb p (f a) = true) ->
  forallb p (flat_map f l) = true.
Proof.
  induction l as [|a l IH]; intros H; [reflexivity|].
  cbn [flat_map]. rewrite forallb_app, (H a (or_introl eq_refl)), IH;
    [reflexivity|]. intros b Hb. apply H. right. exact Hb.
Qed.

Lemma escape_plain txt :
  forallb plain txt = true -> forallb plain (escape_cdata txt) = true.
Proof.
  intros H. rewrite escape_cdata_flat_map. apply forallb_flat_map.
  intros c Hc. rewrite forallb_forall in H. specialize (H c Hc).
  unfold escape1.
  destruct (c =? 38); [reflexivity|]. destruct (c =? 60); [reflexivity|].
  destruct (c =? 62); [reflexivity|]. cbn [forallb]. rewrite H. reflexivity.
Qed.

Lemma name_plain tag : name_ok tag = true -> forallb plain tag = true.
Proof.
  intros H. destruct (name_ok_inv tag H) as (Hc & _).
  rewrite forallb_forall in *. intros c Hin. specialize (Hc c Hin).
  unfold tag_char in Hc. apply andb_prop in Hc. apply Hc.
Qed.

Lemma leaf_plain e :
  plain_leaf e = true -> forallb plain (serialize_xml e) = true.
Proof.
  intros H. destruct (plain_leaf_inv e H) as (tag & txt & -> & Ht & Hne & Hp).
  pose proof (serialize_leaf tag txt [] Hne) as E.
  rewrite app_nil_r in E. rewrite E.
  repeat (rewrite ?forallb_app; cbn [forallb]).
  rewrite (name_plain tag Ht), (escape_plain txt Hp). reflexivity.
Qed.

Lemma flat_element_plain name kids :
  name_ok name = true -> forallb plain_leaf kids = true ->
  forallb plain (serialize_xml (Element name None kids)) = true.
Proof.
  intros Hn Hk. cbn [serialize_xml truthy_text orb].
  assert (Hkids : forallb plain (flat_map serialize_xml kids) = true).
  { apply forallb_flat_map. intros e He. apply leaf_plain.
    rewrite forallb_forall in Hk. apply Hk, He. }
  rewrite forallb_app, forallb_app, (name_plain name Hn).
  destruct (negb (List.length kids =? 0)%nat); [|reflexivity].
  rewrite !forallb_app, Hkids, (name_plain name Hn). reflexivity.
Qed.

(** Text-mode newline translation is undone by end-of-line handling. *)
Lemma normalize_written linesep t :
  linesep = [10] \/ linesep = [13; 10] ->
  forallb plain t = true ->
  normalize_eol (replace1 10 linesep t) = t.
Proof.
  intros Hl. unfold replace1. induction t as [|c t IH]; intros H.
  - reflexivity.
  - cbn [forallb] in H. apply andb_prop in H. destruct H as [Hc H].
    specialize (IH H). cbn [flat_map].
    destruct (Z.eqb_spec c 10) as [->|N].
    + destruct Hl as [-> | ->]; cbn [app normalize_eol Z.eqb Pos.eqb];
        rewrite IH; reflexivity.
    + cbn [app normalize_eol]. unfold plain in Hc.
      destruct (Z.eqb_spec c 13); [lia|]. rewrite IH. reflexivity.
Qed.

Lemma plain_scalar c : plain c = true -> Utf8.scalar c = true.
Proof. unfold plain, xml_char, Html.between, Utf8.scalar. lia. Qed.

Lemma written_scalar linesep t :
  linesep = [10] \/ linesep = [13; 10] ->
  forallb plain t = true ->
  forallb Utf8.scalar (replace1 10 linesep t) = true.
Proof.
  intros Hl H. unfold replace1. apply forallb_flat_map. intros c Hc.
  rewrite forallb_forall in H. specialize (H c Hc).
  destruct (c =? 10).
  - destruct Hl as [-> | ->]; reflexivity.
  - cbn [forallb]. rewrite (plain_scalar c H). reflexivity.
Qed.

(** Text without surrogates is encoded as plain UTF-8. *)
Lemma encode_xmlcharrefreplace_scalar s :
  forallb Utf8.scalar s = true -> encode_xmlcharrefreplace s = Utf8.encode s.
Proof.
  unfold encode_xmlcharrefreplace, Utf8.encode.
  induction s as [|c s IH]; intros H; [reflexivity|].
  cbn [forallb] in H. apply andb_prop in H. destruct H as [Hc H].
  cbn [flat_map]. rewrite (IH H). f_equal.
  unfold encode1_xmlcharrefreplace, surrogate. unfold Utf8.scalar in Hc.
  destruct ((0xD800 <=? c) && (c <=? 0xDFFF)) eqn:E; [lia | reflexivity].
Qed.

(** A flat document of plain leaves, written by [tree_write] on either
    platform, is read back as the tree that was written. *)
Lemma flat_document_roundtrip linesep name kids :
  linesep = [10] \/ linesep = [13; 10] ->
  name_ok name = true -> kids <> [] -> forallb plain_leaf kids = true ->
  parse_document (tree_write linesep (Element name None kids))
  = Some (Element name None kids).
Proof.
  intros Hl Hn Hne Hk. unfold parse_document, tree_write.
  fold XML_DECLARATION.
  set (body := serialize_xml (Element name None kids)).
  assert (Hbody : forallb plain body = true)
    by (apply flat_element_plain; assumption).
  assert (Hdoc : forallb plain (XML_DECLARATION ++ [10] ++ body) = true).
  { rewrite !forallb_app, Hbody. reflexivity. }
  rewrite (encode_xmlcharrefreplace_scalar _
             (written_scalar linesep _ Hl Hdoc)).
  rewrite (Utf8Facts.decode_encode _ (written_scalar linesep _ Hl Hdoc)).
  rewrite (normalize_written linesep _ Hl Hdoc).
  rewrite after_declaration_written.
  assert (Hfuel : (List.length kids + 4 <= S (List.length body))%nat).
  { subst body. destruct kids as [|k ks]; [contradiction|].
    cbn [serialize_xml truthy_text orb List.length Nat.eqb negb].
    rewrite !length_app.
    assert (Hlen : forall l : list element,
               (List.length l <= List.length (flat_map serialize_xml l))%nat).
    { induction l as [|e l IHl]; [reflexivity|]. cbn [flat_map List.length].
      rewrite length_app. destruct e as [tg tx ch].
      cbn [serialize_xml]. rewrite length_app.
      change (List.length (str "<")) with 1%nat. lia. }
    specialize (Hlen (k :: ks)). cbn [List.length] in Hlen.
    change (List.length (str "<")) with 1%nat.
    change (List.length (str ">")) with 1%nat.
    change (List.length (str "</")) with 2%nat. lia. }
  pose proof (parse_flat_element (S (List.length body)) name kids []
                Hfuel Hn Hne Hk) as P.
  rewrite app_nil_r in P. fold body in P. rewrite P. reflexivity.
Qed.

Lemma digit_is_digit n : is_digit (digit n) = true.
Proof.
  unfold is_digit, digit. pose proof (Z.mod_pos_bound n 10 ltac:(lia)). lia.
Qed.

Lemma digit_plain n : plain (digit n) = true.
Proof.
  unfold plain, xml_char, Html.between, digit.
  pose proof (Z.mod_pos_bound n 10 ltac:(lia)). lia.
Qed.

Lemma digit_value_digit n : Html.digit_value (digit n) = n mod 10.
Proof.
  unfold Html.digit_value, Html.is_digit, Html.between, digit.
  pose proof (Z.mod_pos_bound n 10 ltac:(lia)).
  destruct (Z.leb_spec 48 (48 + n mod 10)); [|lia].
  destruct (Z.leb_spec (48 + n mod 10) 57); [|lia]. cbn [andb]. lia.
Qed.

Lemma number_d2 n : 0 <= n <= 99 -> number (d2 n) = n.
Proof.
  intros H. unfold number, Html.int_of, d2. cbn [fold_left].
  rewrite !digit_value_digit. Z.div_mod_to_equations. lia.
Qed.

Lemma number_d4 n : 0 <= n <= 9999 -> number (d4 n) = n.
Proof.
  intros H. unfold number, Html.int_of, d4. cbn [fold_left].
  rewrite !digit_value_digit. Z.div_mod_to_equations. lia.
Qed.

(** The timestamp has the format, and names the moment it was made from. *)
Lemma strftime_format now :
  timestamp_format (strftime now) = true
  /\ forallb plain (strftime now) = true
  /\ (valid_datetime now = true -> read_timestamp (strftime now) = now).
Proof.
  unfold strftime. change (str "T") with [84]. change (str "Z") with [90].
  split; [|split].
  - unfold d4, d2. cbn [app timestamp_format forallb].
    rewrite !digit_is_digit. reflexivity.
  - unfold d4, d2. cbn [app forallb]. rewrite !digit_plain. reflexivity.
  - destruct now as [y m d h mi s]. unfold valid_datetime. cbn [year month
      day hour minute second]. intros Hv.
    unfold read_timestamp, d4, d2. cbn [app firstn skipn].
    f_equal; [apply (number_d4 y) | apply (number_d2 m) | apply (number_d2 d)
             | apply (number_d2 h) | apply (number_d2 mi)
             | apply (number_d2 s)]; lia.
Qed.

(** C7, as stated, fails on the round trip.  A carriage return in the
    sanitized text is written as it is and read back as a newline; a
    message of control characters only leaves an empty Content that reads
    back as no text at all; and a form feed produced by a character
    reference makes the file no XML, so that reading it fails.  The table
    of named references and the digit limit play no part. *)
Lemma content_does_not_always_read_back :
  exists m1 m2 m3,
    m1 = [97; 13; 98] /\ m2 = [1] /\ m3 = str "&#12;"
    /\ forall html5 lim,
         let content_read_back m :=
           match save_message html5 lim (str "/") [10] moment m with
           | Some w =>
               match parse_document (data w) with
               | Some r => Some (find_text (str "Content") r)
               | None => None
               end
           | None => None
           end in
         Clean.sanitize html5 lim m1 = Some [97; 13; 98]
         /\ content_read_back m1 = Some (Some [97; 10; 98])
         /\ Clean.sanitize html5 lim m2 = Some []
         /\ content_read_back m2 = Some None
         /\ Clean.sanitize html5 lim m3 = Some [12]
         /\ content_read_back m3 = None.
Proof.
  exists [97; 13; 98], [1], (str "&#12;").
  split; [reflexivity|]. split; [reflexivity|]. split; [reflexivity|].
  intros html5 lim. cbv zeta. repeat split; vm_compute; reflexivity.
Qed.

(** A literal is the list of its code points. *)
Ltac literals :=
  repeat match goal with
         | |- context [str ?s] =>
             let v := eval vm_compute in (str s) in change (str s) with v
         end.

Lemma escape1_other c : c <> 38 -> c <> 60 -> c <> 62 -> escape1 c = [c].
Proof.
  intros N1 N2 N3. unfold escape1.
  destruct (Z.eqb_spec c 38); [contradiction|].
  destruct (Z.eqb_spec c 60); [contradiction|].
  destruct (Z.eqb_spec c 62); [contradiction|]. reflexivity.
Qed.

Lemma escape1_digit n : escape1 (digit n) = [digit n].
Proof.
  pose proof (Z.mod_pos_bound n 10 ltac:(lia)).
  apply escape1_other; unfold digit; lia.
Qed.

(** A timestamp holds nothing to escape. *)
Lemma escape_timestamp now : escape_cdata (strftime now) = strftime now.
Proof.
  rewrite escape_cdata_flat_map. unfold strftime, d4, d2. literals.
  cbn [app flat_map]. rewrite !escape1_digit. reflexivity.
Qed.

(** What [tree.write] is given to write, for a document of a message, is
    the text of the four fields. *)
Lemma serialize_document ts content :
  ts <> [] -> escape_cdata ts = ts ->
  XML_DECLARATION ++ [10] ++ serialize_xml (document_of ts content)
  = document_text ts content.
Proof.
  intros Hts Hesc. unfold document_of, document_text, XML_DECLARATION.
  destruct ts as [|t0 ts']; [contradiction|].
  cbn [serialize_xml truthy_text orb List.length Nat.eqb negb flat_map].
  rewrite Hesc. unfold QUEUE_NAME.
  destruct content as [|c0 content'].
  - literals. cbn [truthy_text orb List.length Nat.eqb negb escape_cdata
                   contains existsb Z.eqb Pos.eqb].
    repeat (rewrite <- ?app_assoc; cbn [app]). reflexivity.
  - rewrite (escape_cdata_flat_map (c0 :: content')). literals.
    cbn [truthy_text orb List.length Nat.eqb negb escape_cdata
         contains existsb Z.eqb Pos.eqb].
    repeat (rewrite <- ?app_assoc; cbn [app]). reflexivity.
Qed.

(** C7, amended.  For a call at a moment with a four-digit year:
    [save_message] raises before it writes exactly when sanitizing does.
    Otherwise it writes to the file [message_<timestamp>.xml] in the
    output directory, and what it writes is, for every message, the UTF-8
    encoding (a surrogate as a character reference, all else as plain
    UTF-8) of this text, its newlines as the platform writes them: the
    declaration naming utf-8,
    and under the root [MQMessage] exactly four fields in this order,
    Timestamp, QueueName, MessageType with the constant text [Text], and
    Content with the sanitized, unescaped message, its markup characters
    escaped (an empty one as an empty element).  The timestamp has the
    format YYYYMMDDTHHMMSSZ and names the moment of the call.  Whether
    that file can be read back depends on Content: reading it yields the
    four fields, with Content equal to the sanitized text exactly,
    provided that text is not empty, consists of legal XML characters and
    contains no carriage return (on either platform's newline
    convention); the tree handed to the writer has the four fields in any
    case. *)
Theorem written_document_reads_back html5 lim os_sep linesep now msg :
  valid_datetime now = true ->
  let saved := save_message html5 lim os_sep linesep now msg in
  (saved = None <-> Clean.sanitize html5 lim msg = None)
  /\ (forall s, forallb Utf8.scalar s = true ->
                encode_xmlcharrefreplace s = Utf8.encode s)
  /\ encode_xmlcharrefreplace [97; 0xD800; 0xDFFF]
     = str "a&#55296;&#57343;"
  /\ forall w content,
       saved = Some w ->
       Clean.sanitize html5 lim msg = Some content ->
       timestamp w = strftime now
       /\ timestamp_format (timestamp w) = true
       /\ read_timestamp (timestamp w) = now
       /\ filename w
          = XML_SAVE_DIR ++ os_sep ++ str "message_" ++ timestamp w
            ++ str ".xml"
       /\ data w
          = encode_xmlcharrefreplace
              (replace1 10 linesep (document_text (timestamp w) content))
       /\ (exists rest, data w = XML_DECLARATION ++ rest)
       /\ root w = document_of (timestamp w) content
       /\ (linesep = [10] \/ linesep = [13; 10] ->
           content <> [] -> forallb plain content = true ->
           parse_document (data w)
           = Some (document_of (timestamp w) content)
           /\ map tag_of (children_of (document_of (timestamp w) content))
              = [str "Timestamp"; str "QueueName"; str "MessageType";
                 str "Content"]
           /\ find_text (str "MessageType")
                (document_of (timestamp w) content) = Some (str "Text")
           /\ find_text (str "Content")
                (document_of (timestamp w) content) = Some content).
Proof.
  intros Hvalid. cbv zeta. unfold save_message, Clean.sanitize.
  split.
  { destruct (Html.unescape html5 lim (Sanitizer.clean_message msg));
      [split; discriminate | tauto]. }
  split; [apply encode_xmlcharrefreplace_scalar|]. split; [reflexivity|].
  destruct (Html.unescape html5 lim (Sanitizer.clean_message msg))
    as [c|]; [|discriminate].
  intros w content Hw Hc. injection Hw as <-. injection Hc as <-.
  cbn [timestamp filename root data].
  destruct (strftime_format now) as (Hfmt & Hplain & Hread).
  assert (Hne : strftime now <> [])
    by (destruct (strftime now); [discriminate Hfmt | discriminate]).
  assert (Hdata : tree_write linesep (document_of (strftime now) c)
                  = encode_xmlcharrefreplace
                      (replace1 10 linesep
                         (document_text (strftime now) c))).
  { unfold tree_write. fold XML_DECLARATION.
    rewrite (serialize_document _ c Hne (escape_timestamp now)).
    reflexivity. }
  fold (document_of (strftime now) c).
  split; [reflexivity|]. split; [exact Hfmt|]. split; [exact (Hread Hvalid)|].
  split; [reflexivity|]. split; [exact Hdata|]. split.
  { unfold tree_write, encode_xmlcharrefreplace, replace1.
    rewrite !flat_map_app. eexists. reflexivity. }
  split; [reflexivity|].
  intros Hl Hcne Hcp.
  split; [|split; [reflexivity | split; reflexivity]].
  apply flat_document_roundtrip; [exact Hl | reflexivity | discriminate |].
  cbn [forallb plain_leaf]. rewrite Hplain, Hcp.
  destruct (strftime now) eqn:Ets; [contradiction|].
  destruct c; [contradiction|]. reflexivity.
Qed.

Lemma written_document_reads_back_witness :
  let msg := str "RFH " ++ [0; 2] ++ str "<?xml?><a>5 &#60; 7 &#38;&#233;</a>"
             ++ [10] in
  let content := str "<?xml?><a>5 < 7 &" ++ [233] ++ str "</a>" ++ [10] in
  exists w,
    save_message (fun _ => None) 4300 (str "/") [13; 10] moment msg = Some w
    /\ filename w = str "extracted_data/message_20240102T030405Z.xml"
    /\ read_timestamp (timestamp w) = moment
    /\ data w
       = Utf8.encode
           (str "<?xml version='1.0' encoding='utf-8'?>" ++ [13; 10]
            ++ str "<MQMessage><Timestamp>20240102T030405Z</Timestamp>"
            ++ str "<QueueName>xxxxxxxx</QueueName>"
            ++ str "<MessageType>Text</MessageType>"
            ++ str "<Content>&lt;?xml?&gt;&lt;a&gt;5 &lt; 7 &amp;" ++ [233]
            ++ str "&lt;/a&gt;" ++ [13; 10]
            ++ str "</Content></MQMessage>")
    /\ parse_document (data w)
       = Some (document_of (str "20240102T030405Z") content).
Proof.
  cbv zeta.
  destruct (written_document_reads_back (fun _ => None) 4300 (str "/")
              [13; 10] moment
              (str "RFH " ++ [0; 2]
               ++ str "<?xml?><a>5 &#60; 7 &#38;&#233;</a>" ++ [10])
              eq_refl)
    as (_ & _ & _ & H).
  eexists. split; [reflexivity|].
  destruct (H _ _ eq_refl eq_refl) as (_ & _ & H3 & H4 & H5 & _ & _ & H8).
  split; [exact H4|]. split; [exact H3|].
  split; [rewrite H5; vm_compute; reflexivity|].
  destruct (H8 (or_intror eq_refl)) as (H9 & _);
    [discriminate | reflexivity |]. exact H9.
Defined.

End WriterFacts.

(** * Further properties of the listener *)

Module ListenerMore.

Import Listener ListenerFacts.

(** Every way a pass can go, from a state given by its fields. *)
Ltac pass_cases w l st p c o g sv :=
  unfold step, is_set, receive_one, connect_to_mq, except_inner; simpl;
  destruct l as [|?h| |]; simpl;
  [ destruct (st || exit_clicked w p) eqn:?Hstop; simpl;
    [ | destruct (connect_result w c) as [?u|[?r|]]; simpl;
        [ destruct (open_result w o) as [?u|?e]; simpl | | ] ]
  | destruct (st || exit_clicked w p) eqn:?Hstop; simpl;
    [ | destruct (get_result w g) as [?v|[?r|]]; simpl;
        [ destruct (truthy v) eqn:?Hv; simpl;
          [ destruct (save_result w sv) as [?u|[?r|]]; simpl;
            [ | destruct (r =? MQRC_NO_MSG_AVAILABLE) eqn:?Hr; simpl | ]
          | ]
        | destruct (r =? MQRC_NO_MSG_AVAILABLE) eqn:?Hr; simpl
        | ] ]
  | | ].

Lemma run_paced w n : forall s due,
  (due = true -> at_ s = BACKOFF \/ at_ s = STOPPED) ->
  paced due (snd (run w n s)) = true.
Proof.
  induction n as [|n IH]; intros s due Hinv; [destruct due; reflexivity|].
  rewrite run_S; cbn [snd].
  destruct s as [l st p c o g sv]; simpl in Hinv.
  assert (Hdue : forall h, l = DISCONNECTED \/ l = RECEIVING h ->
                           due = false).
  { intros h Hl. destruct due; [|reflexivity].
    destruct (Hinv eq_refl) as [E|E]; destruct Hl as [E'|E'];
      rewrite E in E'; discriminate. }
  pass_cases w l st p c o g sv;
    try rewrite (Hdue 0%nat (or_introl eq_refl));
    try rewrite (Hdue h (or_intror eq_refl));
    simpl; rewrite ?Hr; simpl; apply IH; simpl; intros; auto; discriminate.
Qed.

(** X3. The delay after a save: in every run, after each call of
    [save_message] that returned, or that raised anything but an
    [MQMIError] with the reason "no message available", neither a receive
    nor a connect is issued before [time.sleep(10)] has been called: the
    sleep of line 155 after a save that returned, the retry wait of line
    171 after one that failed. *)
Theorem saved_message_is_followed_by_the_delay w n :
  paced false (snd (listen_to_queue w n)) = true.
Proof.
  unfold listen_to_queue. apply run_paced. discriminate.
Qed.

Lemma run_receives_on_open_queue w n : forall s opened,
  (forall h, at_ s = RECEIVING h -> opened = Some h) ->
  receives_on_open_queue opened (snd (run w n s)) = true.
Proof.
  induction n as [|n IH]; intros s opened Hinv; [reflexivity|].
  rewrite run_S; cbn [snd].
  destruct s as [l st p c o g sv]; simpl in Hinv.
  assert (Hopen : forall h, l = RECEIVING h -> opened = Some h)
    by exact Hinv.
  pass_cases w l st p c o g sv;
    try rewrite (Hopen h eq_refl); simpl; rewrite ?Nat.eqb_refl; simpl;
    apply IH; simpl; intros; congruence.
Qed.

(** X4. No receive without an open queue: in every run each [queue.get] goes
    to a queue whose [pymqi.Queue] call succeeded on the connection made
    last; after a failed connect or a failed open nothing is received until
    both have succeeded again. *)
Theorem receive_only_on_an_open_queue w n :
  receives_on_open_queue None (snd (listen_to_queue w n)) = true.
Proof.
  unfold listen_to_queue. apply run_receives_on_open_queue. discriminate.
Qed.

Lemma run_connects_logged w n : forall s,
  connects_logged [] (snd (run w n s)) = true.
Proof.
  induction n as [|n IH]; intros s; [reflexivity|].
  rewrite run_S; cbn [snd].
  destruct s as [l st p c o g sv].
  pass_cases w l st p c o g sv; rewrite ?Z.eqb_refl; simpl; apply IH.
Qed.

(** X5. How connection attempts show in the log: in every run a successful
    [connect_to_mq] is followed at once by one INFO line, and a failed one
    by two ERROR lines, the one [connect_to_mq] writes before it raises the
    exception again and the one of the handler that catches it. *)
Theorem connect_failure_is_logged_twice w n :
  connects_logged [] (snd (listen_to_queue w n)) = true.
Proof. unfold listen_to_queue. apply run_connects_logged. Qed.

Lemma run_connects_bounded w n : forall s,
  (count is_connect (snd (run w n s))
   <= count failure (snd (run w n s)) + credit s)%nat.
Proof.
  induction n as [|n IH]; intros s; [unfold count; simpl; lia|].
  rewrite run_S; cbn [snd]. rewrite !count_app.
  destruct s as [l st p c o g sv]. unfold credit at 1. cbn [at_ stop_signal].
  pass_cases w l st p c o g sv;
    match goal with
    | |- context [run w n ?s'] => pose proof (IH s') as Hn
    end;
    clear IH; unfold credit, count in *; simpl in *; rewrite ?Hr; simpl;
    try (apply orb_false_iff in Hstop; destruct Hstop as [-> _]);
    try (destruct st; simpl in *); lia.
Qed.

(** X6. The loop never reconnects without a reason: in every run the number
    of connection attempts is at most one more than the number of failed
    calls (connect, open, receive other than "no message available", save). *)
Theorem reconnects_only_after_a_failure w n :
  (count is_connect (snd (listen_to_queue w n))
   <= 1 + count failure (snd (listen_to_queue w n)))%nat.
Proof.
  unfold listen_to_queue.
  pose proof (run_connects_bounded w n init) as H.
  change (credit init) with 1%nat in H. lia.
Qed.

Lemma run_2 w s : fst (run w 2 s) = fst (step w (fst (step w s))).
Proof. rewrite run_S, (run_S w 0). reflexivity. Qed.

(** With the flag set, the loop winds down: at most the retry line and one
    sleep, then the end. *)
Lemma run_with_flag_set w s :
  stop_signal s = true ->
  forall n,
    (snd (run w n s) = []
     \/ snd (run w n s) = [Log INFO RetryingConnection; Sleep 10])
    /\ ((3 <= n)%nat -> at_ (fst (run w n s)) = STOPPED).
Proof.
  intros Hstop n. destruct s as [l st p c o g sv]. simpl in Hstop. subst st.
  destruct l as [|h| |].
  - destruct n as [|n]; [split; [left; reflexivity | lia]|].
    rewrite run_S. unfold step, is_set; simpl.
    rewrite run_stopped by reflexivity. split; [left|]; reflexivity.
  - destruct (run_after_stop w (mk_state (RECEIVING h) true p c o g sv) h
                eq_refl eq_refl n) as (Htr & Hst & _).
    split; [|exact Hst]. rewrite Htr. destruct (2 <=? n)%nat; auto.
  - destruct n as [|[|n]]; [split; [left; reflexivity | lia] | |].
    + split; [right; reflexivity | lia].
    + rewrite run_S. cbn [step at_ fst snd goto stop_signal polls connects
                          opens gets saves].
      rewrite run_S. unfold step at 1 2, is_set; simpl.
      rewrite run_stopped by reflexivity. split; [right|]; reflexivity.
  - rewrite run_stopped by reflexivity. split; [left|]; reflexivity.
Qed.

(** A flag the tray thread has set by the time of a test is as good as
    one the loop holds already. *)
Lemma step_click_as_flag w s :
  exit_clicked w (polls s) = true ->
  at_ s <> BACKOFF -> at_ s <> STOPPED ->
  step w s = step w (set_stop s).
Proof.
  intros Hclick Hb Hs. destruct s as [l st p c o g sv]. simpl in *.
  destruct l; try contradiction; unfold step, is_set; simpl;
    rewrite Hclick, ?orb_true_r; reflexivity.
Qed.

(** The same with a flag that is set when the loop tests it next. *)
Lemma run_with_flag_seen w s :
  stop_signal s = true \/ exit_clicked w (polls s) = true ->
  forall n,
    (snd (run w n s) = []
     \/ snd (run w n s) = [Log INFO RetryingConnection; Sleep 10])
    /\ ((3 <= n)%nat -> at_ (fst (run w n s)) = STOPPED).
Proof.
  intros [Hstop|Hclick] n; [apply run_with_flag_set, Hstop|].
  destruct n as [|n]; [split; [left; reflexivity | lia]|].
  destruct (at_ s) eqn:Hat.
  1, 2:
    pose proof (run_with_flag_set w (set_stop s) eq_refl (S n)) as H;
    rewrite !run_S in *;
    rewrite (step_click_as_flag w s Hclick)
      by (rewrite Hat; discriminate);
    exact H.
  2: rewrite run_stopped by exact Hat; split; [left; reflexivity|];
     intros _; exact Hat.
  rewrite run_S, (step_backoff w s Hat). cbn [fst snd].
  destruct n as [|n]; [split; [right; reflexivity | lia]|].
  assert (Hs1 : step w (goto DISCONNECTED s)
                = (goto STOPPED (snd (is_set w (goto DISCONNECTED s))), [])).
  { unfold step, is_set; simpl. rewrite Hclick, orb_true_r. reflexivity. }
  rewrite run_S, Hs1. cbn [fst snd].
  rewrite run_stopped by reflexivity. split; [right|]; reflexivity.
Qed.

(** X2. A shutdown request the loop has seen, or sees at its next test,
    ends all work: from any loop head at which the flag is set (by the
    loop itself, or by the tray thread by the time the loop tests it
    next), the loop issues no receive, no connect and no [save_message],
    sleeps at most once, and has returned after three passes. *)
Theorem shutdown_request_ends_all_work w s n :
  stop_signal s = true \/ exit_clicked w (polls s) = true ->
  count is_receive (snd (run w n s)) = 0%nat
  /\ count is_connect (snd (run w n s)) = 0%nat
  /\ count is_save (snd (run w n s)) = 0%nat
  /\ (count is_sleep (snd (run w n s)) <= 1)%nat
  /\ ((3 <= n)%nat -> at_ (fst (run w n s)) = STOPPED).
Proof.
  intros Hstop. destruct (run_with_flag_seen w s Hstop n) as ([E|E] & Hst);
    rewrite E; unfold count; simpl; repeat split; auto.
Qed.

Lemma shutdown_request_ends_all_work_witness :
  let w := on_exit 2 world_traffic in
  let s := fst (listen_to_queue w 2) in
  let s' := set_stop (fst (listen_to_queue world_traffic 2)) in
  at_ s = RECEIVING 0 /\ stop_signal s = false
  /\ count is_save (snd (listen_to_queue w 2)) = 1%nat
  /\ count is_receive (snd (run w 7 s)) = 0%nat
  /\ at_ (fst (run w 7 s)) = STOPPED
  /\ count is_receive (snd (run world_traffic 7 s')) = 0%nat.
Proof.
  cbv zeta. split; [reflexivity|]. split; [reflexivity|].
  split; [reflexivity|].
  destruct (shutdown_request_ends_all_work (on_exit 2 world_traffic)
              (fst (listen_to_queue (on_exit 2 world_traffic) 2)) 7
              (or_intror eq_refl))
    as (H1 & _ & _ & _ & H5).
  destruct (shutdown_request_ends_all_work world_traffic
              (set_stop (fst (listen_to_queue world_traffic 2))) 7
              (or_introl eq_refl))
    as (H1' & _).
  split; [exact H1|]. split; [apply H5; lia | exact H1'].
Defined.

Lemma step_polls w s :
  (polls s <= polls (fst (step w s)))%nat
  /\ (at_ s = DISCONNECTED \/ (exists h, at_ s = RECEIVING h) ->
      polls (fst (step w s)) = S (polls s)).
Proof.
  destruct s as [l st p c o g sv].
  pass_cases w l st p c o g sv; split; try lia; try reflexivity;
    intros [E|[h' E]]; discriminate.
Qed.

(** Two passes from a state that has not returned poll the flag at least
    once. *)
Lemma two_passes_poll w s :
  at_ s <> STOPPED -> (S (polls s) <= polls (fst (run w 2 s)))%nat.
Proof.
  intros Hs. rewrite run_2.
  destruct (step_polls w s) as (M1 & P1).
  destruct (step_polls w (fst (step w s))) as (M2 & P2).
  destruct (at_ s) eqn:E; try contradiction.
  - rewrite P1 in M2 by auto. exact M2.
  - rewrite P1 in M2 by eauto. exact M2.
  - rewrite (step_backoff w s E) in *. cbn [fst] in *.
    rewrite P2 by (left; reflexivity). simpl. lia.
Qed.

Lemma exit_seen_run_3 w k s :
  stop_signal s = true \/ (k <= polls s)%nat ->
  at_ (fst (run (on_exit k w) 3 s)) = STOPPED.
Proof.
  intros H. destruct s as [l st p c o g sv]. simpl in H.
  assert (Hb : st || ((k <=? p)%nat || exit_clicked w p) = true).
  { destruct H as [->|H]; [reflexivity|].
    apply Nat.leb_le in H. rewrite H. apply orb_true_r. }
  destruct l; simpl; unfold step, is_set; simpl; rewrite ?Hb; simpl;
    rewrite ?Hb; reflexivity.
Qed.

Lemma exit_click_returns w k m : forall s,
  (k <= polls s + m)%nat ->
  at_ (fst (run (on_exit k w) (2 * m + 3) s)) = STOPPED.
Proof.
  induction m as [|m IH]; intros s Hk.
  - apply exit_seen_run_3. right. lia.
  - destruct (at_ s) eqn:E;
      try (replace (2 * S m + 3)%nat with (2 + (2 * m + 3))%nat by lia;
           rewrite run_add; cbn [fst]; apply IH;
           pose proof (two_passes_poll (on_exit k w) s) as P;
           rewrite E in P; specialize (P ltac:(discriminate)); lia).
    rewrite run_stopped by exact E. exact E.
Qed.

(** X1. Clicking Exit ends the listener: if [on_exit] has run before the
    loop's [k]-th poll of the flag, then whatever the broker and the
    filesystem do, [listen_to_queue] has returned after [2 * k + 3] passes,
    and it stays returned. *)
Theorem exit_click_makes_the_loop_return w k j :
  at_ (fst (listen_to_queue (on_exit k w) (2 * k + 3 + j))) = STOPPED.
Proof.
  unfold listen_to_queue. rewrite run_add. cbn [fst].
  assert (H : at_ (fst (run (on_exit k w) (2 * k + 3) init)) = STOPPED)
    by (apply exit_click_returns; simpl; lia).
  rewrite run_stopped by exact H. exact H.
Qed.

End ListenerMore.

(** * Further properties of the sanitizer *)

Module SanitizerMore.

Import Sanitizer Clean SanitizerFacts Utf8 Utf8Facts.

Lemma clean_message_cases x :
  let y := re_sub_class in_ctrl_class x in
  (clean_message x = y
   /\ (startswith RFH y = false \/ find XML_PROLOG y = -1))
  \/ (clean_message x = slice_from (find XML_PROLOG y) y
      /\ startswith RFH y = true /\ find XML_PROLOG y <> -1).
Proof.
  cbv zeta. unfold clean_message.
  destruct (startswith RFH _) eqn:E; [|left; auto].
  destruct (Z.eqb_spec (find XML_PROLOG (re_sub_class in_ctrl_class x)) (-1))
    as [F|F]; [left | right]; auto.
Qed.

Lemma in_clean_message x c :
  In c (clean_message x) -> In c x /\ in_ctrl_class c = false.
Proof.
  intros Hc.
  assert (Hy : In c (re_sub_class in_ctrl_class x)).
  { destruct (clean_message_cases x) as [[E _]|[E _]]; rewrite E in Hc;
      [exact Hc | apply (in_skipn c _ _ Hc)]. }
  apply filter_In in Hy. destruct Hy as [Hx Hn].
  split; [exact Hx | apply negb_true_iff, Hn].
Qed.

(** X7. The result holds no character of the stripped class, whether or not
    a header was cut. *)
Theorem clean_message_leaves_no_control_character x :
  forallb (fun c => negb (in_ctrl_class c)) (clean_message x) = true.
Proof.
  apply forallb_forall. intros c Hc. apply negb_true_iff.
  apply (in_clean_message x c Hc).
Qed.

Lemma subseq_filter p : forall l, subseq (filter p l) l.
Proof.
  induction l as [|a l IH]; [constructor|]. simpl.
  destruct (p a); constructor; exact IH.
Qed.

Lemma subseq_skipn n : forall l, subseq (skipn n l) l.
Proof.
  induction n as [|n IH]; intros l; [apply subseq_refl|].
  destruct l as [|a l]; [constructor|]. simpl. constructor. apply IH.
Qed.

Lemma subseq_trans a b c : subseq a b -> subseq b c -> subseq a c.
Proof.
  intros Hab Hbc. revert a Hab.
  induction Hbc as [|x b c Hbc IH|y b c Hbc IH]; intros a Hab.
  - exact Hab.
  - inversion Hab; subst; constructor; apply IH; assumption.
  - constructor. apply IH. exact Hab.
Qed.

Lemma clean_message_subseq x : subseq (clean_message x) x.
Proof.
  apply (subseq_trans _ (re_sub_class in_ctrl_class x)).
  - destruct (clean_message_cases x) as [[E _]|[E _]]; rewrite E;
      [apply subseq_refl | apply subseq_skipn].
  - apply subseq_filter.
Qed.

(** X8. Cleaning only deletes: the result is the input with some characters
    left out, in the same order, and never longer than the input. *)
Theorem clean_message_only_deletes x :
  subseq (clean_message x) x
  /\ (List.length (clean_message x) <= List.length x)%nat.
Proof.
  split; [| apply subseq_length]; apply clean_message_subseq.
Qed.

Lemma marker_is_no_header s :
  startswith XML_PROLOG s = true -> startswith RFH s = false.
Proof.
  destruct s as [|c s']; [discriminate|].
  change (startswith XML_PROLOG (c :: s'))
    with ((60 =? c) && startswith (str "?xml") s').
  intros H. apply andb_prop in H. destruct H as [Hc _].
  apply Z.eqb_eq in Hc. subst c. reflexivity.
Qed.

Lemma find_lower_bound sub s : -1 <= find sub s.
Proof.
  induction s as [|c s IH]; cbn [find];
    destruct (startswith sub _); try lia.
  destruct (Z.eqb_spec (find sub s) (-1)); lia.
Qed.

(** X9. A header that is found is cut off: when the stripped text begins
    with [RFH] and holds the marker, the result begins with [<?xml], is no
    header any more, and is shorter than the stripped text by the three
    characters of [RFH] at least. *)
Theorem found_header_is_cut_off x :
  let y := re_sub_class in_ctrl_class x in
  startswith RFH y = true ->
  find XML_PROLOG y <> -1 ->
  startswith XML_PROLOG (clean_message x) = true
  /\ startswith RFH (clean_message x) = false
  /\ (List.length (clean_message x) + 3 <= List.length y)%nat.
Proof.
  cbv zeta. intros Hh Hf.
  destruct (clean_message_cases x) as [[_ [E|E]]|[E _]];
    [congruence | contradiction |].
  pose proof (find_startswith XML_PROLOG _ Hf) as Hm.
  rewrite E. split; [exact Hm|]. split; [apply marker_is_no_header, Hm|].
  set (y := re_sub_class in_ctrl_class x) in *.
  unfold slice_from in *. pose proof (find_lower_bound XML_PROLOG y) as Hlb.
  destruct (Z.to_nat (find XML_PROLOG y)) as [|[|[|i]]] eqn:Ei.
  - simpl in Hm. rewrite (marker_is_no_header y Hm) in Hh. discriminate.
  - destruct y as [|a [|b y']]; try discriminate.
    change (startswith RFH (a :: b :: y'))
      with ((82 =? a) && ((70 =? b) && startswith (str "H") y')) in Hh.
    simpl skipn in Hm.
    change (startswith XML_PROLOG (b :: y'))
      with ((60 =? b) && startswith (str "?xml") y') in Hm.
    apply andb_prop in Hh. destruct Hh as [_ Hh].
    apply andb_prop in Hh. destruct Hh as [Hb _].
    apply andb_prop in Hm. destruct Hm as [Hb' _]. lia.
  - destruct y as [|a [|b [|c y']]]; try discriminate.
    change (startswith RFH (a :: b :: c :: y'))
      with ((82 =? a) && ((70 =? b) && ((72 =? c) && true))) in Hh.
    simpl skipn in Hm.
    change (startswith XML_PROLOG (c :: y'))
      with ((60 =? c) && startswith (str "?xml") y') in Hm.
    apply andb_prop in Hm. destruct Hm as [Hc' _]. lia.
  - rewrite length_skipn.
    assert (List.length (skipn (S (S (S i))) y) <> 0%nat).
    { intros H0. apply length_zero_iff_nil in H0. rewrite H0 in Hm.
      discriminate. }
    rewrite length_skipn in H. lia.
Qed.

Lemma found_header_is_cut_off_witness :
  clean_message (str "RF" ++ [0] ++ str "H junk <?xml?><a/>")
  = str "<?xml?><a/>"
  /\ startswith RFH
       (clean_message (str "RF" ++ [0] ++ str "H junk <?xml?><a/>"))
     = false.
Proof.
  destruct (found_header_is_cut_off
              (str "RF" ++ [0] ++ str "H junk <?xml?><a/>")
              eq_refl ltac:(vm_compute; discriminate)) as (_ & H & _).
  split; [reflexivity | exact H].
Defined.

(** X10. The texts cleaning leaves alone are exactly those that hold no
    character of the stripped class and are no header with a marker. *)
Theorem clean_message_fixed_points x :
  clean_message x = x
  <-> forallb (fun c => negb (in_ctrl_class c)) x = true
      /\ (startswith RFH x = false \/ find XML_PROLOG x = -1).
Proof.
  split.
  - intros E.
    assert (Hc : forallb (fun c => negb (in_ctrl_class c)) x = true).
    { apply forallb_forall. intros c Hin. rewrite <- E in Hin.
      apply negb_true_iff. apply (in_clean_message x c Hin). }
    split; [exact Hc|].
    assert (Hy : re_sub_class in_ctrl_class x = x).
    { apply filter_id. apply forallb_forall. exact Hc. }
    destruct (clean_message_cases x) as [[_ H]|[E' [Hh Hf]]];
      rewrite Hy in *; [exact H|].
    left. pose proof (find_startswith XML_PROLOG _ Hf) as Hm.
    rewrite <- E', E in Hm. apply marker_is_no_header, Hm.
  - intros [Hc H].
    assert (Hy : re_sub_class in_ctrl_class x = x).
    { apply filter_id. apply forallb_forall. exact Hc. }
    destruct (clean_message_cases x) as [[E _]|[_ [Hh Hf]]];
      rewrite Hy in *; [exact E|].
    destruct H; congruence.
Qed.

Lemma clean_message_fixed_points_witness :
  clean_message (str "RFH without a marker") = str "RFH without a marker"
  /\ forallb (fun c => negb (in_ctrl_class c))
       (clean_message (str "a" ++ [7] ++ str "b")) = true.
Proof.
  destruct (clean_message_fixed_points (str "RFH without a marker"))
    as [_ H1].
  destruct (clean_message_fixed_points
              (clean_message (str "a" ++ [7] ++ str "b"))) as [H2 _].
  split; [apply H1; split; [reflexivity | right; reflexivity]|].
  apply H2. reflexivity.
Defined.

End SanitizerMore.

(** * When save_message raises in html.unescape *)

Module UnescapeMore.

Import Sanitizer Clean SanitizerFacts HtmlFacts Utf8 Utf8Facts Writer.
Import Html.

Lemma clean_message_length x :
  (List.length (clean_message x) <= List.length x)%nat.
Proof.
  unfold clean_message, re_sub_class.
  pose proof (filter_length_le (fun c => negb (in_ctrl_class c)) x) as Hf.
  destruct (startswith RFH _); [|exact Hf].
  destruct (negb _); [|exact Hf].
  unfold slice_from. rewrite length_skipn. lia.
Qed.

Section SaveMessageRaises.

Variable html5 : pystr -> option pystr.
Variable int_max_str_digits : nat.
Variable os_sep : pystr.
Variable linesep : pystr.

(** X11. [save_message] raises before it writes anything exactly when the
    cleaned message holds a decimal character reference [&#ddd...] whose
    digits are more than 640 and more than the interpreter's limit on
    decimal strings: the [ValueError] of [int] inside [html.unescape]. Where
    the limit is off, it never does. *)
Theorem save_message_raises_on_long_reference_only now msg :
  save_message html5 int_max_str_digits os_sep linesep now msg = None
  <-> long_reference int_max_str_digits (clean_message msg).
Proof.
  unfold save_message. rewrite <- (unescape_none_iff html5).
  destruct (unescape html5 int_max_str_digits (clean_message msg));
    split; intros H; congruence.
Qed.

(** X12. A message of at most 640 characters, or no longer than the limit,
    is never refused: whatever references it holds, [save_message] reaches
    the write, with the Content [html.unescape] returned. *)
Theorem short_message_reaches_the_write now msg :
  (int_max_str_digits = 0 \/ List.length msg <= 640
   \/ List.length msg <= int_max_str_digits)%nat ->
  exists w content,
    save_message html5 int_max_str_digits os_sep linesep now msg = Some w
    /\ unescape html5 int_max_str_digits (clean_message msg) = Some content
    /\ root w = document_of (strftime now) content.
Proof.
  intros Hshort. unfold save_message.
  destruct (unescape html5 int_max_str_digits (clean_message msg))
    as [content|] eqn:E.
  - eexists _, content. split; [reflexivity|]. split; reflexivity.
  - apply unescape_none_iff, long_reference_length in E.
    pose proof (clean_message_length msg). lia.
Qed.

End SaveMessageRaises.

Lemma save_message_raises_on_long_reference_only_witness :
  save_message (fun _ => None) 4300 (str "/") [10] moment
    (str "<a>&#" ++ repeat 49 4301 ++ str ";</a>") = None.
Proof.
  apply (save_message_raises_on_long_reference_only (fun _ => None) 4300
           (str "/") [10] moment).
  exists (str "<a>"), (repeat 49 4301), (str ";</a>").
  split; [vm_compute; reflexivity|].
  split; [vm_compute; reflexivity|].
  rewrite repeat_length. split; [lia|]. split; lia.
Defined.

Lemma short_message_reaches_the_write_witness :
  exists w,
    save_message (fun _ => None) 4300 (str "/") [10] moment
      (str "a &#60; b") = Some w
    /\ root w = document_of (strftime moment) (str "a < b").
Proof.
  destruct (short_message_reaches_the_write (fun _ => None) 4300 (str "/")
              [10] moment (str "a &#60; b"))
    as (w & content & Hw & Hc & Hr).
  - right. left. simpl. lia.
  - exists w. split; [exact Hw|]. rewrite Hr.
    vm_compute in Hc. injection Hc as <-. reflexivity.
Defined.

End UnescapeMore.

(** * The file a message is written to *)

Module WriterMore.

Import Writer XmlRead WriterFacts.

Lemma filename_of_save html5 lim sep nl now msg w :
  save_message html5 lim sep nl now msg = Some w ->
  filename w
  = XML_SAVE_DIR ++ sep ++ str "message_" ++ strftime now ++ str ".xml"
  /\ timestamp w = strftime now.
Proof.
  unfold save_message. destruct (Html.unescape _ _ _); [|discriminate].
  intros H. injection H as <-. split; reflexivity.
Qed.

(** X13. The file name is made of the second of the call and of nothing
    else: two calls that reach the write name the same file exactly when
    they are made within the same second, whatever the messages hold. *)
Theorem same_file_exactly_within_the_same_second
  html5 lim sep nl t1 t2 m1 m2 w1 w2 :
  valid_datetime t1 = true -> valid_datetime t2 = true ->
  save_message html5 lim sep nl t1 m1 = Some w1 ->
  save_message html5 lim sep nl t2 m2 = Some w2 ->
  filename w1 = filename w2 <-> t1 = t2.
Proof.
  intros V1 V2 H1 H2.
  apply filename_of_save in H1. apply filename_of_save in H2.
  destruct H1 as [-> _]. destruct H2 as [-> _]. split.
  - intros E. do 3 apply app_inv_head in E. apply app_inv_tail in E.
    destruct (strftime_format t1) as (_ & _ & R1).
    destruct (strftime_format t2) as (_ & _ & R2).
    rewrite <- (R1 V1), <- (R2 V2), E. reflexivity.
  - intros ->. reflexivity.
Qed.

Lemma same_file_exactly_within_the_same_second_witness :
  exists w1 w2,
    save_message (fun _ => None) 4300 (str "/") [10] moment (str "first")
    = Some w1
    /\ save_message (fun _ => None) 4300 (str "/") [10] moment (str "second")
       = Some w2
    /\ filename w1 = filename w2
    /\ filename w1 = str "extracted_data/message_20240102T030405Z.xml".
Proof.
  eexists _, _. split; [reflexivity|]. split; [reflexivity|].
  split; [|reflexivity].
  apply (same_file_exactly_within_the_same_second (fun _ => None) 4300
           (str "/") [10] moment moment (str "first") (str "second")
           _ _ eq_refl eq_refl eq_refl eq_refl).
  reflexivity.
Defined.

End WriterMore.

(** * A message that decodes to nothing *)

Module DecodeMore.

Import Listener Utf8 Utf8Facts.

Lemma decode_all_ill_formed b :
  forallb invalid_start b = true -> decode_ignore b = [].
Proof.
  induction b as [|x b IH]; intros H; [reflexivity|].
  cbn [forallb] in H. apply andb_prop in H. destruct H as [Hx Hb].
  rewrite (decode_invalid_start x b Hx). apply IH, Hb.
Qed.

(** X14. The test for "no message" is made on the bytes, before they are
    decoded: a message that is not empty but holds only bytes that start no
    UTF-8 sequence is logged as received and handed to [save_message] as the
    empty text, and the stop signal stays unset. *)
Theorem ill_formed_message_is_saved_as_empty_text w s h b :
  at_ s = RECEIVING h ->
  stop_signal s = false ->
  exit_clicked w (polls s) = false ->
  get_result w (gets s) = Returns (PyBytes b) ->
  b <> [] ->
  forallb invalid_start b = true ->
  (exists rest,
      snd (step w s)
      = QueueGet h (Returns (PyBytes b)) :: Log INFO ReceivedMessage
        :: SaveMessage [] (save_result w (saves s)) :: rest)
  /\ stop_signal (fst (step w s)) = false.
Proof.
  intros Hat Hstop Hclick Hget Hne Hbad.
  assert (Htruthy : truthy (PyBytes b) = true).
  { destruct b; [congruence | reflexivity]. }
  unfold step, is_set. rewrite Hat, Hstop, Hclick. simpl.
  unfold receive_one; simpl. rewrite Hget, Htruthy. simpl.
  rewrite (decode_all_ill_formed b Hbad).
  destruct (save_result w (saves s)) as [u|[r|]]; simpl.
  - split; [eexists; reflexivity | reflexivity].
  - destruct (r =? MQRC_NO_MSG_AVAILABLE); simpl;
      (split; [eexists; reflexivity | reflexivity]).
  - split; [eexists; reflexivity | reflexivity].
Qed.

Lemma ill_formed_message_is_saved_as_empty_text_witness :
  let w :=
    mk_World (fun _ => false) (fun _ => Returns tt) (fun _ => Returns tt)
      (fun _ => Returns (PyBytes [0xFF; 0x80])) (fun _ => Returns tt) in
  let s := fst (listen_to_queue w 1) in
  snd (step w s)
  = [QueueGet 0 (Returns (PyBytes [0xFF; 0x80])); Log INFO ReceivedMessage;
     SaveMessage [] (Returns tt); Log INFO SavedCleanMessage; Sleep 10]
  /\ stop_signal (fst (step w s)) = false.
Proof.
  cbv zeta.
  destruct (ill_formed_message_is_saved_as_empty_text
              (mk_World (fun _ => false) (fun _ => Returns tt)
                 (fun _ => Returns tt)
                 (fun _ => Returns (PyBytes [0xFF; 0x80]))
                 (fun _ => Returns tt))
              (fst (listen_to_queue
                      (mk_World (fun _ => false) (fun _ => Returns tt)
                         (fun _ => Returns tt)
                         (fun _ => Returns (PyBytes [0xFF; 0x80]))
                         (fun _ => Returns tt)) 1))
              0%nat [0xFF; 0x80]
              eq_refl eq_refl eq_refl eq_refl ltac:(discriminate) eq_refl)
    as (_ & H).
  split; [reflexivity | exact H].
Defined.

End DecodeMore.
